(** * ConsultDeck voice pipeline: a shallow embedding of the client hooks

    The development follows the four TypeScript units that make up the
    voice interaction pipeline:

    - [useAmbientListener.ts] : continuous capture, harvested on a timer,
      each harvested segment sent to speech-to-text and logged;
    - [AIChatPanel]           : the chat panel that owns the ambient
      listener, the auto-reply gate ([onTranscriptEntry]) and [queryAI];
    - [useVoiceRAG.ts]        : the manual record / transcribe / retrieve /
      speak cycle with its five-valued [VoiceState];
    - [VoicePanel]            : the widget whose handlers guard the hook.

    React state is modelled by explicit state passing.  An [await] is a
    suspension point: the asynchronous bodies are written in a small
    state-and-exception monad and take the outcome of each awaited
    promise as an argument, [Pending] meaning "not settled yet", so that
    running a body with a prefix of settled promises yields the state in
    which it is suspended.  Values a callback closes over are explicit
    arguments; state reached through refs and updater functions is read
    from the state passed along. *)

From Stdlib Require Import ZArith NArith List Bool String Ascii Lia.
From Stdlib Require Decimal DecimalZ.
From Stdlib Require QArith.
Import ListNotations.
Open Scope N_scope.

(* ===================================================================== *)
(** ** JavaScript values used by the hooks *)
(* ===================================================================== *)

Module JS.

(** A JavaScript string is a sequence of UTF-16 code units. *)
Definition jsstring := list N.

(** String literals of the source (all of them ASCII). *)
Definition lit (s : string) : jsstring :=
  map N_of_ascii (list_ascii_of_string s).

(** [!s] is true exactly for the empty string. *)
Definition truthy (s : jsstring) : bool :=
  match s with [] => false | _ :: _ => true end.

(** ECMAScript [WhiteSpace] and [LineTerminator] code points, the set
    stripped by [String.prototype.trim]. *)
Definition isWhiteSpace (c : N) : bool :=
  (c =? 9) || (c =? 10) || (c =? 11) || (c =? 12) || (c =? 13)
  || (c =? 32) || (c =? 160) || (c =? 5760)
  || ((8192 <=? c) && (c <=? 8202))
  || (c =? 8232) || (c =? 8233) || (c =? 8239) || (c =? 8287)
  || (c =? 12288) || (c =? 65279).

Fixpoint trimStart (s : jsstring) : jsstring :=
  match s with
  | [] => []
  | c :: r => if isWhiteSpace c then trimStart r else s
  end.

Definition trimEnd (s : jsstring) : jsstring := rev (trimStart (rev s)).

Definition trim (s : jsstring) : jsstring := trimEnd (trimStart s).

(** Empty or made of white space only. *)
Definition blank (s : jsstring) : bool := forallb isWhiteSpace s.

(** Decimal digits of an unsigned decimal numeral. *)
Fixpoint digits (d : Decimal.uint) : jsstring :=
  match d with
  | Decimal.Nil => []
  | Decimal.D0 d => 48 :: digits d
  | Decimal.D1 d => 49 :: digits d
  | Decimal.D2 d => 50 :: digits d
  | Decimal.D3 d => 51 :: digits d
  | Decimal.D4 d => 52 :: digits d
  | Decimal.D5 d => 53 :: digits d
  | Decimal.D6 d => 54 :: digits d
  | Decimal.D7 d => 55 :: digits d
  | Decimal.D8 d => 56 :: digits d
  | Decimal.D9 d => 57 :: digits d
  end.

(** [`${n}`] for an integral Number: decimal digits, a leading [-]
    (code unit 45) when negative. *)
Definition Number_toString (z : Z) : jsstring :=
  match Z.to_int z with
  | Decimal.Pos d => digits d
  | Decimal.Neg d => 45 :: digits d
  end.

(** [Array.prototype.join] on strings. *)
Fixpoint join (sep : jsstring) (l : list jsstring) : jsstring :=
  match l with
  | [] => []
  | [x] => x
  | x :: r => x ++ sep ++ join sep r
  end.

(** [Array.prototype.slice(-n)]: the last [n] elements. *)
Definition sliceLast {A} (n : nat) (l : list A) : list A :=
  skipn (List.length l - n) l.

(** The part of a string after its last [-]; used to read the counter
    back from a transcript id. *)
Definition notDash (c : N) : bool := negb (c =? 45).

Fixpoint takeWhile {A} (f : A -> bool) (l : list A) : list A :=
  match l with
  | [] => []
  | x :: r => if f x then x :: takeWhile f r else []
  end.

Definition lastSegment (s : jsstring) : jsstring :=
  rev (takeWhile notDash (rev s)).

End JS.

Import JS.

(* ===================================================================== *)
(** ** Awaited promises and the monad of the asynchronous bodies *)
(* ===================================================================== *)

(** Outcome of an awaited promise as seen by the body that awaits it. *)
Inductive Await (A : Type) : Type :=
| Pending                       (* not settled: the body stays suspended *)
| Rejected (message : jsstring) (* settled with an [Error] *)
| Resolved (value : A).
Arguments Pending {A}.
Arguments Rejected {A} message.
Arguments Resolved {A} value.

(** A [fetch] response: the [ok] flag and the decoded body. *)
Record Response (A : Type) : Type := mkResponse { ok : bool; body : A }.
Arguments mkResponse {A} ok body.
Arguments ok {A} r.
Arguments body {A} r.

(** Result of running a body: it returned, it threw, or it is suspended
    at an [await]. *)
Inductive Outcome (A : Type) : Type :=
| Done (a : A)
| Threw (message : jsstring)
| Suspended.
Arguments Done {A} a.
Arguments Threw {A} message.
Arguments Suspended {A}.

Definition Eff (S A : Type) : Type := S -> Outcome A * S.

Definition ret {S A} (a : A) : Eff S A := fun s => (Done a, s).

Definition bind {S A B} (m : Eff S A) (k : A -> Eff S B) : Eff S B :=
  fun s =>
    match m s with
    | (Done a, s') => k a s'
    | (Threw e, s') => (Threw e, s')
    | (Suspended, s') => (Suspended, s')
    end.

Definition throw {S A} (message : jsstring) : Eff S A :=
  fun s => (Threw message, s).

Definition await {S A} (p : Await A) : Eff S A :=
  fun s =>
    match p with
    | Pending => (Suspended, s)
    | Rejected e => (Threw e, s)
    | Resolved a => (Done a, s)
    end.

(** [try { body } catch (e) { handler(e) }]; a suspended body stays
    suspended inside its [try]. *)
Definition tryCatch {S A} (body : Eff S A) (handler : jsstring -> Eff S A)
  : Eff S A :=
  fun s =>
    match body s with
    | (Threw e, s') => handler e s'
    | r => r
    end.

Definition modify {S} (f : S -> S) : Eff S unit := fun s => (Done tt, f s).
Definition gets {S A} (f : S -> A) : Eff S A := fun s => (Done (f s), s).
Definition when_ {S} (b : bool) (m : Eff S unit) : Eff S unit :=
  if b then m else ret tt.

(** State reached by a body, whatever its outcome. *)
Definition exec {S A} (m : Eff S A) (s : S) : S := snd (m s).

Declare Scope eff_scope.
Delimit Scope eff_scope with eff.
Notation "x <- m ;; k" := (bind m (fun x => k))
  (at level 61, m at next level, right associativity) : eff_scope.
Notation "m ;; k" := (bind m (fun _ => k))
  (at level 61, right associativity) : eff_scope.

(** Every run of the body takes a state to one related to it by [R]. *)
Definition respects {S A} (R : S -> S -> Prop) (m : Eff S A) : Prop :=
  forall s, R s (snd (m s)).

(** The log [proj] (requests sent, messages shown, audio elements
    created) only grew. *)
Definition extends {S X} (proj : S -> list X) (s s' : S) : Prop :=
  exists rest, proj s' = proj s ++ rest.

(** The field [proj] is as it was. *)
Definition keeps {S X} (proj : S -> X) (s s' : S) : Prop := proj s' = proj s.

(* ===================================================================== *)
(** ** Browser media objects *)
(* ===================================================================== *)

Module Media.

(** A [Blob]: only its size and MIME type are ever inspected. *)
Record Blob := mkBlob { size : N; type : jsstring }.

(** [new Blob(parts, { type })]. *)
Definition newBlob (parts : list Blob) (ty : jsstring) : Blob :=
  {| size := fold_right (fun b acc => size b + acc) 0 parts; type := ty |}.

Inductive RecordingState := inactive | recording | paused.

Definition isRecording (s : RecordingState) : bool :=
  match s with recording => true | _ => false end.

(** A [MediaRecorder] object.  [rstream] and [rmime] are what the
    handlers installed on it close over; [buffered] is the audio
    captured since [start()], delivered as one [dataavailable] blob
    when the recorder stops. *)
Record MediaRecorder := mkRecorder {
  rstream : nat;
  rmime : jsstring;
  rstate : RecordingState;
  buffered : N
}.

(** An [HTMLAudioElement] created by [new Audio(url)]. *)
Inductive AudioStatus := playing | pausedAudio | endedAudio | failedAudio.

Definition isPlaying (a : AudioStatus) : bool :=
  match a with playing => true | _ => false end.

(** Objects live in stores indexed by creation order. *)
Fixpoint setNth {A} (i : nat) (x : A) (l : list A) : list A :=
  match l, i with
  | [], _ => []
  | _ :: r, O => x :: r
  | y :: r, S j => y :: setNth j x r
  end.

End Media.

Import Media.

Inductive Language := en | hi.

(* ===================================================================== *)
(** ** useAmbientListener.ts *)
(* ===================================================================== *)

Module UseAmbientListener.

Record TranscriptEntry := mkEntry {
  id : jsstring;
  text : jsstring;
  timestamp : Z
}.

(** Hook state, refs, and the browser objects the hook created.  The
    last block is the part of the browser the hook talks to: streams
    (true while their tracks are live), recorders, interval timers
    (true while running), the queue of recorder "stop" tasks, and the
    requests issued so far. *)
Record Listener := mkListener {
  (* options *)
  language : Language;
  supportsOpus : bool;          (* isTypeSupported("audio/webm;codecs=opus") *)
  supportsWebm : bool;          (* isTypeSupported("audio/webm") *)
  (* useState *)
  isListening : bool;
  entries : list TranscriptEntry;
  (* useRef *)
  streamRef : option nat;
  recorderRef : option nat;
  chunksRef : list Blob;
  intervalRef : option nat;
  idCounter : N;
  (* browser *)
  streams : list bool;
  recorders : list MediaRecorder;
  timers : list bool;
  stopTasks : list nat;
  micRequests : nat;            (* getUserMedia calls not yet settled *)
  sttRequests : list Blob;      (* every POST /api/voice/transcribe *)
  sttInFlight : nat             (* of which not yet answered *)
}.

Definition initial (lang : Language) (opus webm : bool) : Listener :=
  {| language := lang; supportsOpus := opus; supportsWebm := webm;
     isListening := false; entries := [];
     streamRef := None; recorderRef := None; chunksRef := [];
     intervalRef := None; idCounter := 0;
     streams := []; recorders := []; timers := []; stopTasks := [];
     micRequests := 0; sttRequests := []; sttInFlight := 0 |}.

(** Field updates. *)
Definition setIsListening b (l : Listener) : Listener :=
  mkListener (language l) (supportsOpus l) (supportsWebm l) b (entries l)
    (streamRef l) (recorderRef l) (chunksRef l) (intervalRef l) (idCounter l)
    (streams l) (recorders l) (timers l) (stopTasks l) (micRequests l)
    (sttRequests l) (sttInFlight l).
Definition setEntries e (l : Listener) : Listener :=
  mkListener (language l) (supportsOpus l) (supportsWebm l) (isListening l) e
    (streamRef l) (recorderRef l) (chunksRef l) (intervalRef l) (idCounter l)
    (streams l) (recorders l) (timers l) (stopTasks l) (micRequests l)
    (sttRequests l) (sttInFlight l).
Definition setStreamRef r (l : Listener) : Listener :=
  mkListener (language l) (supportsOpus l) (supportsWebm l) (isListening l)
    (entries l) r (recorderRef l) (chunksRef l) (intervalRef l) (idCounter l)
    (streams l) (recorders l) (timers l) (stopTasks l) (micRequests l)
    (sttRequests l) (sttInFlight l).
Definition setRecorderRef r (l : Listener) : Listener :=
  mkListener (language l) (supportsOpus l) (supportsWebm l) (isListening l)
    (entries l) (streamRef l) r (chunksRef l) (intervalRef l) (idCounter l)
    (streams l) (recorders l) (timers l) (stopTasks l) (micRequests l)
    (sttRequests l) (sttInFlight l).
Definition setChunksRef c (l : Listener) : Listener :=
  mkListener (language l) (supportsOpus l) (supportsWebm l) (isListening l)
    (entries l) (streamRef l) (recorderRef l) c (intervalRef l) (idCounter l)
    (streams l) (recorders l) (timers l) (stopTasks l) (micRequests l)
    (sttRequests l) (sttInFlight l).
Definition setIntervalRef i (l : Listener) : Listener :=
  mkListener (language l) (supportsOpus l) (supportsWebm l) (isListening l)
    (entries l) (streamRef l) (recorderRef l) (chunksRef l) i (idCounter l)
    (streams l) (recorders l) (timers l) (stopTasks l) (micRequests l)
    (sttRequests l) (sttInFlight l).
Definition setIdCounter n (l : Listener) : Listener :=
  mkListener (language l) (supportsOpus l) (supportsWebm l) (isListening l)
    (entries l) (streamRef l) (recorderRef l) (chunksRef l) (intervalRef l) n
    (streams l) (recorders l) (timers l) (stopTasks l) (micRequests l)
    (sttRequests l) (sttInFlight l).
Definition setStreams s (l : Listener) : Listener :=
  mkListener (language l) (supportsOpus l) (supportsWebm l) (isListening l)
    (entries l) (streamRef l) (recorderRef l) (chunksRef l) (intervalRef l)
    (idCounter l) s (recorders l) (timers l) (stopTasks l) (micRequests l)
    (sttRequests l) (sttInFlight l).
Definition setRecorders r (l : Listener) : Listener :=
  mkListener (language l) (supportsOpus l) (supportsWebm l) (isListening l)
    (entries l) (streamRef l) (recorderRef l) (chunksRef l) (intervalRef l)
    (idCounter l) (streams l) r (timers l) (stopTasks l) (micRequests l)
    (sttRequests l) (sttInFlight l).
Definition setTimers t (l : Listener) : Listener :=
  mkListener (language l) (supportsOpus l) (supportsWebm l) (isListening l)
    (entries l) (streamRef l) (recorderRef l) (chunksRef l) (intervalRef l)
    (idCounter l) (streams l) (recorders l) t (stopTasks l) (micRequests l)
    (sttRequests l) (sttInFlight l).
Definition setStopTasks t (l : Listener) : Listener :=
  mkListener (language l) (supportsOpus l) (supportsWebm l) (isListening l)
    (entries l) (streamRef l) (recorderRef l) (chunksRef l) (intervalRef l)
    (idCounter l) (streams l) (recorders l) (timers l) t (micRequests l)
    (sttRequests l) (sttInFlight l).
Definition setMicRequests n (l : Listener) : Listener :=
  mkListener (language l) (supportsOpus l) (supportsWebm l) (isListening l)
    (entries l) (streamRef l) (recorderRef l) (chunksRef l) (intervalRef l)
    (idCounter l) (streams l) (recorders l) (timers l) (stopTasks l) n
    (sttRequests l) (sttInFlight l).
Definition setStt reqs n (l : Listener) : Listener :=
  mkListener (language l) (supportsOpus l) (supportsWebm l) (isListening l)
    (entries l) (streamRef l) (recorderRef l) (chunksRef l) (intervalRef l)
    (idCounter l) (streams l) (recorders l) (timers l) (stopTasks l)
    (micRequests l) reqs n.

(** *** Browser operations *)

(** [stream.active]. *)
Definition streamActive (s : nat) (l : Listener) : bool :=
  nth s (streams l) false.

(** [recorder.stop()]: the recorder becomes inactive at once and a task
    is queued that fires [dataavailable] and then [stop]. *)
Definition recorderStop (r : nat) (l : Listener) : Listener :=
  match nth_error (recorders l) r with
  | Some rec =>
      setStopTasks (stopTasks l ++ [r])
        (setRecorders
           (setNth r (mkRecorder (rstream rec) (rmime rec) inactive (buffered rec))
              (recorders l)) l)
  | None => l
  end.

(** [recorderRef.current?.state === "recording"]. *)
Definition refIsRecording (l : Listener) : option nat :=
  match recorderRef l with
  | Some r =>
      match nth_error (recorders l) r with
      | Some rec => if isRecording (rstate rec) then Some r else None
      | None => None
      end
  | None => None
  end.

(** The microphone delivers [n] more bytes: every recorder that is
    recording a live stream buffers them. *)
Definition audioData (n : N) (l : Listener) : Listener :=
  setRecorders
    (map (fun rec =>
            if isRecording (rstate rec) && streamActive (rstream rec) l
            then mkRecorder (rstream rec) (rmime rec) (rstate rec) (buffered rec + n)
            else rec)
       (recorders l)) l.

(** *** The hook *)

(** [transcribeChunk], up to its [await fetch(...)]: chunks under 1000
    bytes return before any request is built. *)
Definition transcribeChunk (blob : Blob) (l : Listener) : Listener :=
  if size blob <? 1000 then l
  else setStt (sttRequests l ++ [blob]) (S (sttInFlight l)) l.

(** [transcribeChunk] from the settled [fetch] on.  [tId] and [tStamp]
    are the two readings of [Date.now()].  Returns the entry handed to
    [opts.onTranscript], if any. *)
Definition transcribeChunk_resume (res : Await (Response jsstring))
    (tId tStamp : Z) (l : Listener) : Listener * option TranscriptEntry :=
  match res with
  | Pending => (l, None)
  | Rejected _ => (l, None)                         (* catch: logged *)
  | Resolved r =>
      if negb (ok r) then (l, None)
      else
        let text := trim (body r) in
        if negb (truthy text) then (l, None)
        else
          let entry :=
            {| id := lit "t-" ++ Number_toString tId ++ lit "-"
                       ++ Number_toString (Z.of_N (idCounter l));
               text := text;
               timestamp := tStamp |} in
          (setEntries (entries l ++ [entry])
             (setIdCounter (idCounter l + 1) l),
           Some entry)
  end.

Definition harvestAndRestart (l : Listener) : Listener :=
  match refIsRecording l with
  | Some r => recorderStop r l
  | None => l
  end.

(** The MIME type chosen by [startRecorder]. *)
Definition chooseMime (l : Listener) : jsstring :=
  if supportsOpus l then lit "audio/webm;codecs=opus"
  else if supportsWebm l then lit "audio/webm"
  else lit "".

(** [startRecorder], a closure over [stream]. *)
Definition startRecorder (stream : nat) (l : Listener) : Listener :=
  let rec := mkRecorder stream (chooseMime l) recording 0 in
  setChunksRef []
    (setRecorderRef (Some (List.length (recorders l)))
       (setRecorders (recorders l ++ [rec]) l)).

(** The handlers [startRecorder] installs on recorder [r], run by the
    queued stop task: [ondataavailable] with the buffered audio, then
    [onstop]. *)
Definition ondataavailable (data : Blob) (l : Listener) : Listener :=
  if 0 <? size data then setChunksRef (chunksRef l ++ [data]) l else l.

Definition onstop (rec : MediaRecorder) (l : Listener) : Listener :=
  let mime := if truthy (rmime rec) then rmime rec else lit "audio/webm" in
  let blob := newBlob (chunksRef l) mime in
  let l := setChunksRef [] l in
  let l := transcribeChunk blob l in
  match streamRef l with
  | Some s => if streamActive s l then startRecorder (rstream rec) l else l
  | None => l
  end.

Definition recorderTask (l : Listener) : Listener :=
  match stopTasks l with
  | [] => l
  | r :: rest =>
      let l := setStopTasks rest l in
      match nth_error (recorders l) r with
      | Some rec =>
          onstop rec (ondataavailable (mkBlob (buffered rec) (rmime rec)) l)
      | None => l
      end
  end.

(** [startListening] up to [await getUserMedia]. *)
Definition startListening (l : Listener) : Listener :=
  setMicRequests (S (micRequests l)) l.

(** [startListening] from the settled [getUserMedia] on. *)
Definition startListening_resume (granted : bool) (l : Listener) : Listener :=
  match micRequests l with
  | O => l
  | S n =>
      let l := setMicRequests n l in
      if granted then
        let stream := List.length (streams l) in
        let l := setStreams (streams l ++ [true]) l in
        let l := setStreamRef (Some stream) l in
        let l := startRecorder stream l in
        let l := setIsListening true l in
        setIntervalRef (Some (List.length (timers l)))
          (setTimers (timers l ++ [true]) l)
      else setIsListening false l
  end.

Definition stopListening (l : Listener) : Listener :=
  let l :=
    match intervalRef l with
    | Some t => setIntervalRef None (setTimers (setNth t false (timers l)) l)
    | None => l
    end in
  let l :=
    match refIsRecording l with
    | Some r => recorderStop r l
    | None => l
    end in
  let l :=
    match streamRef l with
    | Some s => setStreams (setNth s false (streams l)) l
    | None => l
    end in
  setIsListening false (setRecorderRef None (setStreamRef None l)).

Definition clearTranscript (l : Listener) : Listener := setEntries [] l.

(** The callback given to [setInterval], fired by timer [t]. *)
Definition tick (t : nat) (l : Listener) : Listener :=
  if nth t (timers l) false then harvestAndRestart l else l.

(** *** Everything that can happen to a listener *)

Inductive Event :=
| ClickListen
| MicSettled (granted : bool)
| ClickStop
| Tick (timer : nat)
| AudioData (bytes : N)
| RecorderTask
| SttSettled (res : Await (Response jsstring)) (tId tStamp : Z)
| ClearTranscript.

Definition step (e : Event) (l : Listener) : Listener * option TranscriptEntry :=
  match e with
  | ClickListen => (startListening l, None)
  | MicSettled g => (startListening_resume g l, None)
  | ClickStop => (stopListening l, None)
  | Tick t => (tick t l, None)
  | AudioData n => (audioData n l, None)
  | RecorderTask => (recorderTask l, None)
  | SttSettled res tId tStamp =>
      match sttInFlight l, res with
      | O, _ => (l, None)
      | _, Pending => (l, None)
      | S n, _ =>
          transcribeChunk_resume res tId tStamp
            (setStt (sttRequests l) n l)
      end
  | ClearTranscript => (clearTranscript l, None)
  end.

(** Run a sequence of events; the second component lists, in order,
    the entries handed to [onTranscript]. *)
Fixpoint run (evs : list Event) (l : Listener)
  : Listener * list TranscriptEntry :=
  match evs with
  | [] => (l, [])
  | e :: rest =>
      let '(l1, out) := step e l in
      let '(l2, outs) := run rest l1 in
      (l2, match out with Some x => x :: outs | None => outs end)
  end.

End UseAmbientListener.

(* ===================================================================== *)
(** ** AIChatPanel: the ambient listener's owner, the auto-reply gate
       and [queryAI] *)
(* ===================================================================== *)

Module AIChatPanel.

Import UseAmbientListener.

(** The relevance score is carried from the response to the message
    unchanged and never inspected by the pipeline. *)
Definition Score := Z.

Record SourceRef := mkSource {
  source : jsstring;
  similarity : option Score;
  title : option jsstring
}.

(** An element of the web-search response's [sources]. *)
Record WebSource := mkWebSource { wsource : jsstring; wtitle : option jsstring }.

Inductive Role := user | ai.
Inductive MsgType := rag | web_search | ambient.
Inductive QuerySource := typed | fromAmbient.

Record ChatMessage := mkMessage {
  mid : jsstring;
  role : Role;
  mtext : jsstring;
  msources : option (list SourceRef);
  mtimestamp : Z;
  mtype : option MsgType
}.

(** Requests the panel sends. *)
Inductive Request :=
| PostWebSearch (query slide_context : jsstring) (lang : Language)
    (custom_tone : option jsstring)
| PostRagQuery (session_id slide_id slide_title slide_context question : jsstring)
    (lang : Language) (custom_tone : option jsstring)
| PostSpeak (text : jsstring) (lang : Language) (cloned_voice_id : option jsstring).

Record Panel := mkPanel {
  (* props *)
  sessionId : jsstring;
  slideId : jsstring;
  slideTitle : jsstring;
  slideContext : jsstring;
  (* useState *)
  language : Language;
  messages : list ChatMessage;
  input : jsstring;
  isThinking : bool;
  useWebSearch : bool;
  autoReply : bool;
  customTone : option jsstring;
  clonedVoiceId : option jsstring;
  (* useRef *)
  isThinkingRef : bool;
  (* the ambient listener hook *)
  listener : Listener;
  (* browser: audio elements created by [new Audio], and requests sent *)
  audios : list AudioStatus;
  fetches : list Request
}.

Definition initial (sid slide ttl ctx : jsstring) (tone voice : option jsstring)
    (opus webm : bool) : Panel :=
  {| sessionId := sid; slideId := slide; slideTitle := ttl; slideContext := ctx;
     language := en;
     messages := []; input := []; isThinking := false; useWebSearch := false;
     autoReply := true; customTone := tone; clonedVoiceId := voice;
     isThinkingRef := false;
     listener := UseAmbientListener.initial en opus webm;
     audios := []; fetches := [] |}.

Definition setMessages m (p : Panel) : Panel :=
  mkPanel (sessionId p) (slideId p) (slideTitle p) (slideContext p)
    (language p) m (input p)
    (isThinking p) (useWebSearch p) (autoReply p) (customTone p)
    (clonedVoiceId p) (isThinkingRef p) (listener p) (audios p) (fetches p).
Definition setInput i (p : Panel) : Panel :=
  mkPanel (sessionId p) (slideId p) (slideTitle p) (slideContext p)
    (language p) (messages p) i
    (isThinking p) (useWebSearch p) (autoReply p) (customTone p)
    (clonedVoiceId p) (isThinkingRef p) (listener p) (audios p) (fetches p).
(** [setIsThinking(b)] writes the state only. *)
Definition setIsThinking b (p : Panel) : Panel :=
  mkPanel (sessionId p) (slideId p) (slideTitle p) (slideContext p)
    (language p) (messages p)
    (input p) b (useWebSearch p) (autoReply p) (customTone p)
    (clonedVoiceId p) (isThinkingRef p) (listener p) (audios p) (fetches p).
Definition setIsThinkingRef b (p : Panel) : Panel :=
  mkPanel (sessionId p) (slideId p) (slideTitle p) (slideContext p)
    (language p) (messages p)
    (input p) (isThinking p) (useWebSearch p) (autoReply p) (customTone p)
    (clonedVoiceId p) b (listener p) (audios p) (fetches p).
(** A render commits and the effect of lines 45-47 runs:
    [isThinkingRef.current = isThinking].  Until then the ref holds the
    value of the render before. *)
Definition commit (p : Panel) : Panel := setIsThinkingRef (isThinking p) p.
Definition setUseWebSearch b (p : Panel) : Panel :=
  mkPanel (sessionId p) (slideId p) (slideTitle p) (slideContext p)
    (language p) (messages p)
    (input p) (isThinking p) b (autoReply p) (customTone p)
    (clonedVoiceId p) (isThinkingRef p) (listener p) (audios p) (fetches p).
Definition setListener l (p : Panel) : Panel :=
  mkPanel (sessionId p) (slideId p) (slideTitle p) (slideContext p)
    (language p) (messages p)
    (input p) (isThinking p) (useWebSearch p) (autoReply p) (customTone p)
    (clonedVoiceId p) (isThinkingRef p) l (audios p) (fetches p).
Definition setAudios a (p : Panel) : Panel :=
  mkPanel (sessionId p) (slideId p) (slideTitle p) (slideContext p)
    (language p) (messages p)
    (input p) (isThinking p) (useWebSearch p) (autoReply p) (customTone p)
    (clonedVoiceId p) (isThinkingRef p) (listener p) a (fetches p).
Definition setFetches f (p : Panel) : Panel :=
  mkPanel (sessionId p) (slideId p) (slideTitle p) (slideContext p)
    (language p) (messages p)
    (input p) (isThinking p) (useWebSearch p) (autoReply p) (customTone p)
    (clonedVoiceId p) (isThinkingRef p) (listener p) (audios p) f.

Definition addMessage (m : ChatMessage) (p : Panel) : Panel :=
  setMessages (messages p ++ [m]) p.
Definition fetch (r : Request) (p : Panel) : Panel :=
  setFetches (fetches p ++ [r]) p.

(** The values one instance of [queryAI] closes over: the dependencies
    of its [useCallback] and, through [getDiscussionContext], the
    transcript log of that render.  State written through updater
    functions ([setMessages], [setIsThinking]) and refs is always
    current and is not part of the closure. *)
Record Closure := mkClosure {
  c_sessionId : jsstring;
  c_slideId : jsstring;
  c_slideTitle : jsstring;
  c_slideContext : jsstring;
  c_language : Language;
  c_useWebSearch : bool;
  c_entries : list TranscriptEntry;
  c_clonedVoiceId : option jsstring;
  c_customTone : option jsstring
}.

(** The closure of the current render, the one the input box's
    [handleSend] uses. *)
Definition currentClosure (p : Panel) : Closure :=
  mkClosure (sessionId p) (slideId p) (slideTitle p) (slideContext p)
    (language p) (useWebSearch p) (entries (listener p))
    (clonedVoiceId p) (customTone p).

(** [getDiscussionContext]. *)
Definition getDiscussionContext (c : Closure) : jsstring :=
  let recent := sliceLast 10 (c_entries c) in
  match recent with
  | [] => []
  | _ => lit "Recent discussion transcript:" ++ [10]
           ++ join (lit " ") (map text recent)
  end.

(** What the awaited promises of one [queryAI] call settle to, and the
    [Date.now()] readings taken for the question and for the reply. *)
Record QueryEnv := mkQueryEnv {
  tUser : Z * Z;
  searchRes : Await (Response (jsstring * option (list WebSource)));
  ragRes : Await (Response (jsstring * list SourceRef));
  tReply : Z * Z;
  ttsRes : Await (Response Blob);
  playRes : Await unit
}.

Open Scope eff_scope.

(** [s.source || s.title || "Web"]. *)
Definition webSourceName (s : WebSource) : jsstring :=
  if truthy (wsource s) then wsource s
  else match wtitle s with
       | Some t => if truthy t then t else lit "Web"
       | None => lit "Web"
       end.

Definition askWeb (c : Closure) (question : jsstring) (env : QueryEnv)
  : Eff Panel (jsstring * option (list SourceRef) * MsgType) :=
  modify (fetch (PostWebSearch question (c_slideContext c) (c_language c)
                   (c_customTone c))) ;;
  res <- await (searchRes env) ;;
  if negb (ok res) then throw (lit "Web search failed")
  else
    let '(answer, srcs) := body res in
    ret (answer,
         option_map (map (fun s => mkSource (webSourceName s) None (wtitle s))) srcs,
         web_search).

Definition askRag (c : Closure) (question : jsstring) (env : QueryEnv)
  : Eff Panel (jsstring * option (list SourceRef) * MsgType) :=
  let discussionCtx := getDiscussionContext c in
  let enrichedContext :=
    if truthy discussionCtx
    then c_slideContext c ++ [10; 10] ++ lit "--- Ongoing Discussion ---"
           ++ [10] ++ discussionCtx
    else c_slideContext c in
  modify (fetch (PostRagQuery (c_sessionId c) (c_slideId c) (c_slideTitle c)
                   enrichedContext question (c_language c) (c_customTone c))) ;;
  res <- await (ragRes env) ;;
  if negb (ok res) then throw (lit "RAG query failed")
  else
    let '(answer, srcs) := body res in
    ret (answer, Some srcs, rag).

(** The inner [try] of [queryAI]: synthesize and play the answer.  The
    new element starts out paused; nothing is done to the elements
    created before. *)
Definition speakAnswer (c : Closure) (answer : jsstring) (env : QueryEnv)
  : Eff Panel unit :=
  tryCatch
    (modify (fetch (PostSpeak answer (c_language c) (c_clonedVoiceId c))) ;;
     res <- await (ttsRes env) ;;
     if ok res then
       if 0 <? size (body res) then
         (* new Audio(audioUrl); await audio.play() *)
         n <- gets (fun p => List.length (audios p)) ;;
         modify (fun p => setAudios (audios p ++ [pausedAudio]) p) ;;
         tryCatch (await (playRes env))
           (fun e => modify (fun p => setAudios (setNth n failedAudio (audios p)) p) ;;
                     throw e) ;;
         modify (fun p => setAudios (setNth n playing (audios p)) p)
       else ret tt
     else ret tt)
    (fun _ => ret tt).

Definition queryAI (c : Closure) (question : jsstring) (src : QuerySource)
    (env : QueryEnv) : Eff Panel unit :=
  if negb (truthy (trim question)) then ret tt
  else
    let userMsg :=
      {| mid := lit "u-" ++ Number_toString (fst (tUser env));
         role := user; mtext := question; msources := None;
         mtimestamp := snd (tUser env);
         mtype := match src with fromAmbient => Some ambient | typed => None end |} in
    modify (addMessage userMsg) ;;
    modify (setIsThinking true) ;;
    tryCatch
      (r <- (if c_useWebSearch c then askWeb c question env
             else askRag c question env) ;;
       let '(answer, srcs, msgType) := r in
       let aiMsg :=
         {| mid := lit "a-" ++ Number_toString (fst (tReply env));
            role := ai; mtext := answer; msources := srcs;
            mtimestamp := snd (tReply env); mtype := Some msgType |} in
       modify (addMessage aiMsg) ;;
       speakAnswer c answer env)
      (fun _ =>
         let errMsg :=
           {| mid := lit "e-" ++ Number_toString (fst (tReply env));
              role := ai;
              mtext := lit "Sorry, something went wrong. Please try again.";
              msources := None; mtimestamp := snd (tReply env);
              mtype := None |} in
         modify (addMessage errMsg)) ;;
    modify (setIsThinking false).

Definition handleAutoReply (c : Closure) (text : jsstring) (env : QueryEnv)
  : Eff Panel unit :=
  queryAI c text fromAmbient env.

(** The auto-reply gate, the [onTranscript] callback of the listener.
    An instance of the callback closes over [autoReply] and over the
    [queryAI] of its render; [isThinkingRef] is read through the ref. *)
Definition onTranscriptEntry (autoReply : bool) (c : Closure)
    (entry : TranscriptEntry) (env : QueryEnv) : Eff Panel unit :=
  thinking <- gets isThinkingRef ;;
  if negb autoReply || thinking then ret tt
  else handleAutoReply c (text entry) env.

(** [handleSend] is rebuilt on every render and sees the current values.
    [queryAI] is called and not awaited: whatever becomes of it, the
    input is emptied and [handleSend] returns. *)
Definition handleSend (env : QueryEnv) : Eff Panel unit :=
  p <- gets (fun p => p) ;;
  if negb (truthy (trim (input p))) || isThinking p then ret tt
  else
    modify (exec (queryAI (currentClosure p) (input p) typed env)) ;;
    modify (setInput []).

Close Scope eff_scope.

(** An audio element reaches its end ([onended] only releases the
    object URL). *)
Definition audioEnded (i : nat) (p : Panel) : Panel :=
  match nth_error (audios p) i with
  | Some playing => setAudios (setNth i endedAudio (audios p)) p
  | _ => p
  end.

(** An event of the panel's ambient listener: the listener takes its
    step and an entry it publishes goes through the gate.  [autoReply]
    and [c] are the values closed over by the callback instance the
    listener calls. *)
Definition listenerEvent (autoReply : bool) (c : Closure) (e : Event)
    (env : QueryEnv) (p : Panel) : Panel :=
  let '(l, out) := step e (listener p) in
  let p := setListener l p in
  match out with
  | Some entry => exec (onTranscriptEntry autoReply c entry env) p
  | None => p
  end.

(** The callback the panel's listener calls.  [transcribeChunk] is
    memoized on [opts.language] alone, so as long as the language is not
    switched it is the instance of the first render and calls the
    [onTranscript] of the first render's [opts]: the gate instance in
    which [autoReply] is [true], its initial value, and whose [queryAI]
    closes over the first render's values: the props, English, RAG mode,
    an empty transcript log, and no tone and no cloned voice (both are
    read from localStorage by an effect after the first render). *)
Definition firstRenderClosure (p : Panel) : Closure :=
  mkClosure (sessionId p) (slideId p) (slideTitle p) (slideContext p)
    en false [] None None.

(** An event of the listener of a panel whose language was not
    switched. *)
Definition ambientEvent (e : Event) (env : QueryEnv) (p : Panel) : Panel :=
  listenerEvent true (firstRenderClosure p) e env p.

(** The Listen / Stop button. *)
Definition clickListenButton (p : Panel) : Panel :=
  setListener
    (fst (step (if isListening (listener p) then ClickStop else ClickListen)
            (listener p))) p.

(** The phase of the spec's orchestrator the panel is in: a query is
    in flight, or else an answer is being played, or else nothing. *)
Inductive Phase := Idle | Thinking | Speaking.

Definition phase (p : Panel) : Phase :=
  if isThinking p then Thinking
  else if existsb isPlaying (audios p) then Speaking
  else Idle.

(** Number of audio elements currently playing. *)
Definition playingCount (p : Panel) : nat :=
  List.length (filter isPlaying (audios p)).

End AIChatPanel.

(* ===================================================================== *)
(** ** useVoiceRAG.ts: the manual question / answer cycle *)
(* ===================================================================== *)

Module UseVoiceRAG.

Inductive VoiceState := idle | listening | thinking | speaking | error.

Definition VoiceState_eqb (a b : VoiceState) : bool :=
  match a, b with
  | idle, idle | listening, listening | thinking, thinking
  | speaking, speaking | error, error => true
  | _, _ => false
  end.

Record SourceRef := mkSource { source : jsstring; similarity : Z }.

Record Options := mkOptions {
  sessionId : jsstring;
  slideId : jsstring;
  slideTitle : jsstring;
  slideContext : jsstring;
  language : Language
}.

Inductive Request :=
| GetUserMedia
| PostTranscribe (audio : Blob) (lang : Language)
| PostRagQuery (session_id slide_id slide_title slide_context question : jsstring)
    (lang : Language)
| PostSpeak (text : jsstring) (lang : Language) (cloned_voice_id : option jsstring).

(** Calls of the optional callbacks [opts.onTranscript], [opts.onAnswer]. *)
Inductive Callback := OnTranscript (text : jsstring) | OnAnswer (text : jsstring).

Record Hook := mkHook {
  opts : Options;
  (* useState *)
  state : VoiceState;
  transcript : jsstring;
  answer : jsstring;
  sources : list SourceRef;
  errorMsg : jsstring;            (* the [error] state variable *)
  (* useRef *)
  mediaRecorderRef : option MediaRecorder;
  audioChunksRef : list Blob;
  audioRef : option nat;
  (* browser *)
  supportsWebm : bool;            (* can a recorder for "audio/webm" be built *)
  cd_voice_id : option jsstring;  (* localStorage item *)
  streams : list bool;            (* true while the stream's tracks are live *)
  stopTasks : list MediaRecorder; (* queued recorder stop tasks *)
  audios : list AudioStatus;
  requests : list Request;
  callbacks : list Callback
}.

Definition initial (o : Options) (webm : bool) (voice : option jsstring) : Hook :=
  {| opts := o; state := idle; transcript := []; answer := []; sources := [];
     errorMsg := []; mediaRecorderRef := None; audioChunksRef := [];
     audioRef := None; supportsWebm := webm; cd_voice_id := voice;
     streams := []; stopTasks := []; audios := []; requests := [];
     callbacks := [] |}.

Definition setState v (h : Hook) : Hook :=
  mkHook (opts h) v (transcript h) (answer h) (sources h) (errorMsg h)
    (mediaRecorderRef h) (audioChunksRef h) (audioRef h) (supportsWebm h)
    (cd_voice_id h) (streams h) (stopTasks h) (audios h) (requests h) (callbacks h).
Definition setTranscript t (h : Hook) : Hook :=
  mkHook (opts h) (state h) t (answer h) (sources h) (errorMsg h)
    (mediaRecorderRef h) (audioChunksRef h) (audioRef h) (supportsWebm h)
    (cd_voice_id h) (streams h) (stopTasks h) (audios h) (requests h) (callbacks h).
Definition setAnswer a (h : Hook) : Hook :=
  mkHook (opts h) (state h) (transcript h) a (sources h) (errorMsg h)
    (mediaRecorderRef h) (audioChunksRef h) (audioRef h) (supportsWebm h)
    (cd_voice_id h) (streams h) (stopTasks h) (audios h) (requests h) (callbacks h).
Definition setSources s (h : Hook) : Hook :=
  mkHook (opts h) (state h) (transcript h) (answer h) s (errorMsg h)
    (mediaRecorderRef h) (audioChunksRef h) (audioRef h) (supportsWebm h)
    (cd_voice_id h) (streams h) (stopTasks h) (audios h) (requests h) (callbacks h).
Definition setError e (h : Hook) : Hook :=
  mkHook (opts h) (state h) (transcript h) (answer h) (sources h) e
    (mediaRecorderRef h) (audioChunksRef h) (audioRef h) (supportsWebm h)
    (cd_voice_id h) (streams h) (stopTasks h) (audios h) (requests h) (callbacks h).
Definition setMediaRecorderRef r (h : Hook) : Hook :=
  mkHook (opts h) (state h) (transcript h) (answer h) (sources h) (errorMsg h)
    r (audioChunksRef h) (audioRef h) (supportsWebm h)
    (cd_voice_id h) (streams h) (stopTasks h) (audios h) (requests h) (callbacks h).
Definition setAudioChunksRef c (h : Hook) : Hook :=
  mkHook (opts h) (state h) (transcript h) (answer h) (sources h) (errorMsg h)
    (mediaRecorderRef h) c (audioRef h) (supportsWebm h)
    (cd_voice_id h) (streams h) (stopTasks h) (audios h) (requests h) (callbacks h).
Definition setAudioRef a (h : Hook) : Hook :=
  mkHook (opts h) (state h) (transcript h) (answer h) (sources h) (errorMsg h)
    (mediaRecorderRef h) (audioChunksRef h) a (supportsWebm h)
    (cd_voice_id h) (streams h) (stopTasks h) (audios h) (requests h) (callbacks h).
Definition setStreams s (h : Hook) : Hook :=
  mkHook (opts h) (state h) (transcript h) (answer h) (sources h) (errorMsg h)
    (mediaRecorderRef h) (audioChunksRef h) (audioRef h) (supportsWebm h)
    (cd_voice_id h) s (stopTasks h) (audios h) (requests h) (callbacks h).
Definition setStopTasks t (h : Hook) : Hook :=
  mkHook (opts h) (state h) (transcript h) (answer h) (sources h) (errorMsg h)
    (mediaRecorderRef h) (audioChunksRef h) (audioRef h) (supportsWebm h)
    (cd_voice_id h) (streams h) t (audios h) (requests h) (callbacks h).
Definition setAudios a (h : Hook) : Hook :=
  mkHook (opts h) (state h) (transcript h) (answer h) (sources h) (errorMsg h)
    (mediaRecorderRef h) (audioChunksRef h) (audioRef h) (supportsWebm h)
    (cd_voice_id h) (streams h) (stopTasks h) a (requests h) (callbacks h).
Definition setRequests r (h : Hook) : Hook :=
  mkHook (opts h) (state h) (transcript h) (answer h) (sources h) (errorMsg h)
    (mediaRecorderRef h) (audioChunksRef h) (audioRef h) (supportsWebm h)
    (cd_voice_id h) (streams h) (stopTasks h) (audios h) r (callbacks h).
Definition setCallbacks c (h : Hook) : Hook :=
  mkHook (opts h) (state h) (transcript h) (answer h) (sources h) (errorMsg h)
    (mediaRecorderRef h) (audioChunksRef h) (audioRef h) (supportsWebm h)
    (cd_voice_id h) (streams h) (stopTasks h) (audios h) (requests h) c.

Definition request (r : Request) (h : Hook) : Hook :=
  setRequests (requests h ++ [r]) h.
Definition notify (c : Callback) (h : Hook) : Hook :=
  setCallbacks (callbacks h ++ [c]) h.

(** What the awaited promises of one cycle settle to. *)
Record CycleEnv := mkCycleEnv {
  sttRes : Await (Response jsstring);
  ragRes : Await (Response (jsstring * list SourceRef));
  ttsRes : Await (Response Blob);
  playRes : Await unit
}.

Open Scope eff_scope.

(** [new Audio(url); audioRef.current = audio]: the new element starts
    out paused; nothing is done to the element the ref held before. *)
Definition newAudio : Eff Hook nat :=
  n <- gets (fun h => List.length (audios h)) ;;
  modify (fun h => setAudios (audios h ++ [pausedAudio]) h) ;;
  modify (setAudioRef (Some n)) ;;
  ret n.

Definition setAudioStatus (n : nat) (a : AudioStatus) : Eff Hook unit :=
  modify (fun h => setAudios (setNth n a (audios h)) h).

(** Steps 1 to 3 of [processAudio]. *)
Definition processAudio (blob : Blob) (env : CycleEnv) : Eff Hook unit :=
  modify (setState thinking) ;;
  tryCatch
    (o <- gets opts ;;
     (* 1. STT *)
     modify (request (PostTranscribe blob (language o))) ;;
     stt <- await (sttRes env) ;;
     if negb (ok stt) then throw (lit "Transcription failed")
     else
       let text := body stt in
       modify (setTranscript text) ;;
       modify (notify (OnTranscript text)) ;;
       if negb (truthy (trim text)) then modify (setState idle)
       else
         (* 2. RAG query *)
         modify (request (PostRagQuery (sessionId o) (slideId o) (slideTitle o)
                            (slideContext o) text (language o))) ;;
         rag <- await (ragRes env) ;;
         if negb (ok rag) then throw (lit "RAG query failed")
         else
           let '(answerText, srcs) := body rag in
           modify (setAnswer answerText) ;;
           modify (setSources srcs) ;;
           modify (notify (OnAnswer answerText)) ;;
           (* 3. TTS *)
           modify (setState speaking) ;;
           voice <- gets cd_voice_id ;;
           modify (request (PostSpeak answerText (language o) voice)) ;;
           tts <- await (ttsRes env) ;;
           if negb (ok tts) then throw (lit "TTS failed")
           else
             n <- newAudio ;;
             (* the promise resolved by onended, rejected by onerror
                or by a rejected play() *)
             setAudioStatus n playing ;;
             tryCatch (await (playRes env))
               (fun e => setAudioStatus n failedAudio ;; throw e) ;;
             setAudioStatus n endedAudio ;;
             modify (setState idle))
    (fun e => modify (setError e) ;; modify (setState error)).

(** [startListening]; [mic] is what [getUserMedia] settles to. *)
Definition startListening (mic : Await unit) : Eff Hook unit :=
  modify (setError []) ;;
  modify (setAnswer []) ;;
  modify (setTranscript []) ;;
  tryCatch
    (modify (request GetUserMedia) ;;
     await mic ;;
     stream <- gets (fun h => List.length (streams h)) ;;
     modify (fun h => setStreams (streams h ++ [true]) h) ;;
     webm <- gets supportsWebm ;;
     (* new MediaRecorder(stream, { mimeType: "audio/webm" }) *)
     (if webm then ret tt else throw (lit "NotSupportedError")) ;;
     modify (setMediaRecorderRef
               (Some (mkRecorder stream (lit "audio/webm") inactive 0))) ;;
     modify (setAudioChunksRef []) ;;
     (* recorder.start() *)
     modify (setMediaRecorderRef
               (Some (mkRecorder stream (lit "audio/webm") recording 0))) ;;
     modify (setState listening))
    (fun _ =>
       modify (setError (lit "Microphone access denied")) ;;
       modify (setState error)).

(** The microphone delivers [n] more bytes to the recorder. *)
Definition audioData (n : N) (h : Hook) : Hook :=
  match mediaRecorderRef h with
  | Some rec =>
      if isRecording (rstate rec) then
        setMediaRecorderRef
          (Some (mkRecorder (rstream rec) (rmime rec) recording (buffered rec + n))) h
      else h
  | None => h
  end.

Definition stopListening : Eff Hook unit :=
  r <- gets mediaRecorderRef ;;
  match r with
  | Some rec =>
      if isRecording (rstate rec) then
        (* recorder.stop() *)
        let stopped := mkRecorder (rstream rec) (rmime rec) inactive (buffered rec) in
        modify (setMediaRecorderRef (Some stopped)) ;;
        modify (fun h => setStopTasks (stopTasks h ++ [stopped]) h) ;;
        modify (setState thinking)
      else ret tt
  | None => ret tt
  end.

(** The queued stop task of a recorder: [ondataavailable], [onstop]. *)
Definition recorderTask (env : CycleEnv) : Eff Hook unit :=
  ts <- gets stopTasks ;;
  match ts with
  | [] => ret tt
  | rec :: rest =>
      modify (setStopTasks rest) ;;
      when_ (0 <? buffered rec)
        (modify (fun h => setAudioChunksRef
                            (audioChunksRef h ++ [mkBlob (buffered rec) (rmime rec)]) h)) ;;
      modify (fun h => setStreams (setNth (rstream rec) false (streams h)) h) ;;
      chunks <- gets audioChunksRef ;;
      processAudio (newBlob chunks (lit "audio/webm")) env
  end.

(** [askText]: neither response is checked for [ok]. *)
Definition askText (question : jsstring) (env : CycleEnv) : Eff Hook unit :=
  if negb (truthy (trim question)) then ret tt
  else
    modify (setState thinking) ;;
    modify (setAnswer []) ;;
    modify (setSources []) ;;
    modify (setTranscript question) ;;
    tryCatch
      (o <- gets opts ;;
       modify (request (PostRagQuery (sessionId o) (slideId o) (slideTitle o)
                          (slideContext o) question (language o))) ;;
       rag <- await (ragRes env) ;;
       let '(answerText, srcs) := body rag in
       modify (setAnswer answerText) ;;
       modify (setSources srcs) ;;
       modify (notify (OnAnswer answerText)) ;;
       modify (setState speaking) ;;
       voice <- gets cd_voice_id ;;
       modify (request (PostSpeak answerText (language o) voice)) ;;
       tts <- await (ttsRes env) ;;
       n <- newAudio ;;
       tryCatch (await (playRes env))
         (fun e => setAudioStatus n failedAudio ;; throw e) ;;
       setAudioStatus n playing)
      (fun e => modify (setError e) ;; modify (setState error)).

(** [audio.onended] as installed by [askText]. *)
Definition askText_onended (n : nat) : Eff Hook unit :=
  setAudioStatus n endedAudio ;; modify (setState idle).

(** [audioRef.current?.pause(); setState("idle")]. *)
Definition stopSpeaking : Eff Hook unit :=
  a <- gets audioRef ;;
  match a with
  | Some n =>
      st <- gets (fun h => nth_error (audios h) n) ;;
      match st with
      | Some playing => setAudioStatus n pausedAudio
      | _ => ret tt
      end
  | None => ret tt
  end ;;
  modify (setState idle).

Definition reset : Eff Hook unit :=
  modify (setState idle) ;;
  modify (setTranscript []) ;;
  modify (setAnswer []) ;;
  modify (setSources []) ;;
  modify (setError []).

Close Scope eff_scope.

Definition playingCount (h : Hook) : nat :=
  List.length (filter isPlaying (audios h)).

End UseVoiceRAG.

(* ===================================================================== *)
(** ** VoicePanel: the widget around useVoiceRAG *)
(* ===================================================================== *)

Module VoicePanel.

Import UseVoiceRAG.

(** The widget's own state next to the hook.  Its language choice is
    the [language] of the hook's options; the list of earlier questions
    it keeps for display takes no part in the cycle. *)
Record Panel := mkPanel { textInput : jsstring; hook : Hook }.

(** Run a hook operation inside the panel. *)
Definition onHook (m : Eff Hook unit) (p : Panel) : Panel :=
  mkPanel (textInput p) (exec m (hook p)).

Definition setTextInput (t : jsstring) (p : Panel) : Panel :=
  mkPanel t (hook p).

Definition handleMicClick (mic : Await unit) (p : Panel) : Panel :=
  match state (hook p) with
  | idle | error => onHook (startListening mic) p
  | listening => onHook stopListening p
  | speaking => onHook stopSpeaking p
  | thinking => p
  end.

Definition handleTextAsk (env : CycleEnv) (p : Panel) : Panel :=
  if negb (truthy (trim (textInput p)))
     || negb (VoiceState_eqb (state (hook p)) idle)
  then p
  else setTextInput [] (onHook (askText (textInput p) env) p).

End VoicePanel.

(* ===================================================================== *)
(** ** VoicePanel: the list of earlier exchanges *)
(* ===================================================================== *)

Module VoiceHistory.

(** An earlier exchange kept for display. *)
Record Exchange := mkExchange { q : jsstring; a : jsstring }.

(** The [onAnswer] callback the widget passes to the hook.
    [transcript] is the transcript of the render the callback was
    created in. *)
Definition onAnswer (transcript : jsstring) (a : jsstring)
    (history : list Exchange) : list Exchange :=
  if truthy transcript
  then firstn 5 (mkExchange transcript a :: history)
  else history.

(** The calls of [onAnswer] over time, each with the transcript its
    instance closed over and the answer it was given. *)
Definition record (calls : list (jsstring * jsstring))
    (history : list Exchange) : list Exchange :=
  fold_left (fun h c => onAnswer (fst c) (snd c) h) calls history.

End VoiceHistory.

(* ===================================================================== *)
(** ** present/page.tsx: slide navigation *)
(* ===================================================================== *)

Module Present.

Inductive Key := ArrowRight | ArrowDown | ArrowLeft | ArrowUp | KeyV | OtherKey.

(** The state of the presentation page that navigation touches;
    [slideCount] is [slides.length]. *)
Record Deck := mkDeck { slideCount : nat; activeIdx : Z; showPanel : bool }.

Definition setActiveIdx (f : Z -> Z) (d : Deck) : Deck :=
  mkDeck (slideCount d) (f (activeIdx d)) (showPanel d).

Definition setShowPanel (f : bool -> bool) (d : Deck) : Deck :=
  mkDeck (slideCount d) (activeIdx d) (f (showPanel d)).

(** The [keydown] listener. *)
Definition handleKey (k : Key) (d : Deck) : Deck :=
  let len := Z.of_nat (slideCount d) in
  let d1 :=
    match k with
    | ArrowRight | ArrowDown =>
        setActiveIdx (fun p => Z.min (p + 1) (len - 1)) d
    | _ => d
    end in
  let d2 :=
    match k with
    | ArrowLeft | ArrowUp => setActiveIdx (fun p => Z.max (p - 1) 0) d1
    | _ => d1
    end in
  match k with
  | KeyV => setShowPanel negb d2
  | _ => d2
  end.

(** The buttons of the page; a disabled button does not fire, and
    there is one dot per slide. *)
Inductive Button := Prev | Next | Dot (i : nat) | TogglePanel.

Definition click (b : Button) (d : Deck) : Deck :=
  let len := Z.of_nat (slideCount d) in
  match b with
  | Prev =>
      if (activeIdx d =? 0)%Z then d
      else setActiveIdx (fun p => Z.max 0 (p - 1)) d
  | Next =>
      if (activeIdx d =? len - 1)%Z then d
      else setActiveIdx (fun p => Z.min (len - 1) (p + 1)) d
  | Dot i =>
      if (i <? slideCount d)%nat then setActiveIdx (fun _ => Z.of_nat i) d
      else d
  | TogglePanel => setShowPanel negb d
  end.

Inductive Input := Press (k : Key) | Click (b : Button).

Definition input (i : Input) (d : Deck) : Deck :=
  match i with
  | Press k => handleKey k d
  | Click b => click b d
  end.

(** [slides[activeIdx]]: the index of the slide shown, if there is one. *)
Definition activeSlide (d : Deck) : option nat :=
  if ((0 <=? activeIdx d) && (activeIdx d <? Z.of_nat (slideCount d)))%Z
  then Some (Z.to_nat (activeIdx d))
  else None.

End Present.

(* ===================================================================== *)
(** ** Studio page: the recorded voice sample *)
(* ===================================================================== *)

Module Studio.

(** [result.set(chunk, offset)] on a typed array: the chunk overwrites
    the elements from [offset] on; a chunk that does not fit is a
    [RangeError]. *)
Definition typedSet {A} (chunk : list A) (offset : nat) (result : list A)
  : option (list A) :=
  if (offset + List.length chunk <=? List.length result)%nat
  then Some (firstn offset result ++ chunk
               ++ skipn (offset + List.length chunk) result)
  else None.

(** The loop of [flattenArray]. *)
Fixpoint copyChunks {A} (channel : list (list A)) (offset : nat)
    (result : list A) : option (list A) :=
  match channel with
  | [] => Some result
  | chunk :: rest =>
      match typedSet chunk offset result with
      | Some result' => copyChunks rest (offset + List.length chunk) result'
      | None => None
      end
  end.

(** [flattenArray]; [zero] is what a new typed array is filled with. *)
Definition flattenArray {A} (zero : A) (channel : list (list A))
  : option (list A) :=
  copyChunks channel 0
    (repeat zero
       (fold_left (fun acc val => acc + List.length val)%nat channel 0%nat)).

(** The bytes of an [ArrayBuffer]. *)
Definition Buffer := list Z.

(** A [DataView] write of [bytes] at [offset]; a write that does not
    fit is a [RangeError]. *)
Definition setBytes (offset : nat) (bytes : list Z) : Eff Buffer unit :=
  fun buffer =>
    if (offset + List.length bytes <=? List.length buffer)%nat
    then (Done tt,
          firstn offset buffer ++ bytes
            ++ skipn (offset + List.length bytes) buffer)
    else (Threw (lit "RangeError"), buffer).

(** The low [width] bytes of an integer, least significant first. *)
Definition littleEndian (width : nat) (v : Z) : list Z :=
  map (fun i => Z.land (Z.shiftr v (8 * Z.of_nat i)) 255) (seq 0 width).

Definition setUint8 (offset : nat) (v : Z) : Eff Buffer unit :=
  setBytes offset (littleEndian 1 v).

(** [setUint16(offset, v, true)], [setUint32(offset, v, true)] and
    [setInt16(offset, v, true)]. *)
Definition setUint16 (offset : nat) (v : Z) : Eff Buffer unit :=
  setBytes offset (littleEndian 2 v).
Definition setUint32 (offset : nat) (v : Z) : Eff Buffer unit :=
  setBytes offset (littleEndian 4 v).
Definition setInt16 (offset : nat) (v : Z) : Eff Buffer unit :=
  setBytes offset (littleEndian 2 v).

(** The integer a [DataView] setter makes of a finite Number: the
    fraction is dropped. *)
Definition toInteger (x : QArith_base.Q) : Z :=
  Z.quot (QArith_base.Qnum x) (Zpos (QArith_base.Qden x)).

Open Scope eff_scope.

Fixpoint writeString (offset : nat) (s : jsstring) : Eff Buffer unit :=
  match s with
  | [] => ret tt
  | c :: r => setUint8 offset (Z.of_N c) ;; writeString (S offset) r
  end.

(** The sample loop of [createWavBlob]. *)
Fixpoint writeSamples (index : nat) (samples : list QArith_base.Q)
  : Eff Buffer unit :=
  match samples with
  | [] => ret tt
  | s :: r =>
      setInt16 index
        (toInteger (QArith_base.Qmult s (QArith_base.Qmake 32767 1))) ;;
      writeSamples (index + 2) r
  end.

(** [createWavBlob]: the bytes and the type of the blob it returns.
    The samples are finite (a product of a 32-bit float and 32767 is
    exact) and the sample rate is integral. *)
Definition createWavBlob (samples : list QArith_base.Q) (sampleRate : Z)
  : Outcome (Buffer * jsstring) * Buffer :=
  let n := Z.of_nat (List.length samples) in
  (writeString 0 (lit "RIFF") ;;
   setUint32 4 (32 + n * 2) ;;
   writeString 8 (lit "WAVE") ;;
   writeString 12 (lit "fmt ") ;;
   setUint32 16 16 ;;
   setUint16 20 1 ;;
   setUint16 22 1 ;;
   setUint32 24 sampleRate ;;
   setUint32 28 (sampleRate * 2) ;;
   setUint16 32 2 ;;
   setUint16 34 16 ;;
   writeString 36 (lit "data") ;;
   setUint32 40 (n * 2) ;;
   writeSamples 44 samples ;;
   buffer <- gets (fun b => b) ;;
   ret (buffer, lit "audio/wav"))
    (repeat 0%Z (44 + List.length samples * 2)).

Close Scope eff_scope.

End Studio.

(* ===================================================================== *)
(** ** Vocabulary of the statements *)
(* ===================================================================== *)

Module Ambient.

Import UseAmbientListener.

(** The byte threshold of [transcribeChunk]. *)
Definition bigEnough (b : Blob) : Prop := 1000 <= size b.

(** What a step does to the id counter and to the log. *)
Definition emits (l l' : Listener) (out : option TranscriptEntry) : Prop :=
  match out with
  | None =>
      idCounter l' = idCounter l /\ (entries l' = entries l \/ entries l' = [])
  | Some x =>
      idCounter l' = idCounter l + 1
      /\ lastSegment (id x) = Number_toString (Z.of_N (idCounter l))
      /\ entries l' = entries l ++ [x]
  end.

(** A continuous-capture session in progress: timer [t] was installed,
    recorder [r] is recording stream [s] and has buffered [b] bytes,
    and no harvested segment is waiting to be finalized. *)
Definition capturing (l : Listener) (t r s : nat) (mime : jsstring) (b : N)
  : Prop :=
  intervalRef l = Some t
  /\ recorderRef l = Some r
  /\ nth_error (recorders l) r = Some (mkRecorder s mime recording b)
  /\ streamRef l = Some s
  /\ chunksRef l = []
  /\ stopTasks l = [].

(** The segment [onstop] builds for a recorder with MIME type [mime]
    that buffered [b] bytes. *)
Definition segment (mime : jsstring) (b : N) : Blob :=
  mkBlob b (if truthy mime then mime else lit "audio/webm").

(** A session that captured 5000 bytes since the last harvest. *)
Definition session5000 : Listener :=
  fst (run [ClickListen; MicSettled true; AudioData 5000]
         (initial en true true)).

End Ambient.

Module Manual.

Import UseVoiceRAG VoicePanel.

Definition opts0 : Options :=
  mkOptions (lit "session-1") (lit "slide-3") (lit "Architecture")
    (lit "The system has three services.") en.

Definition hook0 : Hook := initial opts0 true None.

Definition answer0 : jsstring := lit "It has three services.".

(** Transcription, retrieval and synthesis succeed; [play] tells how
    the playback promise settles. *)
Definition cycle (text : jsstring) (play : Await unit) : CycleEnv :=
  mkCycleEnv (Resolved (mkResponse true text))
    (Resolved (mkResponse true (answer0, [mkSource (lit "docs/arch.pdf") 91])))
    (Resolved (mkResponse true (mkBlob 20480 (lit "audio/mpeg"))))
    play.

Definition question0 : jsstring := lit "What is the architecture?".

(** A recorded segment of 40000 bytes and one of 10 bytes. *)
Definition recording0 : Blob := mkBlob 40000 (lit "audio/webm").
Definition tinyRecording : Blob := mkBlob 10 (lit "audio/webm").

(** The widget while the answer to a typed question is being played. *)
Definition panelSpeaking : Panel :=
  handleTextAsk (cycle [] (Resolved tt)) (mkPanel question0 hook0).

(** A second question. *)
Definition question1 : jsstring := lit "How many services are there?".

(** Transcription and retrieval succeed; the speech request is not
    answered yet. *)
Definition synthesizing (text : jsstring) : CycleEnv :=
  mkCycleEnv (Resolved (mkResponse true text))
    (Resolved (mkResponse true (answer0, [mkSource (lit "docs/arch.pdf") 91])))
    Pending Pending.

(** Nothing has answered yet. *)
Definition unanswered : CycleEnv := mkCycleEnv Pending Pending Pending Pending.

(** The hook when a capture of 40000 bytes has been stopped. *)
Definition hookStopped : Hook :=
  exec stopListening
    (audioData 40000 (exec (startListening (Resolved tt)) hook0)).

(** The widget while the spoken question of that capture waits for the
    speech of its answer, with a second question typed in. *)
Definition panelSynthesizing : Panel :=
  mkPanel question1 (exec (recorderTask (synthesizing question0)) hookStopped).

(** The ways playback of an answer can fail, with the message of the
    error thrown: the synthesis request is rejected, its response is
    not [ok], or the audio element fails to play ([onerror], or a
    rejected [play()]). *)
Inductive PlaybackFails
  : Await (Response Blob) -> Await unit -> jsstring -> Prop :=
| SynthesisRejected (message : jsstring) (play : Await unit) :
    PlaybackFails (Rejected message) play message
| SynthesisNotOk (audio : Blob) (play : Await unit) :
    PlaybackFails (Resolved (mkResponse false audio)) play (lit "TTS failed")
| PlayFailed (audio : Blob) (message : jsstring) :
    PlaybackFails (Resolved (mkResponse true audio)) (Rejected message) message.

End Manual.

Module Chat.

Import UseAmbientListener AIChatPanel.

Definition panel0 : Panel :=
  initial (lit "session-1") (lit "slide-3") (lit "Architecture")
    (lit "The system has three services.") None None true true.

(** The first render: auto-reply is on, the log is empty. *)
Definition closure0 : Closure := currentClosure panel0.

(** Retrieval and synthesis succeed and playback starts; the clock
    reads [tU] at the question and [tR] at the reply. *)
Definition reply (tU tR : Z) : QueryEnv :=
  mkQueryEnv (tU, tU) Pending
    (Resolved (mkResponse true (lit "It has three services.", [])))
    (tR, tR)
    (Resolved (mkResponse true (mkBlob 20480 (lit "audio/mpeg"))))
    (Resolved tt).

(** Ambient listening is switched on, 5000 bytes are captured, the
    timer harvests them and the segment goes to speech-to-text. *)
Definition listening : list Event :=
  [ClickListen; MicSettled true; AudioData 5000; Tick 0; RecorderTask].

(** Speech-to-text answers with [text] at time [t]. *)
Definition heard (text : jsstring) (t : Z) : Event :=
  SttSettled (Resolved (mkResponse true text)) t t.

(** The panel after a typed question was answered, while the answer is
    being played; one harvested segment is still at speech-to-text. *)
Definition panelSpeaking : Panel :=
  let p := fold_left (fun p e => listenerEvent true closure0 e (reply 0 0) p)
             listening panel0 in
  exec (handleSend (reply 1000 2000))
    (setInput (lit "What is the architecture?") p).

(** ... and after that segment's transcript arrived. *)
Definition panelOverheard : Panel :=
  listenerEvent true closure0 (heard (lit "And how does it scale?") 3000)
    (reply 3000 4000) panelSpeaking.

(** Nothing has answered yet: every request of a query is pending. *)
Definition waiting (t : Z) : QueryEnv :=
  mkQueryEnv (t, t) Pending Pending (t, t) Pending Pending.

(** A panel that is listening, with two harvested segments at
    speech-to-text. *)
Definition panelHearing : Panel :=
  fold_left (fun p e => ambientEvent e (waiting 0) p)
    (listening ++ [AudioData 5000; Tick 0; RecorderTask]) panel0.

(** The message [queryAI] shows for the question. *)
Definition userMsg (question : jsstring) (src : QuerySource) (env : QueryEnv)
  : ChatMessage :=
  {| mid := lit "u-" ++ Number_toString (fst (tUser env));
     role := user; mtext := question; msources := None;
     mtimestamp := snd (tUser env);
     mtype := match src with fromAmbient => Some ambient | typed => None end |}.

End Chat.

Module AmbientSession.

Import UseAmbientListener.

(** Nothing of a capture session is left: no stream is live, no timer
    runs, no recorder records, the refs are cleared and no stop task or
    chunk is waiting. *)
Definition quiet (l : Listener) : Prop :=
  isListening l = false
  /\ streamRef l = None /\ recorderRef l = None /\ intervalRef l = None
  /\ chunksRef l = [] /\ stopTasks l = []
  /\ Forall (fun live => live = false) (streams l)
  /\ Forall (fun running => running = false) (timers l)
  /\ Forall (fun rec => isRecording (rstate rec) = false) (recorders l).

(** The events of a run that empty the log. *)
Definition isClear (e : Event) : bool :=
  match e with ClearTranscript => true | _ => false end.

(** One whole session on a listener: Listen is clicked and the
    microphone granted, [n] bytes are captured, Stop is clicked and the
    recorder's stop task runs. *)
Definition oneSession (n : N) (l : Listener) : Listener :=
  recorderTask
    (stopListening (audioData n (startListening_resume true (startListening l)))).

End AmbientSession.

Module ChatQuery.

Import UseAmbientListener AIChatPanel.

Definition isSpeak (r : Request) : bool :=
  match r with PostSpeak _ _ _ => true | _ => false end.

(** The response of the retrieval service a [queryAI] instance asks:
    web search or RAG, by the mode it closes over. *)
Inductive Retrieval :=
| StillPending
| Failed
| Answered (answer : jsstring).

Definition settled {A} (res : Await (Response (jsstring * A))) : Retrieval :=
  match res with
  | Pending => StillPending
  | Rejected _ => Failed
  | Resolved r => if ok r then Answered (fst (body r)) else Failed
  end.

Definition retrieval (c : Closure) (env : QueryEnv) : Retrieval :=
  if c_useWebSearch c then settled (searchRes env) else settled (ragRes env).

(** The closure [c] with another transcript log. *)
Definition withEntries (c : Closure) (log : list TranscriptEntry) : Closure :=
  mkClosure (c_sessionId c) (c_slideId c) (c_slideTitle c) (c_slideContext c)
    (c_language c) (c_useWebSearch c) log (c_clonedVoiceId c) (c_customTone c).

(** The apology [queryAI] shows when retrieval fails. *)
Definition apology : jsstring :=
  lit "Sorry, something went wrong. Please try again.".

End ChatQuery.

Module VoiceCycle.

Import UseVoiceRAG VoicePanel VoiceHistory.

(** The error a response that has to be [ok] makes the cycle throw:
    the message of the rejection, or [notOk] for a response that is
    not [ok]. *)
Definition failure {A} (res : Await (Response A)) (notOk : jsstring)
  : option jsstring :=
  match res with
  | Pending => None
  | Rejected m => Some m
  | Resolved r => if ok r then None else Some notOk
  end.

(** The microphone delivers [n] bytes to the widget's recorder. *)
Definition onAudio (n : N) (p : Panel) : Panel :=
  mkPanel (textInput p) (audioData n (hook p)).

(** One spoken question through the widget: the microphone button is
    clicked and the microphone granted, [n] bytes are captured, the
    button is clicked again and the recorder's stop task runs. *)
Definition spoken (n : N) (env : CycleEnv) (p : Panel) : Panel :=
  onHook (recorderTask env)
    (handleMicClick Pending (onAudio n (handleMicClick (Resolved tt) p))).

(** The exchanges of the calls that had a transcript. *)
Definition recorded (calls : list (jsstring * jsstring)) : list Exchange :=
  map (fun c => mkExchange (fst c) (snd c))
    (filter (fun c => truthy (fst c)) calls).

End VoiceCycle.

Module WavFile.

Import Studio.

(** Reading back: [getUint16(offset, true)], [getUint32(offset, true)]. *)
Definition getUint (width offset : nat) (bytes : Buffer) : Z :=
  fold_right (fun b acc => b + 256 * acc)%Z 0%Z
    (firstn width (skipn offset bytes)).

(** The [width] bytes at [offset]. *)
Definition getString (width offset : nat) (bytes : Buffer) : list Z :=
  firstn width (skipn offset bytes).

(** The character codes of a string. *)
Definition chars (s : string) : list Z := map Z.of_N (lit s).

(** The bytes of one sample. *)
Definition sampleBytes (s : QArith_base.Q) : list Z :=
  littleEndian 2 (toInteger (QArith_base.Qmult s (QArith_base.Qmake 32767 1))).

(** The bytes [writeString] writes. *)
Definition written (s : string) : list Z :=
  flat_map (fun c => littleEndian 1 (Z.of_N c)) (lit s).

(** The 44 bytes in front of the samples. *)
Definition header (n sampleRate : Z) : Buffer :=
  written "RIFF" ++ littleEndian 4 (32 + n * 2)
    ++ written "WAVE" ++ written "fmt "
    ++ littleEndian 4 16 ++ littleEndian 2 1 ++ littleEndian 2 1
    ++ littleEndian 4 sampleRate ++ littleEndian 4 (sampleRate * 2)
    ++ littleEndian 2 2 ++ littleEndian 2 16
    ++ written "data" ++ littleEndian 4 (n * 2).

End WavFile.

(* ===================================================================== *)
(** * Properties *)
(* ===================================================================== *)

(** ** Strings *)

Lemma trimStart_blank (s : jsstring) : blank s = true -> trimStart s = [].
Proof.
  induction s as [|c r IH]; simpl; [reflexivity|].
  intros H. apply andb_true_iff in H as [Hc Hr]. rewrite Hc. auto.
Qed.

Lemma trim_blank (s : jsstring) : blank s = true -> trim s = [].
Proof.
  intros H. unfold trim. rewrite (trimStart_blank s H). reflexivity.
Qed.

Lemma trimStart_keeps (s : jsstring) :
  blank s = false -> truthy (trimStart s) = true /\ blank (trimStart s) = false.
Proof.
  induction s as [|c r IH]; simpl; [discriminate|].
  destruct (isWhiteSpace c) eqn:Hc; simpl.
  - exact IH.
  - intros _. rewrite Hc. split; reflexivity.
Qed.

Lemma blank_rev (s : jsstring) : blank (rev s) = blank s.
Proof.
  unfold blank. induction s as [|c r IH]; simpl; [reflexivity|].
  rewrite forallb_app, IH. simpl. rewrite andb_true_r. apply andb_comm.
Qed.

Lemma truthy_rev (s : jsstring) : truthy (rev s) = truthy s.
Proof.
  destruct s as [|c r]; simpl; [reflexivity|].
  destruct (rev r); reflexivity.
Qed.

Lemma trim_nonblank (s : jsstring) : blank s = false -> truthy (trim s) = true.
Proof.
  intros H. unfold trim, trimEnd.
  destruct (trimStart_keeps s H) as [_ Hb].
  rewrite truthy_rev.
  apply trimStart_keeps. rewrite blank_rev. exact Hb.
Qed.

(** [!text.trim()] holds exactly for blank strings. *)
Lemma truthy_trim (s : jsstring) : truthy (trim s) = negb (blank s).
Proof.
  destruct (blank s) eqn:H.
  - rewrite (trim_blank s H). reflexivity.
  - apply trim_nonblank. exact H.
Qed.

Lemma digits_notDash (d : Decimal.uint) : forallb notDash (digits d) = true.
Proof. induction d; simpl; auto. Qed.

Lemma digits_inj (d1 d2 : Decimal.uint) : digits d1 = digits d2 -> d1 = d2.
Proof.
  revert d2. induction d1; destruct d2; simpl; intros H;
    try discriminate; try reflexivity;
    injection H as H; f_equal; auto.
Qed.

Lemma Number_toString_inj (a b : Z) :
  Number_toString a = Number_toString b -> a = b.
Proof.
  unfold Number_toString. intros H.
  rewrite <- (DecimalZ.of_to a), <- (DecimalZ.of_to b).
  destruct (Z.to_int a) as [da|da], (Z.to_int b) as [db|db].
  - f_equal. f_equal. apply digits_inj. exact H.
  - exfalso. destruct da; discriminate H.
  - exfalso. destruct db; discriminate H.
  - injection H as H. f_equal. f_equal. apply digits_inj. exact H.
Qed.

Lemma Number_toString_N_notDash (c : N) :
  forallb notDash (Number_toString (Z.of_N c)) = true.
Proof.
  unfold Number_toString. destruct c; simpl; [reflexivity|].
  apply digits_notDash.
Qed.

Lemma takeWhile_app_stop {A} (f : A -> bool) (x : list A) (c : A) (y : list A) :
  forallb f x = true -> f c = false -> takeWhile f (x ++ c :: y) = x.
Proof.
  intros Hx Hc. induction x as [|a r IH]; simpl in *.
  - rewrite Hc. reflexivity.
  - apply andb_true_iff in Hx as [Ha Hr]. rewrite Ha, IH; auto.
Qed.

Lemma lastSegment_dash (p b : jsstring) :
  forallb notDash b = true -> lastSegment (p ++ 45 :: b) = b.
Proof.
  intros Hb. unfold lastSegment.
  rewrite rev_app_distr. simpl. rewrite <- app_assoc. simpl.
  rewrite takeWhile_app_stop.
  - apply rev_involutive.
  - fold (blank (rev b)). unfold blank in *.
    rewrite forallb_forall in *. intros x Hx. apply Hb. apply in_rev. exact Hx.
  - reflexivity.
Qed.

(** ** Relations respected by a body *)

Lemma extends_refl {S X} (proj : S -> list X) (s : S) : extends proj s s.
Proof. exists []. rewrite app_nil_r. reflexivity. Qed.

Lemma extends_trans {S X} (proj : S -> list X) (a b c : S) :
  extends proj a b -> extends proj b c -> extends proj a c.
Proof.
  intros [r1 H1] [r2 H2]. exists (r1 ++ r2).
  rewrite H2, H1, app_assoc. reflexivity.
Qed.

Lemma keeps_refl {S X} (proj : S -> X) (s : S) : keeps proj s s.
Proof. reflexivity. Qed.

Lemma keeps_trans {S X} (proj : S -> X) (a b c : S) :
  keeps proj a b -> keeps proj b c -> keeps proj a c.
Proof. unfold keeps. intros H1 H2. rewrite H2. exact H1. Qed.

Create HintDb preorder.
#[export] Hint Resolve extends_refl extends_trans keeps_refl keeps_trans : preorder.

Section Respects.

Context {S : Type} (R : S -> S -> Prop).
Hypothesis R_refl : forall s, R s s.
Hypothesis R_trans : forall a b c, R a b -> R b c -> R a c.

Lemma respects_ret {A} (a : A) : respects R (ret a).
Proof. intros s. apply R_refl. Qed.

Lemma respects_throw {A} (e : jsstring) : respects R (@throw S A e).
Proof. intros s. apply R_refl. Qed.

Lemma respects_await {A} (p : Await A) : respects R (await p).
Proof. intros s. destruct p; apply R_refl. Qed.

Lemma respects_gets {A} (f : S -> A) : respects R (gets f).
Proof. intros s. apply R_refl. Qed.

Lemma respects_modify (f : S -> S) :
  (forall s, R s (f s)) -> respects R (modify f).
Proof. intros H s. exact (H s). Qed.

Lemma respects_bind {A B} (m : Eff S A) (k : A -> Eff S B) :
  respects R m -> (forall a, respects R (k a)) -> respects R (bind m k).
Proof.
  intros Hm Hk s. unfold bind.
  pose proof (Hm s) as H1.
  destruct (m s) as [[a|e|] s1]; simpl in *; try exact H1.
  apply (R_trans _ s1); [exact H1|apply Hk].
Qed.

Lemma respects_tryCatch {A} (body : Eff S A) (handler : jsstring -> Eff S A) :
  respects R body -> (forall e, respects R (handler e)) ->
  respects R (tryCatch body handler).
Proof.
  intros Hb Hh s. unfold tryCatch.
  pose proof (Hb s) as H1.
  destruct (body s) as [[a|e|] s1]; simpl in *; try exact H1.
  apply (R_trans _ s1); [exact H1|apply Hh].
Qed.

Lemma respects_when (b : bool) (m : Eff S unit) :
  respects R m -> respects R (when_ b m).
Proof. intros H. destruct b; simpl; [exact H|apply respects_ret]. Qed.

End Respects.

(** A [try] whose body starts with a step that returns. *)
Lemma tryCatch_bind {S A B} (m : Eff S A) (k : A -> Eff S B)
    (handler : jsstring -> Eff S B) (s : S) (a : A) (s1 : S) :
  m s = (Done a, s1) ->
  tryCatch (bind m k) handler s = tryCatch (k a) handler s1.
Proof. intros H. unfold tryCatch, bind. rewrite H. reflexivity. Qed.

Lemma bind_modify {S B} (f : S -> S) (k : unit -> Eff S B) (s : S) :
  bind (modify f) k s = k tt (f s).
Proof. reflexivity. Qed.

Lemma bind_gets {S A B} (f : S -> A) (k : A -> Eff S B) (s : S) :
  bind (gets f) k s = k (f s) s.
Proof. reflexivity. Qed.

(** Decompose a body along its structure; what is left are the field
    updates, each of which keeps the field or appends one element. *)
Ltac side := try solve [eauto with preorder].

Ltac leaf :=
  intros ?; unfold keeps, extends; simpl;
  first [ reflexivity
        | exists []; rewrite app_nil_r; reflexivity
        | eexists; reflexivity ].

Ltac respects :=
  repeat first
    [ apply respects_ret; side
    | apply respects_throw; side
    | apply respects_await; side
    | apply respects_gets; side
    | apply respects_bind; side; [|intros ?]
    | apply respects_tryCatch; side; [|intros ?]
    | apply respects_when; side
    | apply respects_modify; leaf
    | progress (cbv zeta)
    | match goal with
      | |- respects _ (match ?x with _ => _ end) => destruct x
      | |- respects _ ?m => progress (unfold m)
      | |- respects _ (?m _) => progress (unfold m)
      | |- respects _ (?m _ _) => progress (unfold m)
      | |- respects _ (?m _ _ _) => progress (unfold m)
      | |- respects _ (?m _ _ _ _) => progress (unfold m)
      end ].

(** ** The ambient listener *)

Section AmbientListener.

Import UseAmbientListener Ambient.

Ltac break :=
  repeat match goal with
    | |- context [match ?x with _ => _ end] => destruct x eqn:?; simpl
    end.

(** Only [transcribeChunk] sends audio, and what it sends has at least
    1000 bytes. *)
Lemma transcribeChunk_requests (b : Blob) (l : Listener) :
  Forall bigEnough (sttRequests l) ->
  Forall bigEnough (sttRequests (transcribeChunk b l)).
Proof.
  intros H. unfold transcribeChunk.
  destruct (size b <? 1000) eqn:Hb; simpl; [exact H|].
  apply Forall_app. split; [exact H|].
  constructor; [|constructor].
  unfold bigEnough. apply N.ltb_ge. exact Hb.
Qed.

Lemma startRecorder_requests (s : nat) (l : Listener) :
  sttRequests (startRecorder s l) = sttRequests l.
Proof. reflexivity. Qed.

Lemma onstop_requests (rec : MediaRecorder) (l : Listener) :
  Forall bigEnough (sttRequests l) ->
  Forall bigEnough (sttRequests (onstop rec l)).
Proof.
  intros H. unfold onstop.
  set (l1 := transcribeChunk _ _).
  assert (H1 : Forall bigEnough (sttRequests l1))
    by (apply transcribeChunk_requests; exact H).
  destruct (streamRef l1); [|exact H1].
  destruct (streamActive n l1); [|exact H1].
  rewrite startRecorder_requests. exact H1.
Qed.

Lemma recorderStop_requests (r : nat) (l : Listener) :
  sttRequests (recorderStop r l) = sttRequests l.
Proof. unfold recorderStop. break; reflexivity. Qed.

Lemma step_requests (e : Event) (l : Listener) :
  Forall bigEnough (sttRequests l) ->
  Forall bigEnough (sttRequests (fst (step e l))).
Proof.
  intros H. destruct e; simpl.
  - exact H.
  - unfold startListening_resume. break; exact H.
  - unfold stopListening. simpl.
    repeat match goal with
      | |- context [match ?x with _ => _ end] => destruct x eqn:?; simpl
      | |- context [recorderStop ?r ?l] => rewrite (recorderStop_requests r l); simpl
      end; exact H.
  - unfold tick, harvestAndRestart.
    destruct (nth timer (timers l) false); [|exact H].
    destruct (refIsRecording l); [|exact H].
    rewrite recorderStop_requests. exact H.
  - exact H.
  - unfold recorderTask.
    destruct (stopTasks l) as [|r rest]; [exact H|]. simpl.
    destruct (nth_error (recorders l) r) as [rec|]; [|exact H].
    apply onstop_requests. unfold ondataavailable. break; exact H.
  - destruct (sttInFlight l); [exact H|].
    destruct res; simpl; try exact H.
    break; exact H.
  - exact H.
Qed.

Lemma run_requests (evs : list Event) (l : Listener) :
  Forall bigEnough (sttRequests l) ->
  Forall bigEnough (sttRequests (fst (run evs l))).
Proof.
  revert l. induction evs as [|e rest IH]; intros l H; simpl; [exact H|].
  pose proof (step_requests e l H) as H1.
  destruct (step e l) as [l1 out]. simpl in H1.
  specialize (IH l1 H1).
  destruct (run rest l1) as [l2 outs]. exact IH.
Qed.

Lemma recorderStop_frame (r : nat) (l : Listener) :
  idCounter (recorderStop r l) = idCounter l
  /\ entries (recorderStop r l) = entries l.
Proof. unfold recorderStop. break; split; reflexivity. Qed.

Lemma id_lastSegment (t : Z) (c : N) :
  lastSegment (lit "t-" ++ Number_toString t ++ lit "-"
                 ++ Number_toString (Z.of_N c))
  = Number_toString (Z.of_N c).
Proof.
  rewrite app_assoc. change (lit "-") with [45]. simpl ([45] ++ _).
  apply lastSegment_dash. apply Number_toString_N_notDash.
Qed.

Lemma step_emits (e : Event) (l : Listener) :
  emits l (fst (step e l)) (snd (step e l)).
Proof.
  destruct e; simpl.
  - split; auto.
  - unfold startListening_resume. break; split; auto.
  - unfold stopListening. simpl.
    repeat match goal with
      | |- context [match ?x with _ => _ end] => destruct x eqn:?; simpl
      | |- context [recorderStop ?r ?l] =>
          destruct (recorderStop_frame r l) as [-> ->]; simpl
      end; split; auto.
  - unfold tick, harvestAndRestart. break;
      try (destruct (recorderStop_frame n l) as [-> ->]); split; auto.
  - split; auto.
  - unfold recorderTask, onstop, ondataavailable, transcribeChunk.
    break; split; auto.
  - destruct (sttInFlight l); [split; auto|].
    destruct res as [|m|r]; simpl; try (split; auto; fail).
    destruct (ok r); simpl; [|split; auto].
    destruct (truthy (trim (body r))); simpl; [|split; auto].
    split; [reflexivity|]. split; [|reflexivity].
    apply id_lastSegment.
  - split; auto.
Qed.

(** Along a run the counter only grows, every published entry carries
    a counter value of the interval the run went through, and no two
    published entries share an id. *)
Lemma run_ids (evs : list Event) (l : Listener) :
  idCounter l <= idCounter (fst (run evs l))
  /\ NoDup (map id (snd (run evs l)))
  /\ (forall x, In x (snd (run evs l)) ->
        exists c, idCounter l <= c < idCounter (fst (run evs l))
                  /\ lastSegment (id x) = Number_toString (Z.of_N c)).
Proof.
  revert l. induction evs as [|e rest IH]; intros l; simpl.
  - split; [lia|]. split; [constructor|]. intros x [].
  - pose proof (step_emits e l) as He.
    destruct (step e l) as [l1 out]. simpl in He.
    specialize (IH l1).
    destruct (run rest l1) as [l2 outs]. simpl in IH.
    destruct IH as (Hle & Hnd & Hin).
    destruct out as [x|]; simpl in *.
    + destruct He as (Hc & Hx & _).
      split; [lia|]. split.
      * constructor; [|exact Hnd].
        intros Hdup. apply in_map_iff in Hdup as (y & Hy & Hyin).
        destruct (Hin y Hyin) as (c & Hrange & Hseg).
        rewrite Hy, Hx in Hseg.
        apply Number_toString_inj in Hseg. lia.
      * intros y [<-|Hy].
        -- exists (idCounter l). split; [lia|exact Hx].
        -- destruct (Hin y Hy) as (c & Hrange & Hseg).
           exists c. split; [lia|exact Hseg].
    + destruct He as (Hc & _).
      split; [lia|]. split; [exact Hnd|].
      intros y Hy. destruct (Hin y Hy) as (c & Hrange & Hseg).
      exists c. split; [lia|exact Hseg].
Qed.

(** The log is always a tail of what it held plus what was published. *)
Lemma run_log (evs : list Event) (l : Listener) :
  exists pre,
    entries l ++ snd (run evs l) = pre ++ entries (fst (run evs l)).
Proof.
  revert l. induction evs as [|e rest IH]; intros l; simpl.
  - exists []. rewrite app_nil_r. reflexivity.
  - pose proof (step_emits e l) as He.
    destruct (step e l) as [l1 out]. simpl in He.
    specialize (IH l1).
    destruct (run rest l1) as [l2 outs]. simpl in IH.
    destruct IH as [pre Hpre].
    destruct out as [x|]; simpl in *.
    + destruct He as (_ & _ & Hl). rewrite Hl in Hpre.
      exists pre. rewrite <- Hpre, <- app_assoc. reflexivity.
    + destruct He as (_ & [Hl|Hl]); rewrite Hl in Hpre.
      * exists pre. exact Hpre.
      * exists (entries l ++ pre). rewrite <- app_assoc, <- Hpre. reflexivity.
Qed.

End AmbientListener.

Lemma nth_error_setNth {A} (i : nat) (x y : A) (l : list A) :
  nth_error l i = Some y -> nth_error (setNth i x l) i = Some x.
Proof.
  revert i. induction l as [|a r IH]; intros [|i]; simpl; try discriminate; auto.
Qed.

Lemma length_setNth {A} (i : nat) (x : A) (l : list A) :
  List.length (setNth i x l) = List.length l.
Proof.
  revert i. induction l as [|a r IH]; intros [|i]; simpl; auto.
Qed.

Lemma nth_setNth {A} (i : nat) (x : A) (l : list A) :
  nth i (setNth i x l) x = x.
Proof.
  revert i. induction l as [|a r IH]; intros [|i]; simpl; auto.
Qed.

Section StopListening.

Import UseAmbientListener Ambient.

(** The updates [stopListening] makes in a capturing session. *)
Lemma stopListening_capturing
    (l : Listener) (t r s : nat) (mime : jsstring) (b : N) :
  capturing l t r s mime b ->
  stopListening l =
    setIsListening false
      (setRecorderRef None
         (setStreamRef None
            (setStreams (setNth s false (streams l))
               (setStopTasks [r]
                  (setRecorders
                     (setNth r (mkRecorder s mime inactive b) (recorders l))
                     (setIntervalRef None
                        (setTimers (setNth t false (timers l)) l))))))).
Proof.
  intros (Hi & Hr & Hrec & Hs & Hc & Ht).
  unfold stopListening. rewrite Hi.
  unfold refIsRecording.
  cbn [recorderRef setIntervalRef setTimers recorders].
  rewrite Hr, Hrec. cbn [rstate isRecording].
  unfold recorderStop.
  cbn [recorderRef setIntervalRef setTimers recorders].
  rewrite Hrec. cbn. rewrite Hs, Ht. reflexivity.
Qed.

(** C3 (as amended).  In a capturing session, [stopListening] cancels
    the harvest timer, releases the microphone stream, clears the refs
    and queues the recorder's stop task.  When that task runs the
    in-progress segment is finalized and handed to [transcribeChunk],
    which sends it for transcription exactly when it has at least 1000
    bytes; no new segment is opened. *)
Theorem stopListening_finalizes_segment
    (l : Listener) (t r s : nat) (mime : jsstring) (b : N) :
  capturing l t r s mime b ->
  let l1 := stopListening l in
  let l2 := recorderTask l1 in
  intervalRef l1 = None /\ nth t (timers l1) false = false
  /\ tick t l1 = l1
  /\ streamRef l1 = None /\ streamActive s l1 = false
  /\ recorderRef l1 = None /\ isListening l1 = false
  /\ stopTasks l1 = [r]
  /\ sttRequests l2 =
       (if b <? 1000 then sttRequests l
        else sttRequests l ++ [segment mime b])
  /\ recorders l2 = recorders l1 /\ recorderRef l2 = None
  /\ entries l2 = entries l.
Proof.
  intros Hcap. cbv zeta.
  pose proof (stopListening_capturing l t r s mime b Hcap) as Hl1.
  destruct Hcap as (_ & _ & Hrec & _ & Hc & _).
  assert (Htm : nth t (timers (stopListening l)) false = false)
    by (rewrite Hl1; cbn; apply nth_setNth).
  assert (Hrecs : recorders (stopListening l)
                  = setNth r (mkRecorder s mime inactive b) (recorders l))
    by (rewrite Hl1; reflexivity).
  assert (Htasks : stopTasks (stopListening l) = [r])
    by (rewrite Hl1; reflexivity).
  assert (Hchunks : chunksRef (stopListening l) = [])
    by (rewrite Hl1; exact Hc).
  assert (Hsref : streamRef (stopListening l) = None)
    by (rewrite Hl1; reflexivity).
  assert (Hreqs : sttRequests (stopListening l) = sttRequests l)
    by (rewrite Hl1; reflexivity).
  assert (Hrref : recorderRef (stopListening l) = None)
    by (rewrite Hl1; reflexivity).
  assert (Hents : entries (stopListening l) = entries l)
    by (rewrite Hl1; reflexivity).
  split; [rewrite Hl1; reflexivity|]. split; [exact Htm|].
  split; [unfold tick; rewrite Htm; reflexivity|].
  split; [exact Hsref|].
  split; [unfold streamActive; rewrite Hl1; cbn; apply nth_setNth|].
  split; [rewrite Hl1; reflexivity|].
  split; [rewrite Hl1; reflexivity|].
  split; [exact Htasks|].
  unfold recorderTask. rewrite Htasks.
  cbn [recorders setStopTasks]. rewrite Hrecs.
  rewrite (nth_error_setNth r _ _ (recorders l) Hrec).
  cbn [buffered rmime].
  unfold ondataavailable, onstop, transcribeChunk, segment, newBlob.
  cbn [size]. rewrite <- Hrecs.
  generalize dependent (stopListening l).
  intros l1 _ _ Hrecs Htasks Hchunks Hsref Hreqs Hrref Hents.
  destruct (0 <? b) eqn:Hb0.
  - cbn. rewrite Hchunks. cbn. rewrite N.add_0_r.
    destruct (b <? 1000); cbn; rewrite Hsref, ?Hreqs;
      repeat split; cbn; auto.
  - apply N.ltb_ge in Hb0. assert (b = 0) by lia. subst b.
    cbn. rewrite Hchunks. cbn. rewrite Hsref. repeat split; cbn; auto.
Qed.

Lemma stopListening_finalizes_segment_witness :
  capturing session5000 0 0 0 (lit "audio/webm;codecs=opus") 5000
  /\ sttRequests (recorderTask (stopListening session5000))
     = [segment (lit "audio/webm;codecs=opus") 5000].
Proof.
  split.
  - repeat split; reflexivity.
  - apply (stopListening_finalizes_segment session5000 0 0 0
             (lit "audio/webm;codecs=opus") 5000).
    repeat split; reflexivity.
Defined.

(** C3, as stated, fails: after 5000 bytes were captured, stopping
    sends the in-progress segment to speech-to-text. *)
Lemma stop_transcribes_pending_segment :
  sttRequests session5000 = []
  /\ sttRequests (stopListening session5000) = []
  /\ sttRequests (recorderTask (stopListening session5000))
     = [mkBlob 5000 (lit "audio/webm;codecs=opus")].
Proof. repeat split; reflexivity. Qed.

End StopListening.

Lemma setNth_last {A} (x y : A) (l : list A) :
  setNth (List.length l) x (l ++ [y]) = l ++ [x].
Proof. induction l as [|a r IH]; simpl; [reflexivity|]. rewrite IH. reflexivity. Qed.

(** ** The manual cycle *)

Section ManualCycle.

Import UseVoiceRAG VoicePanel Manual.

Ltac run_body :=
  unfold exec, processAudio, askText, startListening, stopListening,
    stopSpeaking, recorderTask, newAudio, setAudioStatus, when_,
    bind, tryCatch, modify, gets, await, throw, ret;
  simpl.




(** The speech-to-text request of [processAudio] is built first,
    whatever the segment and whatever happens afterwards. *)
Lemma processAudio_transcribes (blob : Blob) (env : CycleEnv) (h : Hook) :
  exists rest,
    requests (exec (processAudio blob env) h)
    = requests h ++ PostTranscribe blob (language (opts h)) :: rest.
Proof.
  unfold exec, processAudio. rewrite bind_modify.
  rewrite (tryCatch_bind (gets opts) _ _ (setState thinking h) _ _ eq_refl).
  rewrite (tryCatch_bind (modify _) _ _ _ _ _ eq_refl).
  match goal with
  | |- context [snd (?m ?s)] =>
      assert (Hm : respects (extends requests) m) by respects;
      destruct (Hm s) as [rest Hrest]; rewrite Hrest
  end.
  exists rest. simpl. rewrite <- app_assoc. reflexivity.
Qed.

(** C7.  [stopSpeaking] moves the state to [idle] and leaves the
    answer text, the sources, the transcript and every other field but
    the audio elements as they were. *)
Theorem stopSpeaking_keeps_answer (h : Hook) :
  let h' := exec stopSpeaking h in
  state h' = idle
  /\ answer h' = answer h /\ sources h' = sources h
  /\ transcript h' = transcript h /\ errorMsg h' = errorMsg h
  /\ requests h' = requests h /\ callbacks h' = callbacks h
  /\ mediaRecorderRef h' = mediaRecorderRef h.
Proof.
  run_body.
  destruct (audioRef h) as [n|]; simpl; [|repeat split; reflexivity].
  destruct (nth_error (audios h) n) as [[]|]; simpl; repeat split; reflexivity.
Qed.

(** C9.  [startListening] empties [error], [answer] and [transcript]
    before it asks for the microphone: they are empty while the
    request is pending and empty when capture has begun; the only
    other outcome is the [error] state with its message. *)
Theorem startListening_resets_output (h : Hook) (mic : Await unit) :
  let pending := exec (startListening Pending) h in
  let h' := exec (startListening mic) h in
  (errorMsg pending = [] /\ answer pending = [] /\ transcript pending = []
   /\ mediaRecorderRef pending = mediaRecorderRef h)
  /\ answer h' = [] /\ transcript h' = []
  /\ (h' = pending
      \/ (state h' = listening /\ errorMsg h' = []
          /\ exists s, mediaRecorderRef h'
                       = Some (mkRecorder s (lit "audio/webm") recording 0))
      \/ (state h' = error /\ errorMsg h' = lit "Microphone access denied")).
Proof.
  run_body. split; [repeat split; reflexivity|].
  destruct mic as [|m|[]]; simpl.
  - repeat split; auto.
  - repeat split; auto.
  - destruct (supportsWebm h); simpl.
    + repeat split; try reflexivity. right. left.
      repeat split; try reflexivity. eexists. reflexivity.
    + repeat split; auto.
Qed.

End ManualCycle.

(** ** Segments, transcripts and ids *)

Section Transcripts.

Import UseAmbientListener Ambient.

(** The counters carried by the published entries are consecutive,
    starting from the listener's counter. *)
Lemma run_counters (evs : list Event) (l : Listener) :
  map (fun x => lastSegment (id x)) (snd (run evs l))
  = map (fun k => Number_toString (Z.of_N (idCounter l + N.of_nat k)))
      (seq 0 (List.length (snd (run evs l)))).
Proof.
  revert l. induction evs as [|e rest IH]; intros l; simpl; [reflexivity|].
  pose proof (step_emits e l) as He.
  destruct (step e l) as [l1 out]. simpl in He.
  specialize (IH l1).
  destruct (run rest l1) as [l2 outs]. simpl in IH.
  destruct out as [x|]; simpl in *.
  - destruct He as (Hc & Hx & _).
    rewrite N.add_0_r, Hx. f_equal.
    rewrite IH, <- seq_shift, map_map.
    apply map_ext. intros k. rewrite Hc. do 2 f_equal. lia.
  - destruct He as (Hc & _). rewrite IH, Hc. reflexivity.
Qed.

(** C10.  The entries a listener instance publishes and appends to its
    log have pairwise distinct ids: the last segment of each id is the
    value of a counter that starts at 0 and is incremented with every
    entry, so the n-th entry carries n. *)
Theorem transcript_ids_distinct
    (evs : list Event) (lang : Language) (opus webm : bool) :
  let r := run evs (initial lang opus webm) in
  NoDup (map id (snd r))
  /\ NoDup (map id (entries (fst r)))
  /\ map (fun x => lastSegment (id x)) (snd r)
     = map (fun k => Number_toString (Z.of_nat k))
         (seq 0 (List.length (snd r))).
Proof.
  cbv zeta. set (l0 := initial lang opus webm).
  destruct (run_ids evs l0) as (_ & Hnd & _).
  split; [exact Hnd|]. split.
  - destruct (run_log evs l0) as [pre Hpre].
    change (entries l0) with (@nil TranscriptEntry) in Hpre. simpl in Hpre.
    rewrite Hpre, map_app in Hnd.
    apply NoDup_app_remove_l in Hnd. exact Hnd.
  - rewrite run_counters. apply map_ext. intros k.
    change (idCounter l0) with 0. f_equal. lia.
Qed.

(** C4 (as amended).  A segment under 1000 bytes is dropped by the
    ambient listener before any request is built, and along every run
    of a listener each speech-to-text request carries at least 1000
    bytes.  The manual cycle has no threshold: [processAudio] sends
    the segment it is given, whatever its size. *)
Theorem small_segments_dropped_by_ambient_listener
    (blob : Blob) (l : Listener) (env : UseVoiceRAG.CycleEnv)
    (h : UseVoiceRAG.Hook) :
  size blob < 1000 ->
  transcribeChunk blob l = l
  /\ (forall evs lang opus webm,
        Forall bigEnough (sttRequests (fst (run evs (initial lang opus webm)))))
  /\ exists rest,
       UseVoiceRAG.requests (exec (UseVoiceRAG.processAudio blob env) h)
       = UseVoiceRAG.requests h
           ++ UseVoiceRAG.PostTranscribe blob
                (UseVoiceRAG.language (UseVoiceRAG.opts h)) :: rest.
Proof.
  intros Hsmall. split; [|split].
  - unfold transcribeChunk. apply N.ltb_lt in Hsmall. rewrite Hsmall.
    reflexivity.
  - intros evs lang opus webm. apply run_requests. constructor.
  - apply processAudio_transcribes.
Qed.

Lemma small_segments_dropped_by_ambient_listener_witness :
  size Manual.tinyRecording < 1000
  /\ transcribeChunk Manual.tinyRecording session5000 = session5000.
Proof.
  split; [reflexivity|].
  apply (small_segments_dropped_by_ambient_listener Manual.tinyRecording
           session5000 (Manual.cycle Manual.question0 Pending) Manual.hook0).
  reflexivity.
Defined.

(** C4, as stated, fails in manual mode: a 10-byte recording is sent
    to speech-to-text. *)
Lemma manual_mode_transcribes_tiny_segment :
  size Manual.tinyRecording < 1000
  /\ UseVoiceRAG.requests
       (exec (UseVoiceRAG.processAudio Manual.tinyRecording
                (Manual.cycle [] Pending))
          Manual.hook0)
     = [UseVoiceRAG.PostTranscribe Manual.tinyRecording en].
Proof. split; reflexivity. Qed.

End Transcripts.

(** ** The chat panel and its auto-reply gate *)

Section ChatPanel.

Import UseAmbientListener AIChatPanel Chat.



(** In the chat panel a playback failure is only logged: the answer
    stays in the message list, no error message is added and
    [isThinking] returns to false. *)
Lemma queryAI_survives_playback_failure
    (c : Closure) (p : Panel) (question ans : jsstring) (src : QuerySource)
    (srcs : list SourceRef) (tU tR : Z * Z)
    (search : Await (Response (jsstring * option (list WebSource))))
    (tts : Await (Response Blob)) (play : Await unit) (message : jsstring) :
  blank question = false ->
  c_useWebSearch c = false ->
  Manual.PlaybackFails tts play message ->
  let env := mkQueryEnv tU search (Resolved (mkResponse true (ans, srcs)))
               tR tts play in
  let p' := exec (queryAI c question src env) p in
  isThinking p' = false
  /\ map mtext (messages p') = map mtext (messages p) ++ [question; ans].
Proof.
  intros Hq Hweb Hfail env p'. subst p' env.
  unfold exec, queryAI, askRag, speakAnswer, bind, tryCatch, modify, gets,
    await, throw, ret.
  rewrite truthy_trim, Hq, Hweb.
  destruct Hfail; simpl.
  - rewrite !map_app, <- app_assoc. split; reflexivity.
  - rewrite !map_app, <- app_assoc. split; reflexivity.
  - destruct (0 <? size audio); simpl;
      rewrite !map_app, <- app_assoc; split; reflexivity.
Qed.



(** [queryAI] never writes the ref. *)
Lemma queryAI_keeps_ref
    (c : Closure) (question : jsstring) (src : QuerySource) (env : QueryEnv)
    (p : Panel) :
  isThinkingRef (exec (queryAI c question src env) p) = isThinkingRef p.
Proof.
  assert (H : respects (keeps isThinkingRef) (queryAI c question src env))
    by respects.
  exact (H p).
Qed.

(** [isThinking] is true from the submission of a question until
    [queryAI] has finished. *)
Lemma queryAI_thinking
    (c : Closure) (question : jsstring) (src : QuerySource) (env : QueryEnv)
    (p : Panel) :
  blank question = false ->
  isThinking (exec (queryAI c question src env) p)
  = match fst (queryAI c question src env p) with
    | Suspended => true
    | _ => false
    end.
Proof.
  intros Hq.
  unfold exec, queryAI, askWeb, askRag, speakAnswer, bind, tryCatch, modify,
    gets, await, throw, ret.
  rewrite truthy_trim, Hq. cbn [negb].
  destruct env as [tU search rag0 tR tts play].
  destruct (c_useWebSearch c); simpl.
  - destruct search as [|m|[[] [a srcs]]]; simpl; auto.
    destruct tts as [|m|[[] audio]]; simpl; auto.
    destruct (0 <? size audio); simpl; auto.
    destruct play as [|m|[]]; simpl; auto.
  - destruct rag0 as [|m|[[] [a srcs]]]; simpl; auto.
    destruct tts as [|m|[[] audio]]; simpl; auto.
    destruct (0 <? size audio); simpl; auto.
    destruct play as [|m|[]]; simpl; auto.
Qed.




(** The gate follows the committed flag, not the query: of two
    transcripts that arrive one after the other, the first is forwarded
    and its query is waiting for retrieval.  The second is forwarded as
    well if it arrives before the render has committed, and dropped if
    it arrives after. *)
Lemma gate_follows_the_committed_flag :
  let first := ambientEvent (heard (lit "What does it cost?") 1000)
                 (waiting 1000) panelHearing in
  let second := heard (lit "And how does it scale?") 2000 in
  (phase first = Thinking /\ isThinkingRef first = false
   /\ map mtext (messages first) = [lit "What does it cost?"])
  /\ map mtext (messages (ambientEvent second (waiting 2000) first))
     = [lit "What does it cost?"; lit "And how does it scale?"]
  /\ isThinkingRef (commit first) = true
  /\ map mtext (messages (ambientEvent second (waiting 2000) (commit first)))
     = [lit "What does it cost?"]
  /\ List.length (entries (listener
                             (ambientEvent second (waiting 2000) (commit first))))
     = 2%nat.
Proof. vm_compute. repeat split; reflexivity. Qed.

(** C8 (as amended).  A playback request creates a new audio element
    and starts it; every element created before, playing or not, is
    left as it is.  This holds at each of the three places where the
    code plays an answer: the chat panel's [queryAI], and the manual
    cycle's [processAudio] and [askText]. *)
Theorem playback_adds_a_stream
    (audio : Blob) (c : Closure) (p : Panel) (answerText : jsstring)
    (tU tR : Z * Z) (search : Await (Response (jsstring * option (list WebSource))))
    (ragAns : Await (Response (jsstring * list SourceRef)))
    (h : UseVoiceRAG.Hook) (blob : Blob) (question : jsstring)
    (srcs : list UseVoiceRAG.SourceRef)
    (stt : Await (Response jsstring)) (okRag okTts : bool) :
  0 < size audio ->
  blank question = false ->
  let p' := exec (speakAnswer c answerText
                    (mkQueryEnv tU search ragAns tR
                       (Resolved (mkResponse true audio)) (Resolved tt))) p in
  let h' := exec (UseVoiceRAG.processAudio blob
                    (UseVoiceRAG.mkCycleEnv
                       (Resolved (mkResponse true question))
                       (Resolved (mkResponse true (answerText, srcs)))
                       (Resolved (mkResponse true audio)) Pending)) h in
  let t' := exec (UseVoiceRAG.askText question
                    (UseVoiceRAG.mkCycleEnv stt
                       (Resolved (mkResponse okRag (answerText, srcs)))
                       (Resolved (mkResponse okTts audio)) (Resolved tt))) h in
  audios p' = audios p ++ [playing]
  /\ playingCount p' = S (playingCount p)
  /\ UseVoiceRAG.audios h' = UseVoiceRAG.audios h ++ [playing]
  /\ UseVoiceRAG.playingCount h' = S (UseVoiceRAG.playingCount h)
  /\ UseVoiceRAG.state h' = UseVoiceRAG.speaking
  /\ UseVoiceRAG.audios t' = UseVoiceRAG.audios h ++ [playing]
  /\ UseVoiceRAG.playingCount t' = S (UseVoiceRAG.playingCount h)
  /\ UseVoiceRAG.state t' = UseVoiceRAG.speaking.
Proof.
  intros Hsz Hq. cbv zeta.
  assert (Hp : audios (exec (speakAnswer c answerText
                    (mkQueryEnv tU search ragAns tR
                       (Resolved (mkResponse true audio)) (Resolved tt))) p)
               = audios p ++ [playing]).
  { unfold exec, speakAnswer, bind, tryCatch, modify, gets, await, throw, ret.
    cbn. apply N.ltb_lt in Hsz. rewrite Hsz. cbn. apply setNth_last. }
  assert (Hh : UseVoiceRAG.audios (exec (UseVoiceRAG.processAudio blob
                    (UseVoiceRAG.mkCycleEnv
                       (Resolved (mkResponse true question))
                       (Resolved (mkResponse true (answerText, srcs)))
                       (Resolved (mkResponse true audio)) Pending)) h)
               = UseVoiceRAG.audios h ++ [playing]
               /\ UseVoiceRAG.state (exec (UseVoiceRAG.processAudio blob
                    (UseVoiceRAG.mkCycleEnv
                       (Resolved (mkResponse true question))
                       (Resolved (mkResponse true (answerText, srcs)))
                       (Resolved (mkResponse true audio)) Pending)) h)
                  = UseVoiceRAG.speaking).
  { unfold exec, UseVoiceRAG.processAudio, UseVoiceRAG.newAudio,
      UseVoiceRAG.setAudioStatus, bind, tryCatch, modify, gets, await,
      throw, ret.
    simpl. rewrite truthy_trim, Hq. simpl. split; [apply setNth_last|reflexivity]. }
  assert (Ht : UseVoiceRAG.audios (exec (UseVoiceRAG.askText question
                    (UseVoiceRAG.mkCycleEnv stt
                       (Resolved (mkResponse okRag (answerText, srcs)))
                       (Resolved (mkResponse okTts audio)) (Resolved tt))) h)
               = UseVoiceRAG.audios h ++ [playing]
               /\ UseVoiceRAG.state (exec (UseVoiceRAG.askText question
                    (UseVoiceRAG.mkCycleEnv stt
                       (Resolved (mkResponse okRag (answerText, srcs)))
                       (Resolved (mkResponse okTts audio)) (Resolved tt))) h)
                  = UseVoiceRAG.speaking).
  { unfold exec, UseVoiceRAG.askText, UseVoiceRAG.newAudio,
      UseVoiceRAG.setAudioStatus, bind, tryCatch, modify, gets, await,
      throw, ret.
    rewrite truthy_trim, Hq. simpl. split; [apply setNth_last|reflexivity]. }
  destruct Hh as [Hh Hst]. destruct Ht as [Ht Htst].
  split; [exact Hp|]. split.
  - unfold playingCount. rewrite Hp, filter_app, length_app. simpl. lia.
  - split; [exact Hh|]. split; [|split; [exact Hst|]].
    + unfold UseVoiceRAG.playingCount. rewrite Hh, filter_app, length_app.
      simpl. lia.
    + split; [exact Ht|]. split; [|exact Htst].
      unfold UseVoiceRAG.playingCount. rewrite Ht, filter_app, length_app.
      simpl. lia.
Qed.

Lemma playback_adds_a_stream_witness :
  0 < size (mkBlob 20480 (lit "audio/mpeg"))
  /\ blank Manual.question0 = false
  /\ audios (exec (speakAnswer closure0 Manual.answer0 (reply 3000 4000)) panelSpeaking)
     = audios panelSpeaking ++ [playing].
Proof.
  split; [reflexivity|]. split; [reflexivity|].
  apply (playback_adds_a_stream (mkBlob 20480 (lit "audio/mpeg")) closure0
           panelSpeaking
           Manual.answer0 (3000, 3000)%Z (4000, 4000)%Z Pending
           (Resolved (mkResponse true (lit "It has three services.", [])))
           Manual.hook0 Manual.recording0 Manual.question0 []
           Pending true true);
    reflexivity.
Defined.

(** C8, as stated, fails: the answer to the overheard question starts
    playing while the first answer is still playing, and nothing stops
    the first stream. *)
Lemma two_streams_play_at_once :
  audios panelSpeaking = [playing]
  /\ audios panelOverheard = [playing; playing]
  /\ playingCount panelOverheard = 2%nat.
Proof. vm_compute. repeat split; reflexivity. Qed.

End ChatPanel.

(** ** Blank transcripts and the widget's guards *)

Section Guards.

Import UseVoiceRAG VoicePanel Manual.

Ltac finish :=
  repeat match goal with
    | |- _ /\ _ => split
    | |- _ = _ -> _ => let Hx := fresh "Hx" in intros Hx; try discriminate Hx
    | |- _ = _ => reflexivity
    end.

(** C6.  A transcription result that is empty or white space only
    creates no entry and publishes nothing in the ambient listener, so
    the chat panel sends no query and shows no message; in the manual
    cycle it sends no retrieval query, leaves [error] as it was and
    returns the state to [idle]. *)
Theorem blank_transcript_is_dropped
    (heardText : jsstring) (l : UseAmbientListener.Listener) (tId tStamp : Z)
    (seen : bool) (c : AIChatPanel.Closure)
    (p : AIChatPanel.Panel) (qenv : AIChatPanel.QueryEnv)
    (h : Hook) (blob : Blob)
    (ragAns : Await (Response (jsstring * list SourceRef)))
    (tts : Await (Response Blob)) (play : Await unit) :
  blank heardText = true ->
  let res := Resolved (mkResponse true heardText) in
  let p' := AIChatPanel.listenerEvent seen c
              (UseAmbientListener.SttSettled res tId tStamp) qenv p in
  let h' := exec (processAudio blob (mkCycleEnv res ragAns tts play)) h in
  UseAmbientListener.transcribeChunk_resume res tId tStamp l = (l, None)
  /\ UseAmbientListener.entries (AIChatPanel.listener p')
     = UseAmbientListener.entries (AIChatPanel.listener p)
  /\ AIChatPanel.messages p' = AIChatPanel.messages p
  /\ AIChatPanel.fetches p' = AIChatPanel.fetches p
  /\ AIChatPanel.isThinking p' = AIChatPanel.isThinking p
  /\ state h' = idle
  /\ errorMsg h' = errorMsg h
  /\ answer h' = answer h
  /\ requests h' = requests h ++ [PostTranscribe blob (language (opts h))].
Proof.
  intros Hb. cbv zeta.
  assert (Hl : forall l0,
             UseAmbientListener.transcribeChunk_resume
               (Resolved (mkResponse true heardText)) tId tStamp l0 = (l0, None)).
  { intros l0. unfold UseAmbientListener.transcribeChunk_resume.
    cbn [ok body negb]. rewrite (trim_blank _ Hb). reflexivity. }
  split; [apply Hl|].
  unfold AIChatPanel.listenerEvent, UseAmbientListener.step.
  destruct (UseAmbientListener.sttInFlight (AIChatPanel.listener p)).
  - repeat split; try reflexivity.
    all: unfold exec, processAudio, bind, tryCatch, modify, gets, await,
           throw, ret; simpl; rewrite (trim_blank _ Hb); reflexivity.
  - rewrite Hl. repeat split; try reflexivity.
    all: unfold exec, processAudio, bind, tryCatch, modify, gets, await,
           throw, ret; simpl; rewrite (trim_blank _ Hb); reflexivity.
Qed.

Lemma blank_transcript_is_dropped_witness :
  blank (lit "   ") = true
  /\ state (exec (processAudio recording0 (cycle (lit "   ") Pending)) hook0)
     = idle.
Proof.
  split; [reflexivity|].
  apply (blank_transcript_is_dropped (lit "   ")
           Ambient.session5000 0%Z 0%Z true Chat.closure0 Chat.panelSpeaking
           (Chat.reply 0 0)
           hook0 recording0
           (Resolved (mkResponse true (answer0, [mkSource (lit "docs/arch.pdf") 91])))
           (Resolved (mkResponse true (mkBlob 20480 (lit "audio/mpeg"))))
           Pending).
  reflexivity.
Defined.

(** Starting a capture begins with a request for the microphone,
    however that request is settled. *)
Lemma startListening_requests_microphone (mic : Await unit) (h : Hook) :
  requests (exec (startListening mic) h) = requests h ++ [GetUserMedia].
Proof.
  unfold exec, startListening, bind, tryCatch, modify, gets, await, throw, ret.
  destruct mic as [|m|[]]; simpl; try reflexivity.
  destruct (supportsWebm h); reflexivity.
Qed.

(** C5 (as amended).  While the state is neither [idle] nor [error]
    a single click or submission starts no new cycle.  A text submission
    is rejected: the widget is left unchanged.  A click on the
    microphone button is never a capture start: it sends no request,
    opens no microphone, resets no output field and cannot bring the
    state to [listening]; in [thinking] it is ignored and the widget is
    left unchanged, in [listening] and [speaking] the button is the
    stop control of the running capture or playback, which does change
    the state. *)
Theorem busy_widget_starts_no_cycle
    (p : Panel) (mic : Await unit) (env : CycleEnv) :
  state (hook p) <> idle ->
  state (hook p) <> error ->
  let p' := handleMicClick mic p in
  handleTextAsk env p = p
  /\ requests (hook p') = requests (hook p)
  /\ streams (hook p') = streams (hook p)
  /\ answer (hook p') = answer (hook p)
  /\ transcript (hook p') = transcript (hook p)
  /\ errorMsg (hook p') = errorMsg (hook p)
  /\ (state (hook p') = listening -> state (hook p) = listening)
  /\ (state (hook p) = thinking -> p' = p)
  /\ (state (hook p) = listening -> p' = onHook stopListening p)
  /\ (state (hook p) = speaking -> p' = onHook stopSpeaking p).
Proof.
  intros Hi He. cbv zeta. unfold handleTextAsk, handleMicClick.
  destruct p as [input h]. cbn [hook textInput] in *.
  destruct (state h) eqn:Hs; try contradiction; cbn [VoiceState_eqb negb].
  - (* listening *)
    rewrite orb_true_r. split; [reflexivity|].
    unfold onHook, exec, stopListening, bind, modify, gets, ret.
    cbn [hook textInput].
    destruct (mediaRecorderRef h) as [rec|]; cbn.
    + destruct (isRecording (rstate rec)); cbn; finish.
    + finish.
  - (* thinking *)
    rewrite orb_true_r. split; [reflexivity|].
    finish. cbn in Hx. congruence.
  - (* speaking *)
    rewrite orb_true_r. split; [reflexivity|].
    unfold onHook, exec, stopSpeaking, setAudioStatus, bind, modify, gets, ret.
    cbn [hook textInput].
    destruct (audioRef h) as [n|]; cbn.
    + destruct (nth_error (audios h) n) as [[]|]; cbn; finish.
    + finish.
Qed.

Lemma busy_widget_starts_no_cycle_witness :
  state (hook (setTextInput question1 panelSpeaking)) <> idle
  /\ state (hook (setTextInput question1 panelSpeaking)) <> error
  /\ blank (textInput (setTextInput question1 panelSpeaking)) = false
  /\ handleTextAsk (cycle [] Pending) (setTextInput question1 panelSpeaking)
     = setTextInput question1 panelSpeaking.
Proof.
  assert (H1 : state (hook (setTextInput question1 panelSpeaking)) <> idle)
    by discriminate.
  assert (H2 : state (hook (setTextInput question1 panelSpeaking)) <> error)
    by discriminate.
  split; [exact H1|]. split; [exact H2|]. split; [reflexivity|].
  exact (proj1 (busy_widget_starts_no_cycle
                  (setTextInput question1 panelSpeaking) Pending
                  (cycle [] Pending) H1 H2)).
Defined.

(** C5, as stated, fails: the guard does not keep the widget to one
    answer cycle at a time, and a click outside [idle] and [error] can
    change the state.  While the cycle of a spoken question waits for
    the speech of its answer, the state is [speaking]; a click on the
    microphone button moves it to [idle] without ending that cycle, and
    the typed question is then accepted: its retrieval request is sent
    while the first cycle's speech request is still unanswered.  A
    typed question is accepted as well while a capture start waits for
    the microphone, since the state is still [idle] then. *)
Lemma second_cycle_starts_while_first_in_flight :
  let first := recorderTask (synthesizing question0) hookStopped in
  let clicked := handleMicClick Pending panelSynthesizing in
  let second := handleTextAsk unanswered clicked in
  let starting := handleMicClick Pending (mkPanel question1 hook0) in
  (fst first = Suspended /\ hook panelSynthesizing = snd first
   /\ state (hook panelSynthesizing) = speaking
   /\ requests (hook panelSynthesizing)
      = [GetUserMedia;
         PostTranscribe recording0 en;
         PostRagQuery (lit "session-1") (lit "slide-3") (lit "Architecture")
           (lit "The system has three services.") question0 en;
         PostSpeak answer0 en None])
  /\ (state (hook clicked) = idle
      /\ requests (hook clicked) = requests (hook panelSynthesizing))
  /\ (state (hook second) = thinking
      /\ transcript (hook second) = question1
      /\ requests (hook second)
         = requests (hook panelSynthesizing)
           ++ [PostRagQuery (lit "session-1") (lit "slide-3")
                 (lit "Architecture") (lit "The system has three services.")
                 question1 en])
  /\ (state (hook starting) = idle
      /\ requests (hook starting) = [GetUserMedia]
      /\ requests (hook (handleTextAsk unanswered starting))
         = [GetUserMedia;
            PostRagQuery (lit "session-1") (lit "slide-3") (lit "Architecture")
              (lit "The system has three services.") question1 en]).
Proof. vm_compute. repeat split; reflexivity. Qed.

End Guards.

(* ===================================================================== *)
(** * Further properties of the code *)
(* ===================================================================== *)

(** ** More on strings *)

Lemma trimStart_head (s : jsstring) :
  match trimStart s with
  | [] => True
  | c :: _ => isWhiteSpace c = false
  end.
Proof.
  induction s as [|c r IH]; simpl; [exact I|].
  destruct (isWhiteSpace c) eqn:Hc; [exact IH|exact Hc].
Qed.

Lemma trimStart_fixed (s : jsstring) :
  match s with [] => True | c :: _ => isWhiteSpace c = false end ->
  trimStart s = s.
Proof. destruct s as [|c r]; simpl; [reflexivity|]. intros ->. reflexivity. Qed.

Lemma trimStart_snoc (a : jsstring) (c : N) :
  isWhiteSpace c = false -> trimStart (a ++ [c]) = trimStart a ++ [c].
Proof.
  intros Hc. induction a as [|x a IH]; simpl.
  - rewrite Hc. reflexivity.
  - destruct (isWhiteSpace x); [exact IH|reflexivity].
Qed.

Lemma trimEnd_cons (c : N) (r : jsstring) :
  isWhiteSpace c = false -> trimEnd (c :: r) = c :: trimEnd r.
Proof.
  intros Hc. unfold trimEnd. simpl.
  rewrite (trimStart_snoc _ _ Hc), rev_app_distr. reflexivity.
Qed.

Lemma trimEnd_idempotent (s : jsstring) : trimEnd (trimEnd s) = trimEnd s.
Proof.
  unfold trimEnd. rewrite rev_involutive.
  rewrite (trimStart_fixed (trimStart (rev s))); [reflexivity|].
  apply trimStart_head.
Qed.

(** [trim] strips everything it can: trimming twice changes nothing. *)
Lemma trim_idempotent (s : jsstring) : trim (trim s) = trim s.
Proof.
  unfold trim. pose proof (trimStart_head s) as Hh.
  destruct (trimStart s) as [|c r]; [reflexivity|].
  rewrite (trimEnd_cons c r Hh).
  rewrite (trimStart_fixed (c :: trimEnd r) Hh).
  rewrite <- (trimEnd_cons c r Hh). apply trimEnd_idempotent.
Qed.

(** ** More on the ambient listener *)

Section AmbientHarvest.

Import UseAmbientListener Ambient AmbientSession.

Lemma nth_error_snoc {A} (l : list A) (x : A) :
  nth_error (l ++ [x]) (List.length l) = Some x.
Proof. induction l as [|a r IH]; simpl; [reflexivity|exact IH]. Qed.

Lemma nth_snoc_old {A} (l : list A) (x d : A) (i : nat) :
  nth i l d <> d -> nth i (l ++ [x]) d = nth i l d.
Proof.
  revert i. induction l as [|a r IH]; intros [|i] H; simpl in *;
    try (exfalso; apply H; reflexivity); auto.
Qed.

Lemma nth_error_snoc_old {A} (l : list A) (x y : A) (i : nat) :
  nth_error l i = Some y -> nth_error (l ++ [x]) i = Some y.
Proof.
  revert i. induction l as [|a r IH]; intros [|i] H; simpl in *;
    try discriminate; auto.
Qed.

(** A recorder that was just stopped through the ref is no longer seen
    as recording. *)
Lemma recorderStop_not_recording (r : nat) (l : Listener) :
  refIsRecording l = Some r -> refIsRecording (recorderStop r l) = None.
Proof.
  unfold refIsRecording, recorderStop.
  destruct (recorderRef l) as [r0|] eqn:Hr; [|discriminate].
  destruct (nth_error (recorders l) r0) as [rec|] eqn:Hrec; [|discriminate].
  destruct (isRecording (rstate rec)); [|discriminate].
  intros H. injection H as <-. rewrite Hrec.
  cbn [recorderRef setStopTasks setRecorders recorders]. rewrite Hr.
  rewrite (nth_error_setNth r0 _ _ _ Hrec). reflexivity.
Qed.

Lemma recorderStop_timers (r : nat) (l : Listener) :
  timers (recorderStop r l) = timers l.
Proof.
  unfold recorderStop. destruct (nth_error (recorders l) r); reflexivity.
Qed.

(** X2.  A harvest tick that fires again before the stopped recorder's
    task has run does nothing: the recorder is stopped once and one
    stop task is queued. *)
Theorem tick_idempotent (t : nat) (l : Listener) :
  tick t (tick t l) = tick t l.
Proof.
  remember (tick t l) as l1 eqn:E. unfold tick in E.
  destruct (nth t (timers l) false) eqn:Ht.
  - unfold harvestAndRestart in E.
    destruct (refIsRecording l) as [r|] eqn:Hr; subst l1.
    + unfold tick. rewrite recorderStop_timers, Ht.
      unfold harvestAndRestart.
      rewrite (recorderStop_not_recording r l Hr). reflexivity.
    + unfold tick. rewrite Ht. unfold harvestAndRestart. rewrite Hr.
      reflexivity.
  - subst l1. unfold tick. rewrite Ht. reflexivity.
Qed.

(** The updates a harvest tick makes in a capturing session. *)
Lemma tick_capturing
    (l : Listener) (t r s : nat) (mime : jsstring) (b : N) :
  capturing l t r s mime b ->
  nth t (timers l) false = true ->
  tick t l =
    setStopTasks [r]
      (setRecorders (setNth r (mkRecorder s mime inactive b) (recorders l)) l).
Proof.
  intros (Hi & Hr & Hrec & Hs & Hc & Ht) Hon.
  unfold tick. rewrite Hon.
  unfold harvestAndRestart, refIsRecording. rewrite Hr, Hrec.
  cbn [rstate isRecording]. unfold recorderStop. rewrite Hrec, Ht.
  reflexivity.
Qed.

(** X1.  The harvest loop keeps the session going: in a capturing
    session whose timer runs and whose stream is live, a tick followed
    by the recorder's stop task sends the harvested segment when it has
    at least 1000 bytes and leaves a capturing session again, with a
    fresh recorder on the same stream and an empty buffer. *)
Theorem harvest_keeps_capturing
    (l : Listener) (t r s : nat) (mime : jsstring) (b : N) :
  capturing l t r s mime b ->
  nth t (timers l) false = true ->
  streamActive s l = true ->
  let l' := recorderTask (tick t l) in
  capturing l' t (List.length (recorders l)) s (chooseMime l) 0
  /\ nth_error (recorders l') r = Some (mkRecorder s mime inactive b)
  /\ sttRequests l' =
       (if b <? 1000 then sttRequests l else sttRequests l ++ [segment mime b])
  /\ isListening l' = isListening l
  /\ entries l' = entries l.
Proof.
  intros Hcap Hon Hlive. cbv zeta.
  rewrite (tick_capturing l t r s mime b Hcap Hon).
  destruct Hcap as (Hi & Hr & Hrec & Hs & Hc & Ht).
  unfold recorderTask. cbn [stopTasks setStopTasks recorders setRecorders].
  rewrite (nth_error_setNth r _ _ (recorders l) Hrec).
  cbn [buffered rmime].
  set (l0 := setStopTasks [] _).
  assert (Hc0 : chunksRef l0 = []) by exact Hc.
  assert (Hs0 : streamRef l0 = Some s) by exact Hs.
  assert (Hi0 : intervalRef l0 = Some t) by exact Hi.
  assert (Hrecs0 : recorders l0
                   = setNth r (mkRecorder s mime inactive b) (recorders l))
    by reflexivity.
  assert (Hstr0 : streams l0 = streams l) by reflexivity.
  assert (Hreq0 : sttRequests l0 = sttRequests l) by reflexivity.
  assert (Hlis0 : isListening l0 = isListening l) by reflexivity.
  assert (Hent0 : entries l0 = entries l) by reflexivity.
  assert (Hopus0 : supportsOpus l0 = supportsOpus l) by reflexivity.
  assert (Hwebm0 : supportsWebm l0 = supportsWebm l) by reflexivity.
  assert (Htasks0 : stopTasks l0 = []) by reflexivity.
  clearbody l0.
  assert (Hnew : forall x,
             nth_error (recorders l0 ++ [x]) (List.length (recorders l)) = Some x).
  { intros x. rewrite Hrecs0.
    rewrite <- (length_setNth r (mkRecorder s mime inactive b) (recorders l)).
    apply nth_error_snoc. }
  assert (Hold : forall x,
             nth_error (recorders l0 ++ [x]) r
             = Some (mkRecorder s mime inactive b)).
  { intros x. apply nth_error_snoc_old. rewrite Hrecs0.
    apply (nth_error_setNth r _ _ _ Hrec). }
  assert (Hlen : List.length (recorders l0) = List.length (recorders l))
    by (rewrite Hrecs0; apply length_setNth).
  unfold ondataavailable, onstop, transcribeChunk, segment, newBlob,
    startRecorder, capturing, streamActive, chooseMime in *.
  cbn [size rstream rmime].
  destruct (0 <? b) eqn:Hb0.
  - cbn. rewrite Hc0. cbn. rewrite N.add_0_r.
    destruct (b <? 1000); cbn; rewrite Hs0, Hstr0, Hlive; cbn;
      rewrite Hopus0, Hwebm0, Hlen, Hnew, Hold, ?Hreq0;
      repeat split; auto.
  - apply N.ltb_ge in Hb0. assert (b = 0) by lia. subst b.
    cbn. rewrite Hc0. cbn. rewrite Hs0, Hstr0, Hlive. cbn.
    rewrite Hopus0, Hwebm0, Hlen, Hnew, Hold.
    repeat split; auto.
Qed.

End AmbientHarvest.

Section AmbientLog.

Import UseAmbientListener Ambient AmbientSession.

Lemma harvest_keeps_capturing_witness :
  capturing session5000 0 0 0 (lit "audio/webm;codecs=opus") 5000
  /\ nth 0 (timers session5000) false = true
  /\ streamActive 0 session5000 = true
  /\ capturing (recorderTask (tick 0 session5000)) 0 1 0
       (lit "audio/webm;codecs=opus") 0.
Proof.
  assert (H1 : capturing session5000 0 0 0 (lit "audio/webm;codecs=opus") 5000)
    by (repeat split; reflexivity).
  assert (H2 : nth 0 (timers session5000) false = true) by reflexivity.
  assert (H3 : streamActive 0 session5000 = true) by reflexivity.
  split; [exact H1|]. split; [exact H2|]. split; [exact H3|].
  exact (proj1 (harvest_keeps_capturing session5000 0 0 0
                  (lit "audio/webm;codecs=opus") 5000 H1 H2 H3)).
Defined.

(** X3.  What a settled speech-to-text request does: an entry is
    published exactly when the response is [ok] and its transcript is
    not blank; the entry's text is the trimmed transcript, non-empty and
    free of leading and trailing white space, and it is appended at the
    end of the log.  In every other case (request rejected, response not
    [ok], blank transcript) the listener is left as it was. *)
Theorem transcription_outcome
    (res : Await (Response jsstring)) (tId tStamp : Z) (l : Listener) :
  let r := transcribeChunk_resume res tId tStamp l in
  match snd r with
  | Some e =>
      (exists resp, res = Resolved resp /\ ok resp = true
                    /\ blank (body resp) = false
                    /\ text e = trim (body resp))
      /\ truthy (text e) = true /\ trim (text e) = text e
      /\ timestamp e = tStamp
      /\ entries (fst r) = entries l ++ [e]
      /\ idCounter (fst r) = idCounter l + 1
  | None =>
      fst r = l
      /\ (forall resp, res = Resolved resp ->
            ok resp = false \/ blank (body resp) = true)
  end.
Proof.
  cbv zeta. unfold transcribeChunk_resume.
  destruct res as [|m|resp]; cbn [snd fst].
  - split; [reflexivity|]. intros resp H. discriminate H.
  - split; [reflexivity|]. intros resp H. discriminate H.
  - destruct (ok resp) eqn:Hok; cbn [negb snd fst].
    + rewrite truthy_trim.
      destruct (blank (body resp)) eqn:Hb; cbn [negb snd fst].
      * split; [reflexivity|]. intros resp' H. injection H as <-. auto.
      * cbn [text timestamp].
        split; [exists resp; auto|].
        split; [rewrite truthy_trim, Hb; reflexivity|].
        split; [apply trim_idempotent|].
        repeat split; reflexivity.
    + split; [reflexivity|]. intros resp' H. injection H as <-. auto.
Qed.

(** A step other than clearing appends what it publishes to the log. *)
Lemma step_appends (e : Event) (l : Listener) :
  isClear e = false ->
  entries (fst (step e l))
  = entries l ++ match snd (step e l) with Some x => [x] | None => [] end.
Proof.
  intros Hclear. pose proof (step_emits e l) as He.
  destruct e; try discriminate Hclear; simpl in *;
    try (rewrite app_nil_r).
  - reflexivity.
  - unfold startListening_resume.
    destruct (micRequests l); [reflexivity|]. destruct granted; reflexivity.
  - unfold stopListening. simpl.
    repeat match goal with
      | |- context [match ?x with _ => _ end] => destruct x eqn:?; simpl
      | |- context [recorderStop ?r ?l] =>
          destruct (recorderStop_frame r l) as [_ ->]; simpl
      end; reflexivity.
  - unfold tick, harvestAndRestart.
    destruct (nth timer (timers l) false); [|reflexivity].
    destruct (refIsRecording l) as [r|]; [|reflexivity].
    apply recorderStop_frame.
  - reflexivity.
  - unfold recorderTask, onstop, ondataavailable, transcribeChunk.
    repeat match goal with
      | |- context [match ?x with _ => _ end] => destruct x eqn:?; simpl
      end; reflexivity.
  - destruct (sttInFlight l); [simpl; rewrite app_nil_r; reflexivity|].
    destruct res as [|m|r]; simpl; try (rewrite app_nil_r; reflexivity).
    destruct (ok r); simpl; [|rewrite app_nil_r; reflexivity].
    destruct (truthy (trim (body r))); simpl;
      [reflexivity|rewrite app_nil_r; reflexivity].
Qed.

(** X4.  The log is append-only and ordered: along a run in which the
    transcript is not cleared, the log at the end is the log at the
    start followed by the published entries, in the order of their
    publication. *)
Theorem log_is_publications (evs : list Event) (l : Listener) :
  forallb (fun e => negb (isClear e)) evs = true ->
  entries (fst (run evs l)) = entries l ++ snd (run evs l).
Proof.
  revert l. induction evs as [|e rest IH]; intros l H; simpl.
  - rewrite app_nil_r. reflexivity.
  - simpl in H. apply andb_true_iff in H as [He Hrest].
    apply negb_true_iff in He.
    pose proof (step_appends e l He) as Hs.
    destruct (step e l) as [l1 out]. simpl in Hs.
    specialize (IH l1 Hrest).
    destruct (run rest l1) as [l2 outs]. simpl in *.
    rewrite IH, Hs, <- app_assoc. destruct out; reflexivity.
Qed.

Lemma log_is_publications_witness :
  forallb (fun e => negb (isClear e))
    (Chat.listening ++ [Chat.heard (lit "And how does it scale?") 3000]) = true
  /\ List.length
       (entries (fst (run (Chat.listening
                            ++ [Chat.heard (lit "And how does it scale?") 3000])
                        (initial en true true)))) = 1%nat.
Proof.
  split; [reflexivity|].
  rewrite (log_is_publications
             (Chat.listening ++ [Chat.heard (lit "And how does it scale?") 3000])
             (initial en true true) eq_refl).
  reflexivity.
Defined.

End AmbientLog.

Section AmbientSessions.

Import UseAmbientListener Ambient AmbientSession.

Lemma nth_snoc_new {A} (l : list A) (x d : A) :
  nth (List.length l) (l ++ [x]) d = x.
Proof. induction l as [|a r IH]; simpl; [reflexivity|exact IH]. Qed.

(** A granted [startListening] sets up a capturing session on a new
    stream, a new recorder and a new timer, whatever was there before. *)
Lemma startListening_capturing (l : Listener) :
  stopTasks l = [] ->
  let l1 := startListening_resume true (startListening l) in
  capturing l1 (List.length (timers l)) (List.length (recorders l))
    (List.length (streams l)) (chooseMime l) 0
  /\ streams l1 = streams l ++ [true]
  /\ timers l1 = timers l ++ [true]
  /\ recorders l1
     = recorders l ++ [mkRecorder (List.length (streams l)) (chooseMime l) recording 0]
  /\ isListening l1 = true
  /\ sttRequests l1 = sttRequests l /\ entries l1 = entries l
  /\ idCounter l1 = idCounter l /\ micRequests l1 = micRequests l
  /\ supportsOpus l1 = supportsOpus l /\ supportsWebm l1 = supportsWebm l.
Proof.
  intros Ht. cbv zeta. unfold startListening_resume, startListening.
  cbn [micRequests setMicRequests]. unfold capturing.
  repeat split; try reflexivity.
  - cbn. apply nth_error_snoc.
  - exact Ht.
Qed.

(** What the stop task of a recorder does once [stopListening] has
    cleared the stream ref: the segment goes to [transcribeChunk] and no
    recorder is started. *)
Lemma recorderTask_after_stop
    (l : Listener) (r s : nat) (mime : jsstring) (b : N) :
  stopTasks l = [r] ->
  nth_error (recorders l) r = Some (mkRecorder s mime inactive b) ->
  chunksRef l = [] ->
  streamRef l = None ->
  let l' := recorderTask l in
  sttRequests l' =
    (if b <? 1000 then sttRequests l else sttRequests l ++ [segment mime b])
  /\ stopTasks l' = [] /\ chunksRef l' = []
  /\ recorders l' = recorders l /\ streams l' = streams l
  /\ timers l' = timers l
  /\ isListening l' = isListening l /\ streamRef l' = None
  /\ recorderRef l' = recorderRef l /\ intervalRef l' = intervalRef l
  /\ entries l' = entries l /\ idCounter l' = idCounter l.
Proof.
  intros Ht Hrec Hc Hs. cbv zeta. unfold recorderTask. rewrite Ht.
  cbn [recorders setStopTasks]. rewrite Hrec. cbn [buffered rmime].
  unfold ondataavailable, onstop, transcribeChunk, segment, newBlob.
  cbn [size].
  destruct (0 <? b) eqn:Hb0.
  - cbn. rewrite Hc. cbn. rewrite N.add_0_r.
    destruct (b <? 1000); cbn; rewrite Hs; repeat split; cbn; auto.
  - apply N.ltb_ge in Hb0. assert (b = 0) by lia. subst b.
    cbn. rewrite Hc. cbn. rewrite Hs. repeat split; cbn; auto.
Qed.

(** X5.  [startListening] is not guarded: called while a session is
    capturing it opens a second stream, recorder and timer and moves the
    refs to them.  A later [stopListening] releases the second session
    only: the first stream stays live, the first timer keeps running
    (its ticks do nothing any more) and the first recorder keeps
    recording. *)
Theorem second_start_orphans_session
    (l : Listener) (t r s : nat) (mime : jsstring) (b : N) :
  capturing l t r s mime b ->
  nth t (timers l) false = true ->
  streamActive s l = true ->
  let l1 := startListening_resume true (startListening l) in
  let l2 := stopListening l1 in
  (streamRef l1 = Some (List.length (streams l))
   /\ recorderRef l1 = Some (List.length (recorders l))
   /\ intervalRef l1 = Some (List.length (timers l)))
  /\ (isListening l2 = false /\ streamRef l2 = None
      /\ recorderRef l2 = None /\ intervalRef l2 = None)
  /\ (streamActive (List.length (streams l)) l2 = false
      /\ nth (List.length (timers l)) (timers l2) false = false)
  /\ (streamActive s l2 = true
      /\ nth t (timers l2) false = true
      /\ nth_error (recorders l2) r = Some (mkRecorder s mime recording b)
      /\ tick t l2 = l2).
Proof.
  intros (Hi & Hr & Hrec & Hs & Hc & Ht) Hon Hlive. cbv zeta.
  destruct (startListening_capturing l Ht)
    as (Hcap1 & Hstr1 & Htm1 & Hrecs1 & _).
  set (l1 := startListening_resume true (startListening l)) in *.
  pose proof (stopListening_capturing l1 _ _ _ _ _ Hcap1) as Hl2.
  destruct Hcap1 as (Hi1 & Hr1 & _ & Hs1 & _).
  clearbody l1.
  assert (Hstr2 : streams (stopListening l1) = streams l ++ [false])
    by (rewrite Hl2; cbn; rewrite Hstr1; apply setNth_last).
  assert (Htm2 : timers (stopListening l1) = timers l ++ [false])
    by (rewrite Hl2; cbn; rewrite Htm1; apply setNth_last).
  assert (Hrecs2 : recorders (stopListening l1)
                   = recorders l
                       ++ [mkRecorder (List.length (streams l)) (chooseMime l)
                             inactive 0])
    by (rewrite Hl2; cbn; rewrite Hrecs1; apply setNth_last).
  assert (Hrr2 : recorderRef (stopListening l1) = None)
    by (rewrite Hl2; reflexivity).
  split; [auto|].
  split; [rewrite Hl2; repeat split; reflexivity|].
  unfold streamActive in *.
  split; [rewrite Hstr2, Htm2; split; apply nth_snoc_new|].
  assert (Hon2 : nth t (timers (stopListening l1)) false = true).
  { rewrite Htm2, nth_snoc_old; [exact Hon|]. rewrite Hon. discriminate. }
  split; [rewrite Hstr2, nth_snoc_old; [exact Hlive|]; rewrite Hlive; discriminate|].
  split; [exact Hon2|].
  split; [rewrite Hrecs2; apply nth_error_snoc_old; exact Hrec|].
  unfold tick. rewrite Hon2. unfold harvestAndRestart, refIsRecording.
  rewrite Hrr2. reflexivity.
Qed.

Lemma second_start_orphans_session_witness :
  capturing session5000 0 0 0 (lit "audio/webm;codecs=opus") 5000
  /\ nth 0 (timers session5000) false = true
  /\ streamActive 0 session5000 = true
  /\ streamActive 0
       (stopListening (startListening_resume true (startListening session5000)))
     = true.
Proof.
  assert (H1 : capturing session5000 0 0 0 (lit "audio/webm;codecs=opus") 5000)
    by (repeat split; reflexivity).
  assert (H2 : nth 0 (timers session5000) false = true) by reflexivity.
  assert (H3 : streamActive 0 session5000 = true) by reflexivity.
  split; [exact H1|]. split; [exact H2|]. split; [exact H3|].
  exact (proj1 (proj2 (proj2 (proj2
           (second_start_orphans_session session5000 0 0 0
              (lit "audio/webm;codecs=opus") 5000 H1 H2 H3))))).
Defined.

End AmbientSessions.

Section AmbientRoundTrip.

Import UseAmbientListener Ambient AmbientSession.

(** Captured audio goes to the recorder of the running session only. *)
Lemma audioData_session
    (l1 : Listener) (recs : list MediaRecorder) (s : nat) (mime : jsstring)
    (n : N) :
  recorders l1 = recs ++ [mkRecorder s mime recording 0] ->
  Forall (fun rec => isRecording (rstate rec) = false) recs ->
  streamActive s l1 = true ->
  recorders (audioData n l1) = recs ++ [mkRecorder s mime recording n].
Proof.
  intros Hrecs Hidle Hlive. unfold audioData.
  cbn [recorders setRecorders]. rewrite Hrecs, map_app. f_equal.
  - clear Hrecs.
    induction Hidle as [|rec rest Hrec _ IH]; simpl; [reflexivity|].
    rewrite Hrec, IH. reflexivity.
  - simpl. rewrite Hlive. reflexivity.
Qed.

(** Capturing [n] bytes in a fresh session fills its recorder's buffer
    and changes nothing else. *)
Lemma audioData_capturing
    (l1 : Listener) (recs : list MediaRecorder) (t s : nat) (mime : jsstring)
    (n : N) :
  capturing l1 t (List.length recs) s mime 0 ->
  recorders l1 = recs ++ [mkRecorder s mime recording 0] ->
  Forall (fun rec => isRecording (rstate rec) = false) recs ->
  streamActive s l1 = true ->
  capturing (audioData n l1) t (List.length recs) s mime n
  /\ recorders (audioData n l1) = recs ++ [mkRecorder s mime recording n].
Proof.
  intros (Hi & Hr & Hrec & Hs & Hc & Ht) Hrecs Hidle Hlive.
  pose proof (audioData_session l1 recs s mime n Hrecs Hidle Hlive) as Ha.
  split; [|exact Ha].
  unfold capturing. rewrite Ha.
  repeat split; try assumption. apply nth_error_snoc.
Qed.

(** What [stopListening] leaves of a capturing session. *)
Lemma stopListening_released
    (l : Listener) (t r s : nat) (mime : jsstring) (b : N) :
  capturing l t r s mime b ->
  let l' := stopListening l in
  recorders l' = setNth r (mkRecorder s mime inactive b) (recorders l)
  /\ streams l' = setNth s false (streams l)
  /\ timers l' = setNth t false (timers l)
  /\ stopTasks l' = [r] /\ chunksRef l' = []
  /\ streamRef l' = None /\ recorderRef l' = None /\ intervalRef l' = None
  /\ isListening l' = false
  /\ sttRequests l' = sttRequests l /\ entries l' = entries l
  /\ idCounter l' = idCounter l.
Proof.
  intros Hcap. cbv zeta. rewrite (stopListening_capturing _ _ _ _ _ _ Hcap).
  destruct Hcap as (_ & _ & _ & _ & Hc & _).
  repeat split; try reflexivity. exact Hc.
Qed.

(** X6.  One session leaves nothing behind: on a listener with no live
    stream, running timer or recording recorder, clicking Listen,
    capturing [n] bytes, clicking Stop and letting the recorder's stop
    task run ends with every stream ended, every timer cancelled, no
    recorder recording and the refs cleared.  The captured audio was
    sent to speech-to-text exactly when it had at least 1000 bytes, and
    the log and the id counter are untouched. *)
Theorem session_releases_everything (n : N) (l : Listener) :
  quiet l ->
  let l' := oneSession n l in
  quiet l'
  /\ sttRequests l' =
       (if n <? 1000 then sttRequests l
        else sttRequests l ++ [segment (chooseMime l) n])
  /\ entries l' = entries l
  /\ idCounter l' = idCounter l.
Proof.
  intros (Hlis & Hsr & Hrr & Hir & Hc & Ht & Fs & Ft & Fr). cbv zeta.
  unfold oneSession.
  pose proof (startListening_capturing l Ht) as H1. cbv zeta in H1.
  destruct H1 as (Hcap1 & Hstr1 & Htm1 & Hrecs1 & _ & Hreq1 & Hent1 & Hid1 & _).
  generalize dependent (startListening_resume true (startListening l)).
  intros l1 Hcap1 Hstr1 Htm1 Hrecs1 Hreq1 Hent1 Hid1.
  assert (Hlive1 : streamActive (List.length (streams l)) l1 = true)
    by (unfold streamActive; rewrite Hstr1; apply nth_snoc_new).
  destruct (audioData_capturing l1 _ _ _ _ n Hcap1 Hrecs1 Fr Hlive1)
    as (Hcapa & Hrecsa).
  assert (Hstra : streams (audioData n l1) = streams l ++ [true])
    by exact Hstr1.
  assert (Htma : timers (audioData n l1) = timers l ++ [true])
    by exact Htm1.
  assert (Hreqa : sttRequests (audioData n l1) = sttRequests l)
    by exact Hreq1.
  assert (Henta : entries (audioData n l1) = entries l) by exact Hent1.
  assert (Hida : idCounter (audioData n l1) = idCounter l) by exact Hid1.
  clear Hcap1 Hrecs1 Hlive1 Hstr1 Htm1 Hreq1 Hent1 Hid1.
  generalize dependent (audioData n l1).
  intros la Hcapa Hrecsa Hstra Htma Hreqa Henta Hida.
  pose proof (stopListening_released la _ _ _ _ _ Hcapa) as H2.
  cbv zeta in H2.
  destruct H2 as (Hrecs2 & Hstr2 & Htm2 & Ht2 & Hc2 & Hs2 & Hrr2 & Hi2
                  & Hlis2 & Hreq2 & Hent2 & Hid2).
  rewrite Hrecsa, setNth_last in Hrecs2.
  rewrite Hstra, setNth_last in Hstr2.
  rewrite Htma, setNth_last in Htm2.
  rewrite Hreqa in Hreq2. rewrite Henta in Hent2. rewrite Hida in Hid2.
  clear Hcapa Hrecsa Hstra Htma Hreqa Henta Hida.
  generalize dependent (stopListening la).
  intros l2 Hrecs2 Hstr2 Htm2 Ht2 Hc2 Hs2 Hrr2 Hi2 Hlis2 Hreq2 Hent2 Hid2.
  assert (Hrec2 : nth_error (recorders l2) (List.length (recorders l))
                  = Some (mkRecorder (List.length (streams l)) (chooseMime l)
                            inactive n))
    by (rewrite Hrecs2; apply nth_error_snoc).
  pose proof (recorderTask_after_stop l2 _ _ _ _ Ht2 Hrec2 Hc2 Hs2) as H3.
  cbv zeta in H3.
  destruct H3 as (Hreq3 & Ht3 & Hc3 & Hrecs3 & Hstr3 & Htm3 & Hlis3 & Hs3
                  & Hrr3 & Hi3 & Hent3 & Hid3).
  split; [|split; [|split]].
  - unfold quiet.
    rewrite Hlis3, Hs3, Hrr3, Hi3, Hc3, Ht3, Hstr3, Htm3, Hrecs3,
      Hlis2, Hrr2, Hi2, Hstr2, Htm2, Hrecs2.
    repeat split; try reflexivity;
      apply Forall_app; split; try assumption;
      constructor; try reflexivity; constructor.
  - rewrite Hreq3, Hreq2. reflexivity.
  - rewrite Hent3. exact Hent2.
  - rewrite Hid3. exact Hid2.
Qed.

Lemma session_releases_everything_witness :
  quiet (initial en true true)
  /\ quiet (oneSession 5000 (initial en true true)).
Proof.
  assert (H : quiet (initial en true true))
    by (repeat split; constructor).
  split; [exact H|].
  exact (proj1 (session_releases_everything 5000 (initial en true true) H)).
Defined.

End AmbientRoundTrip.

(** ** More on the chat panel *)

Section ChatQueries.

Import UseAmbientListener AIChatPanel Chat ChatQuery.

Ltac run_query :=
  unfold exec, queryAI, askWeb, askRag, speakAnswer, bind, tryCatch, modify,
    gets, await, throw, ret.

Ltac cases :=
  repeat match goal with
    | |- context [match ?x with _ => _ end] => destruct x eqn:?; simpl
    end.

(** On a question that is not blank [queryAI] returns or is suspended. *)
Lemma queryAI_catches
    (c : Closure) (question : jsstring) (src : QuerySource) (env : QueryEnv)
    (p : Panel) :
  blank question = false ->
  match fst (queryAI c question src env p) with
  | Threw _ => False
  | _ => True
  end.
Proof.
  intros Hq. run_query. rewrite truthy_trim, Hq. cbn [negb].
  destruct env as [tU search rag0 tR tts play].
  destruct (c_useWebSearch c); simpl.
  - destruct search as [|m|[[] [a srcs]]]; simpl; auto.
    destruct tts as [|m|[[] audio]]; simpl; auto.
    destruct (0 <? size audio); simpl; auto.
    destruct play as [|m|[]]; simpl; auto.
  - destruct rag0 as [|m|[[] [a srcs]]]; simpl; auto.
    destruct tts as [|m|[[] audio]]; simpl; auto.
    destruct (0 <? size audio); simpl; auto.
    destruct play as [|m|[]]; simpl; auto.
Qed.

(** X7.  [queryAI] catches everything: whatever the services answer it
    never throws.  A blank question changes nothing.  For any other
    question [isThinking] is false again when [queryAI] returns and is
    true while it is suspended at a pending request.  [queryAI] never
    writes [isThinkingRef]. *)
Theorem queryAI_never_throws
    (c : Closure) (question : jsstring) (src : QuerySource) (env : QueryEnv)
    (p : Panel) :
  match queryAI c question src env p with
  | (Done _, p') =>
      ((blank question = true /\ p' = p)
       \/ (blank question = false /\ isThinking p' = false))
      /\ isThinkingRef p' = isThinkingRef p
  | (Suspended, p') =>
      isThinking p' = true /\ isThinkingRef p' = isThinkingRef p
  | (Threw _, _) => False
  end.
Proof.
  destruct (blank question) eqn:Hq.
  - unfold queryAI. rewrite truthy_trim, Hq. cbn [negb].
    split; [left; split; reflexivity|reflexivity].
  - pose proof (queryAI_catches c question src env p Hq) as Hc.
    pose proof (queryAI_thinking c question src env p Hq) as Ht.
    pose proof (queryAI_keeps_ref c question src env p) as Hr.
    unfold exec in Ht, Hr.
    destruct (queryAI c question src env p) as [[u|e|] p'];
      cbn [fst snd] in Hc, Ht, Hr.
    + split; [right; split; [reflexivity|exact Ht]|exact Hr].
    + exact Hc.
    + split; [exact Ht|exact Hr].
Qed.

Ltac one_request :=
  eexists;
  (split; [|first [ split; reflexivity
                  | rewrite <- ?app_assoc; reflexivity ]]);
  reflexivity.

(** X8.  A speech request is sent exactly when an answer was retrieved,
    and it carries that answer: a non-blank question makes one retrieval
    request, followed by the speech request for the retrieved answer if
    there is one and by nothing otherwise. *)
Theorem queryAI_speaks_only_answers
    (c : Closure) (question : jsstring) (src : QuerySource) (env : QueryEnv)
    (p : Panel) :
  blank question = false ->
  let p' := exec (queryAI c question src env) p in
  exists r, isSpeak r = false
    /\ match retrieval c env with
       | Answered answer =>
           fetches p' = fetches p
                          ++ [r; PostSpeak answer (c_language c) (c_clonedVoiceId c)]
       | Failed | StillPending =>
           fetches p' = fetches p ++ [r] /\ audios p' = audios p
       end.
Proof.
  intros Hq. cbv zeta.
  destruct env as [tU search rag0 tR tts play].
  unfold retrieval, settled. cbn [searchRes ragRes].
  run_query. rewrite truthy_trim, Hq. cbn [negb].
  destruct (c_useWebSearch c).
  - destruct search as [|m|[[] [a srcs]]]; cbn -[lit app]; try one_request.
    destruct tts as [|m|[[] audio]]; cbn -[lit app]; try one_request.
    destruct (0 <? size audio); cbn -[lit app]; try one_request.
    destruct play as [|m|[]]; cbn -[lit app]; one_request.
  - destruct rag0 as [|m|[[] [a srcs]]]; cbn -[lit app]; try one_request.
    destruct tts as [|m|[[] audio]]; cbn -[lit app]; try one_request.
    destruct (0 <? size audio); cbn -[lit app]; try one_request.
    destruct play as [|m|[]]; cbn -[lit app]; one_request.
Qed.

Lemma queryAI_speaks_only_answers_witness :
  blank (lit "And how does it scale?") = false
  /\ let p' := exec (queryAI closure0 (lit "And how does it scale?") typed
                      (reply 3000 4000)) panel0 in
     exists r, isSpeak r = false
       /\ match retrieval closure0 (reply 3000 4000) with
          | Answered answer =>
              fetches p' = fetches panel0
                             ++ [r; PostSpeak answer (c_language closure0)
                                      (c_clonedVoiceId closure0)]
          | Failed | StillPending =>
              fetches p' = fetches panel0 ++ [r] /\ audios p' = audios panel0
          end.
Proof.
  assert (H : blank (lit "And how does it scale?") = false) by reflexivity.
  split; [exact H|].
  exact (queryAI_speaks_only_answers closure0 (lit "And how does it scale?")
           typed (reply 3000 4000) panel0 H).
Defined.

Ltac one_reply :=
  first [ reflexivity
        | eexists; split; [reflexivity|]; repeat split; reflexivity ].

(** X9.  Every question gets exactly one reply in the chat: a non-blank
    question is shown at once; when retrieval fails the apology follows
    it, and when retrieval succeeds the answer follows it, whatever
    happens to speech synthesis and playback afterwards.  While
    retrieval is pending only the question is shown. *)
Theorem queryAI_replies_once
    (c : Closure) (question : jsstring) (src : QuerySource) (env : QueryEnv)
    (p : Panel) :
  blank question = false ->
  let p' := exec (queryAI c question src env) p in
  match retrieval c env with
  | StillPending => messages p' = messages p ++ [userMsg question src env]
  | Failed =>
      exists m, messages p' = messages p ++ [userMsg question src env; m]
        /\ role m = ai /\ mtext m = apology
        /\ msources m = None /\ mtype m = None
  | Answered answer =>
      exists m, messages p' = messages p ++ [userMsg question src env; m]
        /\ role m = ai /\ mtext m = answer
        /\ mtype m = Some (if c_useWebSearch c then web_search else rag)
  end.
Proof.
  intros Hq. cbv zeta.
  destruct env as [tU search rag0 tR tts play].
  unfold retrieval, settled, userMsg, apology. cbn [searchRes ragRes tUser].
  run_query. rewrite truthy_trim, Hq. cbn [negb].
  destruct (c_useWebSearch c).
  - destruct search as [|m|[[] [a srcs]]]; cbn -[lit app];
      rewrite <- ?app_assoc; try one_reply.
    destruct tts as [|m|[[] audio]]; cbn -[lit app];
      rewrite <- ?app_assoc; try one_reply.
    destruct (0 <? size audio); cbn -[lit app];
      rewrite <- ?app_assoc; try one_reply.
    destruct play as [|m|[]]; cbn -[lit app];
      rewrite <- ?app_assoc; one_reply.
  - destruct rag0 as [|m|[[] [a srcs]]]; cbn -[lit app];
      rewrite <- ?app_assoc; try one_reply.
    destruct tts as [|m|[[] audio]]; cbn -[lit app];
      rewrite <- ?app_assoc; try one_reply.
    destruct (0 <? size audio); cbn -[lit app];
      rewrite <- ?app_assoc; try one_reply.
    destruct play as [|m|[]]; cbn -[lit app];
      rewrite <- ?app_assoc; one_reply.
Qed.

Lemma queryAI_replies_once_witness :
  blank (lit "And how does it scale?") = false
  /\ let p' := exec (queryAI closure0 (lit "And how does it scale?") typed
                      (reply 3000 4000)) panel0 in
     match retrieval closure0 (reply 3000 4000) with
     | StillPending =>
         messages p' = messages panel0
                         ++ [userMsg (lit "And how does it scale?") typed
                               (reply 3000 4000)]
     | Failed =>
         exists m, messages p' = messages panel0
                                   ++ [userMsg (lit "And how does it scale?") typed
                                         (reply 3000 4000); m]
           /\ role m = ai /\ mtext m = apology
           /\ msources m = None /\ mtype m = None
     | Answered answer =>
         exists m, messages p' = messages panel0
                                   ++ [userMsg (lit "And how does it scale?") typed
                                         (reply 3000 4000); m]
           /\ role m = ai /\ mtext m = answer
           /\ mtype m = Some (if c_useWebSearch closure0 then web_search else rag)
     end.
Proof.
  assert (H : blank (lit "And how does it scale?") = false) by reflexivity.
  split; [exact H|].
  exact (queryAI_replies_once closure0 (lit "And how does it scale?")
           typed (reply 3000 4000) panel0 H).
Defined.

Lemma sliceLast_app {A} (n : nat) (older recent : list A) :
  (n <= List.length recent)%nat ->
  sliceLast n (older ++ recent) = sliceLast n recent.
Proof.
  intros H. unfold sliceLast. rewrite length_app, skipn_app.
  rewrite (skipn_all2 older) by lia. cbn [app].
  replace (List.length older + List.length recent - n - List.length older)%nat
    with (List.length recent - n)%nat by lia.
  reflexivity.
Qed.

Lemma sliceLast_nil {A} (n : nat) (l : list A) :
  (0 < n)%nat -> sliceLast n l = [] -> l = [].
Proof.
  intros Hn H. unfold sliceLast in H.
  destruct l as [|x r]; [reflexivity|].
  apply (f_equal (@List.length A)) in H. rewrite length_skipn in H.
  cbn [List.length] in H. lia.
Qed.

(** X10.  Only the last ten transcript entries can reach a query: a
    [queryAI] instance whose log has at least ten entries behaves the
    same whatever entries come before them. *)
Theorem discussion_window
    (c : Closure) (older recent : list TranscriptEntry)
    (question : jsstring) (src : QuerySource) (env : QueryEnv) (p : Panel) :
  (10 <= List.length recent)%nat ->
  queryAI (withEntries c (older ++ recent)) question src env p
  = queryAI (withEntries c recent) question src env p.
Proof.
  intros H.
  assert (Hctx : getDiscussionContext (withEntries c (older ++ recent))
                 = getDiscussionContext (withEntries c recent)).
  { unfold getDiscussionContext, withEntries. cbn [c_entries].
    rewrite (sliceLast_app 10 older recent H). reflexivity. }
  unfold queryAI, askRag, askWeb, speakAnswer. rewrite Hctx. reflexivity.
Qed.

Lemma discussion_window_witness :
  (10 <= List.length (repeat (mkEntry (lit "t-7-1") (lit "Costs matter.") 7) 10))%nat
  /\ queryAI (withEntries closure0
                ([mkEntry (lit "t-1-0") (lit "Welcome everyone.") 1]
                 ++ repeat (mkEntry (lit "t-7-1") (lit "Costs matter.") 7) 10))
       (lit "And how does it scale?") typed (reply 3000 4000) panel0
     = queryAI (withEntries closure0
                  (repeat (mkEntry (lit "t-7-1") (lit "Costs matter.") 7) 10))
         (lit "And how does it scale?") typed (reply 3000 4000) panel0.
Proof.
  assert (H : (10 <= List.length
                       (repeat (mkEntry (lit "t-7-1") (lit "Costs matter.") 7) 10))%nat)
    by (simpl; lia).
  split; [exact H|].
  exact (discussion_window closure0
           [mkEntry (lit "t-1-0") (lit "Welcome everyone.") 1]
           (repeat (mkEntry (lit "t-7-1") (lit "Costs matter.") 7) 10)
           (lit "And how does it scale?") typed (reply 3000 4000) panel0 H).
Defined.

(** X11.  In web-search mode the ambient transcript never reaches the
    query: [queryAI] behaves the same whatever the log holds. *)
Theorem web_search_ignores_transcript
    (c : Closure) (log : list TranscriptEntry)
    (question : jsstring) (src : QuerySource) (env : QueryEnv) (p : Panel) :
  c_useWebSearch c = true ->
  queryAI (withEntries c log) question src env p = queryAI c question src env p.
Proof.
  intros H. unfold queryAI, withEntries. cbn [c_useWebSearch]. rewrite H.
  reflexivity.
Qed.

Lemma web_search_ignores_transcript_witness :
  c_useWebSearch (currentClosure (setUseWebSearch true panel0)) = true
  /\ queryAI (withEntries (currentClosure (setUseWebSearch true panel0))
                [mkEntry (lit "t-1-0") (lit "Welcome everyone.") 1])
       (lit "And how does it scale?") typed (reply 3000 4000) panel0
     = queryAI (currentClosure (setUseWebSearch true panel0))
         (lit "And how does it scale?") typed (reply 3000 4000) panel0.
Proof.
  assert (H : c_useWebSearch (currentClosure (setUseWebSearch true panel0)) = true)
    by reflexivity.
  split; [exact H|].
  exact (web_search_ignores_transcript
           (currentClosure (setUseWebSearch true panel0))
           [mkEntry (lit "t-1-0") (lit "Welcome everyone.") 1]
           (lit "And how does it scale?") typed (reply 3000 4000) panel0 H).
Defined.

(** X12.  What the RAG request carries: the first request of a
    non-blank question in RAG mode is the RAG query for that question,
    untrimmed, with the closure's session, slide and tone.  Its slide
    context is the slide context itself when the transcript log is
    empty, and the slide context followed by the discussion block when
    the log has an entry. *)
Theorem rag_request_context
    (c : Closure) (question : jsstring) (src : QuerySource) (env : QueryEnv)
    (p : Panel) :
  c_useWebSearch c = false ->
  blank question = false ->
  let p' := exec (queryAI c question src env) p in
  exists ctx rest,
    fetches p' = fetches p
                   ++ PostRagQuery (c_sessionId c) (c_slideId c) (c_slideTitle c)
                        ctx question (c_language c) (c_customTone c) :: rest
    /\ (c_entries c = [] -> ctx = c_slideContext c)
    /\ (c_entries c <> [] ->
        exists more, more <> [] /\ ctx = c_slideContext c ++ more).
Proof.
  intros Hweb Hq. cbv zeta.
  assert (Hctx : (c_entries c = [] -> getDiscussionContext c = [])
                 /\ (c_entries c <> [] -> truthy (getDiscussionContext c) = true)).
  { unfold getDiscussionContext. split.
    - intros ->. reflexivity.
    - intros Hne. destruct (sliceLast 10 (c_entries c)) eqn:Hs; [|reflexivity].
      apply sliceLast_nil in Hs; [contradiction|lia]. }
  destruct Hctx as [Hnil Hsome].
  destruct env as [tU search rag0 tR tts play].
  run_query. rewrite truthy_trim, Hq, Hweb. cbn [negb ragRes].
  generalize dependent (getDiscussionContext c). intros d Hnil Hsome.
  eexists.
  assert (Hshape :
            (c_entries c = [] ->
             (if truthy d
              then c_slideContext c ++ [10; 10] ++ lit "--- Ongoing Discussion ---"
                     ++ [10] ++ d
              else c_slideContext c) = c_slideContext c)
            /\ (c_entries c <> [] ->
                exists more, more <> []
                  /\ (if truthy d
                      then c_slideContext c ++ [10; 10]
                             ++ lit "--- Ongoing Discussion ---" ++ [10] ++ d
                      else c_slideContext c) = c_slideContext c ++ more)).
  { split.
    - intros H. rewrite (Hnil H). reflexivity.
    - intros H. rewrite (Hsome H). eexists. split; [|reflexivity]. discriminate. }
  destruct rag0 as [|m|[[] [a srcs]]]; cbn -[lit app];
    try (eexists; split; [rewrite <- ?app_assoc; reflexivity|exact Hshape]).
  destruct tts as [|m|[[] audio]]; cbn -[lit app];
    try (eexists; split; [rewrite <- ?app_assoc; reflexivity|exact Hshape]).
  destruct (0 <? size audio); cbn -[lit app];
    try (eexists; split; [rewrite <- ?app_assoc; reflexivity|exact Hshape]).
  destruct play as [|m|[]]; cbn -[lit app];
    (eexists; split; [rewrite <- ?app_assoc; reflexivity|exact Hshape]).
Qed.

Lemma rag_request_context_witness :
  c_useWebSearch closure0 = false
  /\ blank (lit "And how does it scale?") = false
  /\ let p' := exec (queryAI closure0 (lit "And how does it scale?") typed
                      (reply 3000 4000)) panel0 in
     exists ctx rest,
       fetches p' = fetches panel0
                      ++ PostRagQuery (c_sessionId closure0) (c_slideId closure0)
                           (c_slideTitle closure0) ctx
                           (lit "And how does it scale?") (c_language closure0)
                           (c_customTone closure0) :: rest
       /\ (c_entries closure0 = [] -> ctx = c_slideContext closure0)
       /\ (c_entries closure0 <> [] ->
           exists more, more <> [] /\ ctx = c_slideContext closure0 ++ more).
Proof.
  assert (H1 : c_useWebSearch closure0 = false) by reflexivity.
  assert (H2 : blank (lit "And how does it scale?") = false) by reflexivity.
  split; [exact H1|]. split; [exact H2|].
  exact (rag_request_context closure0 (lit "And how does it scale?") typed
           (reply 3000 4000) panel0 H1 H2).
Defined.

(** X13.  A web source always has a label: the name shown for it is
    never empty.  It is the source itself when that is non-empty, and
    otherwise the title or, failing that too, the word Web. *)
Theorem webSourceName_never_empty (s : WebSource) :
  truthy (webSourceName s) = true
  /\ (truthy (wsource s) = true -> webSourceName s = wsource s)
  /\ (truthy (wsource s) = false -> wtitle s = None -> webSourceName s = lit "Web").
Proof.
  unfold webSourceName. destruct (truthy (wsource s)) eqn:Hs.
  - split; [exact Hs|]. split; [reflexivity|discriminate].
  - split; [|split; [discriminate|intros _ ->; reflexivity]].
    destruct (wtitle s) as [t|]; [|reflexivity].
    destruct (truthy t) eqn:Ht; [exact Ht|reflexivity].
Qed.

End ChatQueries.

(** ** More on the manual cycle *)

Section VoiceCycles.

Import UseVoiceRAG VoicePanel Manual VoiceCycle.

Ltac run_cycle :=
  unfold exec, processAudio, askText, newAudio, setAudioStatus,
    bind, tryCatch, modify, gets, await, throw, ret.

(** X14.  [processAudio] catches everything: whatever the services
    answer it never throws.  When it returns the state is [idle] (and
    [error] is as it was) or [error]; while it waits for a response the
    state is [thinking] or [speaking]. *)
Theorem processAudio_never_throws (blob : Blob) (env : CycleEnv) (h : Hook) :
  match processAudio blob env h with
  | (Done _, h') =>
      (state h' = idle /\ errorMsg h' = errorMsg h) \/ state h' = error
  | (Suspended, h') => state h' = thinking \/ state h' = speaking
  | (Threw _, _) => False
  end.
Proof.
  destruct env as [stt rag0 tts play]. run_cycle.
  cbn [sttRes ragRes ttsRes playRes].
  destruct stt as [|m|[[] text]]; try (vm_compute; auto; fail).
  cbn [ok body negb].
  destruct (truthy (trim text)); try (vm_compute; auto; fail).
  destruct rag0 as [|m|[[] [a srcs]]]; try (vm_compute; auto; fail).
  destruct tts as [|m|[[] audio]]; try (vm_compute; auto; fail).
  destruct play as [|m|[]]; vm_compute; auto.
Qed.

(** X15.  A failed transcription ends the cycle at once: when the
    speech-to-text request is rejected or its response is not [ok], the
    state is [error] with the failure's message, the transcription
    request is the only one made, and the transcript, the answer, the
    sources, the callbacks and the audio elements are untouched. *)
Theorem transcription_failure_stops_cycle
    (blob : Blob) (env : CycleEnv) (h : Hook) (message : jsstring) :
  failure (sttRes env) (lit "Transcription failed") = Some message ->
  let h' := exec (processAudio blob env) h in
  state h' = error /\ errorMsg h' = message
  /\ requests h' = requests h ++ [PostTranscribe blob (language (opts h))]
  /\ transcript h' = transcript h /\ answer h' = answer h
  /\ sources h' = sources h
  /\ callbacks h' = callbacks h /\ audios h' = audios h.
Proof.
  intros Hf. cbv zeta. destruct env as [stt rag0 tts play].
  unfold failure in Hf. cbn [sttRes] in Hf. run_cycle. cbn [sttRes].
  destruct stt as [|m|[[] text]]; cbn [ok] in Hf;
    try discriminate Hf; injection Hf as <-;
    vm_compute; repeat split; reflexivity.
Qed.

Lemma transcription_failure_stops_cycle_witness :
  failure (sttRes (mkCycleEnv (Rejected (lit "Failed to fetch")) Pending
                     Pending Pending))
    (lit "Transcription failed") = Some (lit "Failed to fetch")
  /\ state (exec (processAudio recording0
                    (mkCycleEnv (Rejected (lit "Failed to fetch")) Pending
                       Pending Pending)) hook0) = error.
Proof.
  assert (H : failure (sttRes (mkCycleEnv (Rejected (lit "Failed to fetch"))
                                 Pending Pending Pending))
                (lit "Transcription failed") = Some (lit "Failed to fetch"))
    by reflexivity.
  split; [exact H|].
  exact (proj1 (transcription_failure_stops_cycle recording0
                  (mkCycleEnv (Rejected (lit "Failed to fetch")) Pending
                     Pending Pending) hook0 (lit "Failed to fetch") H)).
Defined.

(** X16.  A failed retrieval ends the cycle after the transcript: when
    the transcript is not blank and the RAG request is rejected or its
    response is not [ok], the state is [error] with the failure's
    message, the transcript is shown and was reported to
    [onTranscript], no speech request is made, and the answer, the
    sources and the audio elements are untouched. *)
Theorem retrieval_failure_stops_cycle
    (blob : Blob) (text : jsstring) (env : CycleEnv) (h : Hook)
    (message : jsstring) :
  sttRes env = Resolved (mkResponse true text) ->
  blank text = false ->
  failure (ragRes env) (lit "RAG query failed") = Some message ->
  let h' := exec (processAudio blob env) h in
  state h' = error /\ errorMsg h' = message
  /\ requests h' = requests h
                     ++ [PostTranscribe blob (language (opts h));
                         PostRagQuery (sessionId (opts h)) (slideId (opts h))
                           (slideTitle (opts h)) (slideContext (opts h)) text
                           (language (opts h))]
  /\ transcript h' = text /\ answer h' = answer h /\ sources h' = sources h
  /\ callbacks h' = callbacks h ++ [OnTranscript text]
  /\ audios h' = audios h.
Proof.
  intros Hs Hb Hf. cbv zeta. destruct env as [stt rag0 tts play].
  cbn [sttRes ragRes] in *. subst stt.
  unfold failure in Hf. run_cycle. cbn [sttRes ragRes ok body negb].
  rewrite truthy_trim, Hb. cbn [negb].
  destruct rag0 as [|m|[[] [a srcs]]]; cbn [ok] in Hf;
    try discriminate Hf; injection Hf as <-;
    repeat split; try (vm_compute; reflexivity);
    cbn -[lit app]; rewrite <- app_assoc; reflexivity.
Qed.

Lemma retrieval_failure_stops_cycle_witness :
  sttRes (mkCycleEnv (Resolved (mkResponse true question0))
            (Resolved (mkResponse false (answer0, []))) Pending Pending)
  = Resolved (mkResponse true question0)
  /\ blank question0 = false
  /\ failure (ragRes (mkCycleEnv (Resolved (mkResponse true question0))
                        (Resolved (mkResponse false (answer0, []))) Pending
                        Pending))
       (lit "RAG query failed") = Some (lit "RAG query failed")
  /\ state (exec (processAudio recording0
                    (mkCycleEnv (Resolved (mkResponse true question0))
                       (Resolved (mkResponse false (answer0, []))) Pending
                       Pending)) hook0) = error.
Proof.
  assert (H1 : sttRes (mkCycleEnv (Resolved (mkResponse true question0))
                         (Resolved (mkResponse false (answer0, []))) Pending
                         Pending)
               = Resolved (mkResponse true question0)) by reflexivity.
  assert (H2 : blank question0 = false) by reflexivity.
  assert (H3 : failure (ragRes (mkCycleEnv (Resolved (mkResponse true question0))
                                  (Resolved (mkResponse false (answer0, [])))
                                  Pending Pending))
                 (lit "RAG query failed") = Some (lit "RAG query failed"))
    by reflexivity.
  split; [exact H1|]. split; [exact H2|]. split; [exact H3|].
  exact (proj1 (retrieval_failure_stops_cycle recording0 question0
                  (mkCycleEnv (Resolved (mkResponse true question0))
                     (Resolved (mkResponse false (answer0, []))) Pending
                     Pending) hook0 (lit "RAG query failed") H1 H2 H3)).
Defined.

Lemma processAudio_keeps_streams (blob : Blob) (env : CycleEnv) :
  respects (keeps streams) (processAudio blob env).
Proof. respects. Qed.

Lemma processAudio_keeps_stopTasks (blob : Blob) (env : CycleEnv) :
  respects (keeps stopTasks) (processAudio blob env).
Proof. respects. Qed.

(** What a granted [startListening] leaves when a recorder can be built. *)
Lemma startListening_granted (h : Hook) :
  supportsWebm h = true ->
  let h' := exec (startListening (Resolved tt)) h in
  state h' = listening
  /\ mediaRecorderRef h'
     = Some (mkRecorder (List.length (streams h)) (lit "audio/webm") recording 0)
  /\ streams h' = streams h ++ [true]
  /\ audioChunksRef h' = []
  /\ stopTasks h' = stopTasks h
  /\ requests h' = requests h ++ [GetUserMedia]
  /\ opts h' = opts h.
Proof.
  intros Hw. cbv zeta.
  unfold exec, startListening, bind, tryCatch, modify, gets, await, throw, ret.
  cbn [supportsWebm setStreams setTranscript setAnswer setError setRequests
       request].
  rewrite Hw. vm_compute. repeat split; reflexivity.
Qed.

(** From a running capture to the end of the recorder's stop task. *)
Lemma stop_and_transcribe
    (n : N) (env : CycleEnv) (input : jsstring) (h1 : Hook)
    (strs : list bool) :
  state h1 = listening ->
  mediaRecorderRef h1
  = Some (mkRecorder (List.length strs) (lit "audio/webm") recording 0) ->
  streams h1 = strs ++ [true] ->
  audioChunksRef h1 = [] ->
  stopTasks h1 = [] ->
  let p' := onHook (recorderTask env)
              (handleMicClick Pending (onAudio n (mkPanel input h1))) in
  streams (hook p') = strs ++ [false]
  /\ stopTasks (hook p') = []
  /\ textInput p' = input
  /\ exists rest,
       requests (hook p')
       = requests h1
           ++ PostTranscribe (mkBlob n (lit "audio/webm")) (language (opts h1))
              :: rest.
Proof.
  intros Hs1 Hr1 Hstr1 Hc1 Ht1.
  set (recn := mkRecorder (List.length strs) (lit "audio/webm") recording n).
  set (stopped := mkRecorder (List.length strs) (lit "audio/webm") inactive n).
  (* the audio goes to the recorder *)
  assert (Ea : onAudio n (mkPanel input h1)
               = mkPanel input (setMediaRecorderRef (Some recn) h1)).
  { unfold onAudio, audioData. cbn [hook textInput]. rewrite Hr1.
    cbn [rstate isRecording rstream rmime buffered]. rewrite N.add_0_l.
    reflexivity. }
  rewrite Ea.
  (* the second click stops it *)
  assert (Eb : handleMicClick Pending
                 (mkPanel input (setMediaRecorderRef (Some recn) h1))
               = mkPanel input
                   (setState thinking
                      (setStopTasks [stopped]
                         (setMediaRecorderRef (Some stopped)
                            (setMediaRecorderRef (Some recn) h1))))).
  { unfold handleMicClick. cbn [hook state setMediaRecorderRef]. rewrite Hs1.
    unfold onHook, exec, stopListening, bind, modify, gets, ret.
    cbn [hook textInput mediaRecorderRef setMediaRecorderRef rstate isRecording
         rstream rmime buffered recn snd stopTasks].
    rewrite Ht1. reflexivity. }
  rewrite Eb.
  (* the stop task releases the microphone and builds the segment *)
  set (h3 := setState thinking _).
  assert (Ec : exec (recorderTask env) h3
               = exec (processAudio (mkBlob n (lit "audio/webm")) env)
                   (setStreams (strs ++ [false])
                      (if 0 <? n
                       then setAudioChunksRef [mkBlob n (lit "audio/webm")]
                              (setStopTasks [] h3)
                       else setStopTasks [] h3))).
  { unfold exec at 1, recorderTask, bind at 1, gets at 1.
    cbn [stopTasks h3 setState setStopTasks]. rewrite bind_modify.
    cbn [buffered rmime rstream stopped].
    destruct (0 <? n) eqn:Hn; cbn [when_].
    - rewrite bind_modify, bind_modify, bind_gets.
      cbn [audioChunksRef streams h3 setStreams setAudioChunksRef setStopTasks
           setState setMediaRecorderRef].
      rewrite Hc1, Hstr1, setNth_last. cbn [app]. unfold newBlob.
      cbn [fold_right size]. rewrite N.add_0_r. reflexivity.
    - apply N.ltb_ge in Hn. assert (n = 0) by lia. subst n.
      unfold bind at 1, ret. rewrite bind_modify, bind_gets.
      cbn [audioChunksRef streams h3 setStreams setAudioChunksRef setStopTasks
           setState setMediaRecorderRef].
      rewrite Hc1, Hstr1, setNth_last. reflexivity. }
  cbv zeta. unfold onHook. cbn [hook textInput]. rewrite Ec.
  set (h4 := setStreams _ _).
  assert (F : streams h4 = strs ++ [false] /\ stopTasks h4 = []
              /\ requests h4 = requests h1 /\ opts h4 = opts h1)
    by (unfold h4, h3; destruct (0 <? n); repeat split; reflexivity).
  destruct F as (Fstr & Ftask & Freq & Fopts). clearbody h4. clear Ec.
  pose proof (processAudio_keeps_streams (mkBlob n (lit "audio/webm")) env h4)
    as Kstr.
  pose proof (processAudio_keeps_stopTasks (mkBlob n (lit "audio/webm")) env h4)
    as Ktask.
  destruct (processAudio_transcribes (mkBlob n (lit "audio/webm")) env h4)
    as [rest Hrest].
  unfold keeps in Kstr, Ktask. unfold exec.
  rewrite Kstr, Ktask. unfold exec in Hrest. rewrite Hrest.
  rewrite Fstr, Ftask, Freq, Fopts.
  split; [reflexivity|]. split; [reflexivity|]. split; [reflexivity|].
  exists rest. reflexivity.
Qed.

(** X17.  A spoken question through the widget, end to end: from the
    [idle] or [error] state, a click on the microphone button, [n]
    captured bytes, a second click and the recorder's stop task release
    the microphone, whatever the cycle does afterwards, and send the
    [n] bytes as one [audio/webm] segment for transcription, tiny or
    empty segments included.  The text input is not touched. *)
Theorem spoken_question_releases_microphone
    (n : N) (env : CycleEnv) (p : Panel) :
  state (hook p) = idle \/ state (hook p) = error ->
  supportsWebm (hook p) = true ->
  stopTasks (hook p) = [] ->
  let p' := spoken n env p in
  streams (hook p') = streams (hook p) ++ [false]
  /\ stopTasks (hook p') = []
  /\ textInput p' = textInput p
  /\ exists rest,
       requests (hook p')
       = requests (hook p)
           ++ GetUserMedia
              :: PostTranscribe (mkBlob n (lit "audio/webm"))
                   (language (opts (hook p))) :: rest.
Proof.
  intros Hst Hw Ht. cbv zeta. destruct p as [input h].
  cbn [hook textInput] in *. unfold spoken.
  assert (E1 : handleMicClick (Resolved tt) (mkPanel input h)
               = mkPanel input (exec (startListening (Resolved tt)) h)).
  { unfold handleMicClick. cbn [hook].
    destruct Hst as [Hs|Hs]; rewrite Hs; reflexivity. }
  rewrite E1.
  destruct (startListening_granted h Hw)
    as (Hs1 & Hr1 & Hstr1 & Hc1 & Ht1 & Hreq1 & Ho1).
  rewrite Ht in Ht1.
  destruct (stop_and_transcribe n env input _ (streams h) Hs1 Hr1 Hstr1 Hc1 Ht1)
    as (Hstr & Htask & Hin & rest & Hreq).
  rewrite Hstr, Htask, Hin, Hreq, Hreq1, Ho1, <- app_assoc.
  repeat split; try reflexivity. exists rest. reflexivity.
Qed.

Lemma spoken_question_releases_microphone_witness :
  (state (hook (mkPanel [] hook0)) = idle
   \/ state (hook (mkPanel [] hook0)) = error)
  /\ supportsWebm (hook (mkPanel [] hook0)) = true
  /\ stopTasks (hook (mkPanel [] hook0)) = []
  /\ streams (hook (spoken 40000 (cycle question0 (Resolved tt))
                      (mkPanel [] hook0)))
     = streams (hook (mkPanel [] hook0)) ++ [false].
Proof.
  assert (H1 : state (hook (mkPanel [] hook0)) = idle
               \/ state (hook (mkPanel [] hook0)) = error)
    by (left; reflexivity).
  assert (H2 : supportsWebm (hook (mkPanel [] hook0)) = true) by reflexivity.
  assert (H3 : stopTasks (hook (mkPanel [] hook0)) = []) by reflexivity.
  split; [exact H1|]. split; [exact H2|]. split; [exact H3|].
  exact (proj1 (spoken_question_releases_microphone 40000
                  (cycle question0 (Resolved tt)) (mkPanel [] hook0)
                  H1 H2 H3)).
Defined.

(** X18.  When the microphone is granted but no [audio/webm] recorder
    can be built, [startListening] reports the failure as a denied
    microphone and leaves the granted stream live: the stream is not
    stopped, no recorder refers to it and no stop task is queued. *)
Theorem unsupported_recorder_leaves_microphone_on (h : Hook) :
  supportsWebm h = false ->
  let h' := exec (startListening (Resolved tt)) h in
  state h' = error /\ errorMsg h' = lit "Microphone access denied"
  /\ streams h' = streams h ++ [true]
  /\ mediaRecorderRef h' = mediaRecorderRef h
  /\ stopTasks h' = stopTasks h.
Proof.
  intros Hw. cbv zeta.
  unfold exec, startListening, bind, tryCatch, modify, gets, await, throw, ret.
  cbn [supportsWebm setStreams setTranscript setAnswer setError setRequests
       request].
  rewrite Hw. vm_compute. repeat split; reflexivity.
Qed.

Lemma unsupported_recorder_leaves_microphone_on_witness :
  supportsWebm (initial opts0 false None) = false
  /\ state (exec (startListening (Resolved tt)) (initial opts0 false None))
     = error.
Proof.
  assert (H : supportsWebm (initial opts0 false None) = false) by reflexivity.
  split; [exact H|].
  exact (proj1 (unsupported_recorder_leaves_microphone_on
                  (initial opts0 false None) H)).
Defined.

(** X19.  [askText] catches everything too.  A blank question changes
    nothing.  For any other question the transcript is the question as
    typed; when [askText] returns the state is [speaking] (playback has
    started) or [error], and while it waits the state is [thinking] or
    [speaking]. *)
Theorem askText_outcome (question : jsstring) (env : CycleEnv) (h : Hook) :
  match askText question env h with
  | (Done _, h') =>
      (blank question = true /\ h' = h)
      \/ (blank question = false /\ transcript h' = question
          /\ (state h' = speaking \/ state h' = error))
  | (Suspended, h') =>
      transcript h' = question /\ (state h' = thinking \/ state h' = speaking)
  | (Threw _, _) => False
  end.
Proof.
  destruct env as [stt rag0 tts play]. run_cycle. cbn [ragRes ttsRes playRes].
  rewrite truthy_trim.
  destruct (blank question); cbn [negb]; [left; split; reflexivity|].
  destruct rag0 as [|m|[okr [a srcs]]]; try (vm_compute; auto 6; fail).
  destruct tts as [|m|[okt audio]]; try (vm_compute; auto 6; fail).
  destruct play as [|m|[]]; vm_compute; auto 6.
Qed.

(** X20.  A typed question, from the click to the end of playback:
    when the retrieval and speech responses arrive and playback starts,
    whatever their [ok] flags, [askText] leaves the state [speaking]
    with a new audio element playing and [audioRef] pointing at it; the
    element's [onended] then returns the state to [idle].  The
    transcript is the question, the answer and sources are those of the
    retrieval response, [error] is as it was, and exactly one RAG
    request and one speech request were made. *)
Theorem typed_question_round_trip
    (question : jsstring) (stt : Await (Response jsstring))
    (rag : Response (jsstring * list SourceRef)) (audio : Response Blob)
    (h : Hook) :
  blank question = false ->
  let env := mkCycleEnv stt (Resolved rag) (Resolved audio) (Resolved tt) in
  let h1 := exec (askText question env) h in
  let h2 := exec (askText_onended (List.length (audios h))) h1 in
  (state h1 = speaking /\ audioRef h1 = Some (List.length (audios h))
   /\ audios h1 = audios h ++ [playing])
  /\ (state h2 = idle /\ audios h2 = audios h ++ [endedAudio])
  /\ transcript h2 = question
  /\ answer h2 = fst (body rag) /\ sources h2 = snd (body rag)
  /\ errorMsg h2 = errorMsg h
  /\ requests h2
     = requests h
         ++ [PostRagQuery (sessionId (opts h)) (slideId (opts h))
               (slideTitle (opts h)) (slideContext (opts h)) question
               (language (opts h));
             PostSpeak (fst (body rag)) (language (opts h)) (cd_voice_id h)]
  /\ callbacks h2 = callbacks h ++ [OnAnswer (fst (body rag))].
Proof.
  intros Hq. cbv zeta. unfold askText_onended. run_cycle.
  cbn [ragRes ttsRes playRes]. rewrite truthy_trim, Hq. cbn [negb].
  destruct rag as [okr [a srcs]]. destruct audio as [okt b].
  cbn [body fst snd].
  assert (Hlast : forall x y : AudioStatus,
             setNth (List.length (audios h)) y (audios h ++ [x])
             = audios h ++ [y])
    by (intros; apply setNth_last).
  cbn -[lit app setNth]. rewrite !Hlast, <- !app_assoc.
  repeat split; reflexivity.
Qed.

Lemma typed_question_round_trip_witness :
  blank question0 = false
  /\ state (exec (askText question0 (cycle [] (Resolved tt))) hook0) = speaking.
Proof.
  assert (H : blank question0 = false) by reflexivity.
  split; [exact H|].
  exact (proj1 (proj1 (typed_question_round_trip question0
                         (Resolved (mkResponse true []))
                         (mkResponse true
                            (answer0, [mkSource (lit "docs/arch.pdf") 91]))
                         (mkResponse true (mkBlob 20480 (lit "audio/mpeg")))
                         hook0 H))).
Defined.

(** X21.  The way out of the [error] state: a text submission is
    rejected, the widget is left unchanged; only the microphone button
    reacts, by starting a capture.  That empties [error] at once, and
    with the microphone granted and a recorder available the state is
    [listening]. *)
Theorem error_state_recovery (p : Panel) (env : CycleEnv) :
  state (hook p) = error ->
  handleTextAsk env p = p
  /\ (forall mic, handleMicClick mic p = onHook (startListening mic) p)
  /\ errorMsg (hook (handleMicClick Pending p)) = []
  /\ (supportsWebm (hook p) = true ->
      let p' := handleMicClick (Resolved tt) p in
      state (hook p') = listening /\ errorMsg (hook p') = []).
Proof.
  intros Hs. unfold handleTextAsk, handleMicClick. rewrite Hs.
  cbn [VoiceState_eqb negb]. rewrite orb_true_r.
  split; [reflexivity|]. split; [reflexivity|].
  destruct p as [input h]. unfold onHook. cbn [hook textInput].
  split.
  - unfold exec, startListening, bind, tryCatch, modify, gets, await, throw, ret.
    reflexivity.
  - intros Hw. cbv zeta. cbn [hook] in Hw.
    unfold exec, startListening, bind, tryCatch, modify, gets, await, throw, ret.
    cbn [supportsWebm setStreams setTranscript setAnswer setError setRequests
         request].
    rewrite Hw. vm_compute. split; reflexivity.
Qed.

Lemma error_state_recovery_witness :
  state (hook (mkPanel question0
                 (exec (startListening (Rejected (lit "NotAllowedError")))
                    hook0))) = error
  /\ handleTextAsk (cycle [] (Resolved tt))
       (mkPanel question0
          (exec (startListening (Rejected (lit "NotAllowedError"))) hook0))
     = mkPanel question0
         (exec (startListening (Rejected (lit "NotAllowedError"))) hook0).
Proof.
  assert (H : state (hook (mkPanel question0
                             (exec (startListening
                                      (Rejected (lit "NotAllowedError")))
                                hook0))) = error) by reflexivity.
  split; [exact H|].
  exact (proj1 (error_state_recovery
                  (mkPanel question0
                     (exec (startListening (Rejected (lit "NotAllowedError")))
                        hook0))
                  (cycle [] (Resolved tt)) H)).
Defined.

Lemma askText_leaves_idle (question : jsstring) (env : CycleEnv) (h : Hook) :
  blank question = false ->
  state (exec (askText question env) h) <> idle.
Proof.
  intros Hq. destruct env as [stt rag0 tts play]. run_cycle.
  cbn [ragRes ttsRes playRes]. rewrite truthy_trim, Hq. cbn [negb].
  destruct rag0 as [|m|[okr [a srcs]]]; try (vm_compute; discriminate).
  destruct tts as [|m|[okt audio]]; try (vm_compute; discriminate).
  destruct play as [|m|[]]; vm_compute; discriminate.
Qed.

(** X27.  In the [idle] state a non-blank text submission starts
    [askText] with the input as typed and empties the input.  In the
    state [askText] returns, or is suspended, in, the hook is not
    [idle], and a text submission made in that state is rejected
    whatever is typed. *)
Theorem text_submission_leaves_idle
    (p : Panel) (env : CycleEnv) :
  state (hook p) = idle ->
  blank (textInput p) = false ->
  let p1 := handleTextAsk env p in
  p1 = setTextInput [] (onHook (askText (textInput p) env) p)
  /\ textInput p1 = []
  /\ state (hook p1) <> idle
  /\ forall (typed : jsstring) (env' : CycleEnv),
       handleTextAsk env' (setTextInput typed p1) = setTextInput typed p1.
Proof.
  intros Hs Hq. cbv zeta.
  assert (E : handleTextAsk env p
              = setTextInput [] (onHook (askText (textInput p) env) p)).
  { unfold handleTextAsk. rewrite truthy_trim, Hq, Hs. reflexivity. }
  rewrite E. split; [reflexivity|]. split; [reflexivity|].
  pose proof (askText_leaves_idle (textInput p) env (hook p) Hq) as Hbusy.
  split; [exact Hbusy|].
  intros typed env'. unfold handleTextAsk, setTextInput, onHook.
  cbn [hook textInput].
  destruct (state (exec (askText (textInput p) env) (hook p)));
    try contradiction; cbn [VoiceState_eqb negb]; rewrite orb_true_r;
    reflexivity.
Qed.

Lemma text_submission_leaves_idle_witness :
  state (hook (mkPanel question0 hook0)) = idle
  /\ blank (textInput (mkPanel question0 hook0)) = false
  /\ textInput (handleTextAsk (cycle [] Pending) (mkPanel question0 hook0)) = [].
Proof.
  assert (H1 : state (hook (mkPanel question0 hook0)) = idle) by reflexivity.
  assert (H2 : blank (textInput (mkPanel question0 hook0)) = false)
    by reflexivity.
  split; [exact H1|]. split; [exact H2|].
  exact (proj1 (proj2 (text_submission_leaves_idle
                         (mkPanel question0 hook0) (cycle [] Pending) H1 H2))).
Defined.

(** X28.  A spoken cycle that meets no failure: with a non-blank
    transcript and every response [ok], [processAudio] makes the
    transcription, the RAG and the speech request in this order, the
    last with the stored cloned voice, reports the transcript and then
    the answer to the callbacks, plays one new audio element to its end
    and returns to [idle] with the transcript, the answer and the
    sources set.  [error] is left as it was. *)
Theorem spoken_cycle_completes
    (blob : Blob) (text ans : jsstring) (srcs : list SourceRef) (audio : Blob)
    (h : Hook) :
  blank text = false ->
  let env := mkCycleEnv (Resolved (mkResponse true text))
               (Resolved (mkResponse true (ans, srcs)))
               (Resolved (mkResponse true audio)) (Resolved tt) in
  let h' := exec (processAudio blob env) h in
  state h' = idle /\ errorMsg h' = errorMsg h
  /\ transcript h' = text /\ answer h' = ans /\ sources h' = srcs
  /\ requests h'
     = requests h
         ++ [PostTranscribe blob (language (opts h));
             PostRagQuery (sessionId (opts h)) (slideId (opts h))
               (slideTitle (opts h)) (slideContext (opts h)) text
               (language (opts h));
             PostSpeak ans (language (opts h)) (cd_voice_id h)]
  /\ callbacks h' = callbacks h ++ [OnTranscript text; OnAnswer ans]
  /\ audios h' = audios h ++ [endedAudio]
  /\ audioRef h' = Some (List.length (audios h)).
Proof.
  intros Hb. cbv zeta. run_cycle.
  cbn [sttRes ragRes ttsRes playRes ok body negb].
  rewrite truthy_trim, Hb. cbn [negb].
  assert (Hlast : forall x y : AudioStatus,
             setNth (List.length (audios h)) y (audios h ++ [x])
             = audios h ++ [y])
    by (intros; apply setNth_last).
  cbn -[lit app setNth]. rewrite !Hlast, <- !app_assoc.
  repeat split; reflexivity.
Qed.

Lemma spoken_cycle_completes_witness :
  blank question0 = false
  /\ state (exec (processAudio recording0
                    (mkCycleEnv (Resolved (mkResponse true question0))
                       (Resolved (mkResponse true (answer0, [])))
                       (Resolved (mkResponse true
                                    (mkBlob 20480 (lit "audio/mpeg"))))
                       (Resolved tt))) hook0) = idle.
Proof.
  assert (H : blank question0 = false) by reflexivity.
  split; [exact H|].
  exact (proj1 (spoken_cycle_completes recording0 question0 answer0 []
                  (mkBlob 20480 (lit "audio/mpeg")) hook0 H)).
Defined.

End VoiceCycles.

(** ** The widget's history *)

Section History.

Import VoiceHistory VoiceCycle.

Lemma firstn_app_firstn {A} (n : nat) (l m : list A) :
  firstn n (l ++ firstn n m) = firstn n (l ++ m).
Proof.
  rewrite !firstn_app, firstn_firstn.
  replace (Nat.min (n - List.length l) n) with (n - List.length l)%nat by lia.
  reflexivity.
Qed.

(** X22.  The history is a window on the last five exchanges: after any
    sequence of [onAnswer] calls it has at most five elements, and it
    is the first five of the recorded exchanges, newest first, followed
    by what the history held before.  A call whose instance saw an
    empty transcript records nothing. *)
Theorem history_keeps_last_five
    (calls : list (jsstring * jsstring)) (history : list Exchange) :
  (List.length history <= 5)%nat ->
  let h := record calls history in
  (List.length h <= 5)%nat
  /\ h = firstn 5 (rev (recorded calls) ++ history).
Proof.
  cbv zeta. revert history.
  induction calls as [|[t ans] calls IH]; intros history Hlen.
  - unfold record, recorded. cbn [fold_left filter map rev app].
    split; [exact Hlen|]. symmetry. apply firstn_all2. exact Hlen.
  - unfold record, recorded in *. cbn [fold_left filter fst snd].
    unfold onAnswer at 2 4. cbn [fst snd].
    destruct (truthy t).
    + destruct (IH (firstn 5 (mkExchange t ans :: history))) as [H1 H2].
      { rewrite length_firstn. lia. }
      split; [exact H1|]. rewrite H2.
      cbn [map rev]. rewrite firstn_app_firstn, <- app_assoc. reflexivity.
    + apply IH. exact Hlen.
Qed.

Lemma history_keeps_last_five_witness :
  (List.length (@nil Exchange) <= 5)%nat
  /\ (List.length (record [(lit "What is the architecture?",
                            lit "It has three services.")] []) <= 5)%nat.
Proof.
  assert (H : (List.length (@nil Exchange) <= 5)%nat) by (simpl; lia).
  split; [exact H|].
  exact (proj1 (history_keeps_last_five
                  [(lit "What is the architecture?",
                    lit "It has three services.")] [] H)).
Defined.

End History.

(** ** Slide navigation *)

Section Navigation.

Import Present.

Ltac nav :=
  unfold input, handleKey, click, setActiveIdx, setShowPanel;
  cbn [activeIdx slideCount showPanel].

Lemma input_in_deck (i : Input) (d : Deck) :
  (0 <= activeIdx d < Z.of_nat (slideCount d))%Z ->
  (0 <= activeIdx (input i d) < Z.of_nat (slideCount (input i d)))%Z
  /\ slideCount (input i d) = slideCount d.
Proof.
  intros Hd. destruct i as [k|b].
  - destruct k; nav; split; try reflexivity; lia.
  - destruct b as [| |j|]; nav.
    + destruct (activeIdx d =? 0)%Z; nav; split; try reflexivity; lia.
    + destruct (activeIdx d =? Z.of_nat (slideCount d) - 1)%Z; nav;
        split; try reflexivity; lia.
    + destruct (j <? slideCount d)%nat eqn:Hj; nav;
        split; try reflexivity; try lia.
      apply Nat.ltb_lt in Hj. lia.
    + split; [exact Hd|reflexivity].
Qed.

(** X23.  Navigation stays inside the deck: when the active index
    points at a slide, it still does after any sequence of key presses
    and button clicks, so there always is an active slide; the deck
    itself is not changed. *)
Theorem navigation_stays_in_deck (inputs : list Input) (d : Deck) :
  (0 <= activeIdx d < Z.of_nat (slideCount d))%Z ->
  let d' := fold_left (fun d i => input i d) inputs d in
  (0 <= activeIdx d' < Z.of_nat (slideCount d'))%Z
  /\ slideCount d' = slideCount d
  /\ activeSlide d' = Some (Z.to_nat (activeIdx d')).
Proof.
  cbv zeta. revert d.
  induction inputs as [|i inputs IH]; intros d Hd.
  - cbn [fold_left]. split; [exact Hd|]. split; [reflexivity|].
    unfold activeSlide.
    replace (0 <=? activeIdx d)%Z with true by (symmetry; apply Z.leb_le; lia).
    replace (activeIdx d <? Z.of_nat (slideCount d))%Z with true
      by (symmetry; apply Z.ltb_lt; lia).
    reflexivity.
  - cbn [fold_left].
    destruct (input_in_deck i d Hd) as [Hin Hcount].
    destruct (IH (input i d) Hin) as (H1 & H2 & H3).
    split; [exact H1|]. split; [rewrite H2; exact Hcount|exact H3].
Qed.

Lemma navigation_stays_in_deck_witness :
  (0 <= activeIdx (mkDeck 3 0 true) < Z.of_nat (slideCount (mkDeck 3 0 true)))%Z
  /\ slideCount (fold_left (fun d i => input i d)
                   [Press ArrowRight; Click (Dot 2); Press ArrowDown]
                   (mkDeck 3 0 true))
     = slideCount (mkDeck 3 0 true).
Proof.
  assert (H : (0 <= activeIdx (mkDeck 3 0 true)
               < Z.of_nat (slideCount (mkDeck 3 0 true)))%Z)
    by (simpl; lia).
  split; [exact H|].
  exact (proj1 (proj2 (navigation_stays_in_deck
                         [Press ArrowRight; Click (Dot 2); Press ArrowDown]
                         (mkDeck 3 0 true) H))).
Defined.

Lemma input_empty_deck (i : Input) (d : Deck) :
  slideCount d = 0%nat ->
  (-1 <= activeIdx d <= 0)%Z ->
  slideCount (input i d) = 0%nat /\ (-1 <= activeIdx (input i d) <= 0)%Z.
Proof.
  intros Hc Hd. destruct i as [k|b].
  - destruct k; nav; rewrite ?Hc; split; try reflexivity; cbn [Z.of_nat]; lia.
  - destruct b as [| |j|]; nav; rewrite ?Hc; cbn [Z.of_nat].
    + destruct (activeIdx d =? 0)%Z; nav; rewrite ?Hc;
        split; try reflexivity; lia.
    + destruct (activeIdx d =? 0 - 1)%Z; nav; rewrite ?Hc;
        split; try reflexivity; lia.
    + destruct (j <? 0)%nat eqn:Hj; nav; rewrite ?Hc;
        split; try reflexivity; try lia.
      apply Nat.ltb_lt in Hj. lia.
    + split; [reflexivity|exact Hd].
Qed.

(** X24.  On an empty deck the index can leave the deck: a press of
    ArrowRight moves it from 0 to -1.  Whatever is pressed or clicked,
    the index stays between -1 and 0 and there is no active slide. *)
Theorem empty_deck_loses_the_slide (inputs : list Input) (d : Deck) :
  slideCount d = 0%nat ->
  (-1 <= activeIdx d <= 0)%Z ->
  let d' := fold_left (fun d i => input i d) inputs d in
  (-1 <= activeIdx d' <= 0)%Z
  /\ activeSlide d' = None
  /\ activeIdx (handleKey ArrowRight d) = (-1)%Z.
Proof.
  cbv zeta. intros Hc Hd.
  assert (Hinv : slideCount (fold_left (fun d i => input i d) inputs d) = 0%nat
                 /\ (-1 <= activeIdx (fold_left (fun d i => input i d) inputs d)
                     <= 0)%Z).
  { revert d Hc Hd. induction inputs as [|i inputs IH]; intros d Hc Hd.
    - split; assumption.
    - cbn [fold_left]. destruct (input_empty_deck i d Hc Hd) as [H1 H2].
      apply IH; assumption. }
  destruct Hinv as [Hcount Hidx].
  split; [exact Hidx|]. split.
  - unfold activeSlide. rewrite Hcount. cbn [Z.of_nat].
    destruct (0 <=? _)%Z eqn:H0; [|reflexivity].
    destruct (_ <? 0)%Z eqn:H1; [|reflexivity].
    apply Z.leb_le in H0. apply Z.ltb_lt in H1. lia.
  - nav. rewrite Hc. cbn [Z.of_nat]. lia.
Qed.

Lemma empty_deck_loses_the_slide_witness :
  slideCount (mkDeck 0 0 true) = 0%nat
  /\ (-1 <= activeIdx (mkDeck 0 0 true) <= 0)%Z
  /\ activeSlide (fold_left (fun d i => input i d)
                    [Press ArrowRight; Click Prev] (mkDeck 0 0 true)) = None.
Proof.
  assert (H1 : slideCount (mkDeck 0 0 true) = 0%nat) by reflexivity.
  assert (H2 : (-1 <= activeIdx (mkDeck 0 0 true) <= 0)%Z) by (simpl; lia).
  split; [exact H1|]. split; [exact H2|].
  exact (proj1 (proj2 (empty_deck_loses_the_slide
                         [Press ArrowRight; Click Prev] (mkDeck 0 0 true)
                         H1 H2))).
Defined.

End Navigation.

(** ** The recorded voice sample *)

Section VoiceSample.

Import Studio.

Lemma fold_left_lengths {A} (channel : list (list A)) (n : nat) :
  fold_left (fun acc val => acc + List.length val)%nat channel n
  = (n + List.length (List.concat channel))%nat.
Proof.
  revert n.
  induction channel as [|c rest IH]; intros n;
    cbn [fold_left List.concat List.length].
  - lia.
  - rewrite IH, length_app. lia.
Qed.

Lemma copyChunks_fills {A} (zero : A) (channel : list (list A)) (done : list A) :
  copyChunks channel (List.length done)
    (done ++ repeat zero (List.length (List.concat channel)))
  = Some (done ++ List.concat channel).
Proof.
  revert done. induction channel as [|c rest IH]; intros done.
  - cbn. reflexivity.
  - cbn [copyChunks List.concat]. unfold typedSet.
    rewrite !length_app, repeat_length.
    replace (List.length done + List.length c
             <=? List.length done
                 + (List.length c + List.length (List.concat rest)))%nat
      with true by (symmetry; apply Nat.leb_le; lia).
    rewrite firstn_app, firstn_all, Nat.sub_diag. cbn [firstn].
    rewrite app_nil_r.
    rewrite skipn_app, skipn_all2 by lia. cbn [app].
    replace (List.length done + List.length c - List.length done)%nat
      with (List.length c) by lia.
    rewrite repeat_app, skipn_app, repeat_length, Nat.sub_diag.
    rewrite skipn_all2 by (rewrite repeat_length; lia).
    cbn [skipn app].
    replace (done ++ c ++ repeat zero (List.length (List.concat rest)))
      with ((done ++ c) ++ repeat zero (List.length (List.concat rest)))
      by (rewrite app_assoc; reflexivity).
    rewrite <- (length_app done c). rewrite IH, app_assoc. reflexivity.
Qed.

(** X25.  [flattenArray] joins the recorded chunks: the result is the
    concatenation of the chunks in their order, and no [set] is ever
    out of range, whatever the chunks (empty ones included). *)
Theorem flattenArray_concat {A} (zero : A) (channel : list (list A)) :
  flattenArray zero channel = Some (List.concat channel).
Proof.
  unfold flattenArray. rewrite fold_left_lengths. cbn [Nat.add].
  exact (copyChunks_fills zero channel []).
Qed.

End VoiceSample.

Section WavEncoding.

Import Studio WavFile.

Lemma littleEndian_byte (v : Z) (i : Z) :
  (0 <= i)%Z ->
  Z.land (Z.shiftr v (8 * i)) 255 = ((v / 2 ^ (8 * i)) mod 256)%Z.
Proof.
  intros Hi. rewrite Z.shiftr_div_pow2 by lia.
  change 255%Z with (Z.ones 8). rewrite Z.land_ones by lia. reflexivity.
Qed.

Lemma getUint16_littleEndian (v : Z) (rest : Buffer) :
  getUint 2 0 (littleEndian 2 v ++ rest) = (v mod 2 ^ 16)%Z.
Proof.
  unfold getUint, littleEndian.
  cbn [seq map app skipn firstn fold_right Z.of_nat].
  rewrite !littleEndian_byte by lia.
  change (8 * 0)%Z with 0%Z.
  change (8 * Z.pos (Pos.of_succ_nat 0))%Z with 8%Z.
  change (2 ^ 0)%Z with 1%Z. rewrite Z.div_1_r.
  change (2 ^ 16)%Z with (256 * 256)%Z.
  rewrite (Z.rem_mul_r v 256 256) by lia.
  change (2 ^ 8)%Z with 256%Z. lia.
Qed.

Lemma getUint32_littleEndian (v : Z) (rest : Buffer) :
  getUint 4 0 (littleEndian 4 v ++ rest) = (v mod 2 ^ 32)%Z.
Proof.
  unfold getUint, littleEndian.
  cbn [seq map app skipn firstn fold_right Z.of_nat].
  rewrite !littleEndian_byte by lia.
  change (8 * 0)%Z with 0%Z.
  change (8 * Z.pos (Pos.of_succ_nat 0))%Z with 8%Z.
  change (8 * Z.pos (Pos.of_succ_nat 1))%Z with 16%Z.
  change (8 * Z.pos (Pos.of_succ_nat 2))%Z with 24%Z.
  change (2 ^ 0)%Z with 1%Z. rewrite Z.div_1_r.
  change (2 ^ 32)%Z with (256 * (256 * (256 * 256)))%Z.
  rewrite (Z.rem_mul_r v 256 (256 * (256 * 256))) by lia.
  rewrite (Z.rem_mul_r (v / 256) 256 (256 * 256)) by lia.
  rewrite (Z.rem_mul_r (v / 256 / 256) 256 256) by lia.
  rewrite !Z.div_div by lia.
  change (2 ^ 8)%Z with 256%Z. change (2 ^ 16)%Z with (256 * 256)%Z.
  change (2 ^ 24)%Z with (256 * 256 * 256)%Z.
  lia.
Qed.

(** The sample loop fills the zeroed tail of the buffer. *)
Lemma writeSamples_fills (samples : list QArith_base.Q) (pre : Buffer) :
  writeSamples (List.length pre) samples
    (pre ++ repeat 0%Z (List.length samples * 2))
  = (Done tt, pre ++ flat_map sampleBytes samples).
Proof.
  revert pre. induction samples as [|s r IH]; intros pre.
  - cbn. reflexivity.
  - cbn [writeSamples List.length Nat.mul Nat.add repeat flat_map].
    unfold bind, setInt16, setBytes.
    change (List.length (littleEndian 2
              (toInteger (QArith_base.Qmult s (QArith_base.Qmake 32767 1)))))
      with 2%nat.
    rewrite length_app. cbn [List.length].
    replace (List.length pre + 2
             <=? List.length pre
                 + S (S (List.length (repeat 0%Z (List.length r * 2)))))%nat
      with true by (symmetry; apply Nat.leb_le; lia).
    rewrite firstn_app, firstn_all, Nat.sub_diag. cbn [firstn].
    rewrite app_nil_r.
    rewrite skipn_app, skipn_all2 by lia. cbn [app].
    replace (List.length pre + 2 - List.length pre)%nat with 2%nat by lia.
    cbn [skipn].
    replace (pre ++ littleEndian 2
                      (toInteger
                         (QArith_base.Qmult s (QArith_base.Qmake 32767 1)))
               ++ repeat 0%Z (List.length r * 2))
      with ((pre ++ sampleBytes s) ++ repeat 0%Z (List.length r * 2))
      by (rewrite <- app_assoc; reflexivity).
    replace (List.length pre + 2)%nat with (List.length (pre ++ sampleBytes s))
      by (rewrite length_app; reflexivity).
    rewrite IH, <- app_assoc. reflexivity.
Qed.

(** No write of [createWavBlob] is out of range; the buffer it fills is
    the header followed by the samples. *)
Lemma createWavBlob_layout (samples : list QArith_base.Q) (sampleRate : Z) :
  let bytes := header (Z.of_nat (List.length samples)) sampleRate
                 ++ flat_map sampleBytes samples in
  createWavBlob samples sampleRate = (Done (bytes, lit "audio/wav"), bytes).
Proof.
  cbv zeta. unfold createWavBlob.
  set (n := Z.of_nat (List.length samples)).
  set (tail := repeat 0%Z (List.length samples * 2)).
  change (repeat 0%Z (44 + List.length samples * 2))
    with (repeat 0%Z 44 ++ tail).
  pose proof (writeSamples_fills samples (header n sampleRate)) as Hs.
  fold tail in Hs.
  set (data := flat_map sampleBytes samples) in *.
  unfold header, written in *.
  cbn -[Z.land Z.shiftr Z.mul Z.add Z.of_nat writeSamples tail data] in Hs.
  cbn -[Z.land Z.shiftr Z.mul Z.add Z.of_nat writeSamples tail data].
  unfold bind at 1. rewrite Hs.
  reflexivity.
Qed.

Lemma length_sampleBytes (samples : list QArith_base.Q) :
  List.length (flat_map sampleBytes samples) = (2 * List.length samples)%nat.
Proof.
  induction samples as [|s r IH]; [reflexivity|].
  cbn [flat_map]. rewrite length_app, IH.
  cbn [sampleBytes littleEndian seq map List.length]. lia.
Qed.

Lemma sample_at (samples : list QArith_base.Q) (i : nat) (pre : Buffer) :
  (i < List.length samples)%nat ->
  getUint 2 (List.length pre + 2 * i) (pre ++ flat_map sampleBytes samples)
  = (toInteger (QArith_base.Qmult (nth i samples (QArith_base.Qmake 0 1))
                  (QArith_base.Qmake 32767 1)) mod 2 ^ 16)%Z.
Proof.
  intros Hi. unfold getUint.
  rewrite skipn_app, skipn_all2 by lia. cbn [app].
  replace (List.length pre + 2 * i - List.length pre)%nat with (2 * i)%nat
    by lia.
  revert i Hi. induction samples as [|s r IH]; intros i Hi.
  - cbn [List.length] in Hi. lia.
  - destruct i as [|i].
    + cbn [Nat.mul skipn flat_map nth].
      exact (getUint16_littleEndian _ (flat_map sampleBytes r)).
    + replace (2 * S i)%nat with (S (S (2 * i))) by lia.
      cbn [flat_map sampleBytes littleEndian seq map app skipn nth].
      apply IH. cbn [List.length] in Hi. lia.
Qed.

(** X26.  [createWavBlob] never writes out of range and returns an
    [audio/wav] blob of 44 bytes plus two per sample.  Read back, the
    header has the tags RIFF, WAVE, fmt and data, a 16-byte PCM mono
    16-bit format block with the sample rate and twice the sample rate
    as byte rate (modulo 2^32), the data size [2n] at offset 40 and
    [32 + 2n] in the RIFF size field at offset 4; sample [i] is stored
    at offset [44 + 2i] as the low 16 bits of the integer part of
    [32767] times the sample. *)
Theorem createWavBlob_file (samples : list QArith_base.Q) (sampleRate : Z) :
  let n := Z.of_nat (List.length samples) in
  exists bytes,
    createWavBlob samples sampleRate = (Done (bytes, lit "audio/wav"), bytes)
    /\ List.length bytes = (44 + 2 * List.length samples)%nat
    /\ (getString 4 0 bytes = chars "RIFF"
        /\ getString 4 8 bytes = chars "WAVE"
        /\ getString 4 12 bytes = chars "fmt "
        /\ getString 4 36 bytes = chars "data")
    /\ (getUint 4 16 bytes = 16 /\ getUint 2 20 bytes = 1
        /\ getUint 2 22 bytes = 1 /\ getUint 2 32 bytes = 2
        /\ getUint 2 34 bytes = 16)%Z
    /\ (getUint 4 24 bytes = sampleRate mod 2 ^ 32
        /\ getUint 4 28 bytes = (sampleRate * 2) mod 2 ^ 32)%Z
    /\ (getUint 4 4 bytes = (32 + n * 2) mod 2 ^ 32
        /\ getUint 4 40 bytes = (n * 2) mod 2 ^ 32)%Z
    /\ forall i, (i < List.length samples)%nat ->
         getUint 2 (44 + 2 * i) bytes
         = (toInteger (QArith_base.Qmult (nth i samples (QArith_base.Qmake 0 1))
                         (QArith_base.Qmake 32767 1)) mod 2 ^ 16)%Z.
Proof.
  cbv zeta. eexists. split; [apply createWavBlob_layout|].
  set (n := Z.of_nat (List.length samples)).
  split.
  { rewrite length_app, length_sampleBytes. reflexivity. }
  assert (Hle : forall v : Z,
             getUint 4 0 (littleEndian 4 v ++ []) = (v mod 2 ^ 32)%Z)
    by (intros v; apply getUint32_littleEndian).
  unfold getUint, littleEndian in Hle.
  cbn -[Z.land Z.shiftr Z.mul Z.add Z.of_nat Z.modulo Z.pow] in Hle.
  split; [|split; [|split; [|split]]].
  - unfold getString, header, written, chars.
    repeat split; vm_compute; reflexivity.
  - unfold getUint, header, written.
    repeat split; vm_compute; reflexivity.
  - set (data := flat_map sampleBytes samples).
    unfold getUint, header, written, littleEndian.
    cbn -[Z.land Z.shiftr Z.mul Z.add Z.of_nat Z.modulo Z.pow data].
    split; apply Hle.
  - set (data := flat_map sampleBytes samples).
    unfold getUint, header, written, littleEndian.
    cbn -[Z.land Z.shiftr Z.mul Z.add Z.of_nat Z.modulo Z.pow data n].
    split; apply Hle.
  - intros i Hi.
    exact (sample_at samples i (header n sampleRate) Hi).
Qed.

End WavEncoding.
